(** * channeld connection core: framing, receive/flush pipeline, lifecycle

    A shallow embedding of [pkg/channeld/connection.go].

    Conventions
    - Go [int] values (sizes, buffer positions) are far below 2^63 in every
      path of this file and are modelled as unbounded [Z]; [uint32] and
      [int64] arithmetic that can wrap has its wrap-around written out.
    - A [byte] is a [Z] in [0, 256); [byte_of] is Go's [byte(x)] conversion.
    - [*Connection] pointers are addresses into a store ([heap]); the two
      registries map a [ConnectionId] to an address, as the Go maps map it
      to a pointer.
    - Code of other packages (protobuf, snappy, the fsm package, the channel
      registry, the message table) is taken through the [Externals] class.
    - Logging and most Prometheus counters are left out; the counters that
      mark framing decisions (dropped, fragmented, combined, received) and
      every call that leaves the connection (socket write, channel queue,
      event broadcast, close handler, file write) are recorded as [Event]s. *)

From Stdlib Require Import ZArith List Bool String Lia.
From stdpp Require Import base option list gmap.
Import ListNotations.

Open Scope Z_scope.

(** ** Integer conversions *)

Definition byte_of (x : Z) : Z := x mod 256.
Definition uint32_of (x : Z) : Z := x mod 2 ^ 32.
Definition int64_of (x : Z) : Z := (x + 2 ^ 63) mod 2 ^ 64 - 2 ^ 63.

Definition is_byte (b : Z) : Prop := 0 <= b < 256.

(** ** Constants (lines 28-37) *)

Definition MaxPacketSize : Z := 0x00ffff.
Definition PacketHeaderSize : Z := 5.

Definition ConnectionState_UNAUTHENTICATED : Z := 0.
Definition ConnectionState_AUTHENTICATED : Z := 1.
Definition ConnectionState_CLOSING : Z := 2.

(** ** The 5-byte packet header *)

Module Header.

(** [flush], lines 664-672: the tag starts as 'CHNL' plus the compression
    byte, then the length overwrites bytes 3, 2 and 1 as far as needed. *)
Definition encode (len ct : Z) : list Z :=
  let tag1 := if 0xffff <? len then byte_of (Z.land (Z.shiftr len 16) 0xff) else 72 in
  let tag2 := if 0xff <? len then byte_of (Z.land (Z.shiftr len 8) 0xff) else 78 in
  let tag3 := byte_of (Z.land len 0xff) in
  [67; tag1; tag2; tag3; byte_of ct].

(** [readPacket], lines 460-465. *)
Definition packetSize (tag : list Z) : Z :=
  let t i := nth i tag 0 in
  let packetSize := t 3%nat in
  if negb (t 1%nat =? 72) then
    Z.lor (Z.lor packetSize (Z.shiftl (t 1%nat) 16)) (Z.shiftl (t 2%nat) 8)
  else if negb (t 2%nat =? 78) then
    Z.lor packetSize (Z.shiftl (t 2%nat) 8)
  else packetSize.

(** [readPacket], line 493: the compression byte. *)
Definition compression (tag : list Z) : Z := nth 4%nat tag 0.

(** What the receiver reads back from a header: (payload length, compression byte). *)
Definition decode (tag : list Z) : Z * Z := (packetSize tag, compression tag).

End Header.

(** ** Go slices *)

(** [s[a:b]] on a slice whose length is its capacity: a run-time panic
    ([None]) unless [0 <= a <= b <= len(s)]. *)
Definition slice (s : list Z) (a b : Z) : option (list Z) :=
  if (0 <=? a) && (a <=? b) && (b <=? Z.of_nat (length s))
  then Some (firstn (Z.to_nat (b - a)) (skipn (Z.to_nat a) s))
  else None.

(** What [conn.Read(s[pos:])] leaves in [s] when the socket delivers [data]:
    a read never returns more bytes than the slice it is given can hold. *)
Definition read_into (s : list Z) (pos : Z) (data : list Z) : list Z :=
  let room := Z.to_nat (Z.of_nat (length s) - pos) in
  let got := firstn room data in
  firstn (Z.to_nat pos) s ++ got ++ skipn (Z.to_nat pos + length got) s.

Definition bytes_read (s : list Z) (pos : Z) (data : list Z) : Z :=
  Z.of_nat (length (firstn (Z.to_nat (Z.of_nat (length s) - pos)) data)).

(** ** Wire data (package channeldpb, replaypb) *)

Module MessagePack.
Record t := mk {
  ChannelId : Z;
  Broadcast : Z;
  StubId : Z;
  MsgType : Z;
  MsgBody : list Z
}.
End MessagePack.

Module Packet.
Record t := mk { Messages : list MessagePack.t }.
End Packet.

Module ReplayPacket.
Record t := mk { OffsetTime : Z; Packet : Packet.t }.
End ReplayPacket.

(** Modelled from the spec: channeldpb.ConnectionType is generated code that
    is not part of this file; the spec lists SERVER and CLIENT, and
    [AddConnection] rejects every other value, here the zero value. *)
Inductive ConnectionType :=
| ConnectionType_NO_CONNECTION
| ConnectionType_SERVER
| ConnectionType_CLIENT.

(** Modelled from the spec: channeldpb.CompressionType and its generated
    name table are not part of this file; the spec gives NONE = 0 and
    SNAPPY = 1, SNAPPY being the only codec defined. *)
Definition CompressionType_NO_COMPRESSION : Z := 0.
Definition CompressionType_SNAPPY : Z := 1.

Definition CompressionType_name (v : Z) : option string :=
  if v =? 0 then Some "NO_COMPRESSION"%string
  else if v =? 1 then Some "SNAPPY"%string
  else None.

(** ** Code of other packages *)

Class Externals := {
  (** common.Message, MessageHandlerFunc, fsm.FiniteStateMachine *)
  Message : Type;
  MessageHandlerFunc : Type;
  FiniteStateMachine : Type;
  (** google.golang.org/protobuf/proto; [None] is a non-nil error.
      [proto_Unmarshal body prototype] is [proto.Clone] of the prototype
      followed by [proto.Unmarshal] of the body into the clone. *)
  proto_Size : Message -> Z;
  proto_Marshal : Message -> option (list Z);
  proto_Size_Packet : Packet.t -> Z;
  proto_Marshal_Packet : Packet.t -> option (list Z);
  proto_Unmarshal_Packet : list Z -> option Packet.t;
  proto_Unmarshal : list Z -> Message -> option Message;
  proto_Marshal_ReplaySession : list ReplayPacket.t -> option (list Z);
  (** github.com/golang/snappy; [snappy_Decode] is [DecodedLen] followed by
      [Decode], [None] when either reports an error. *)
  snappy_Encode : list Z -> list Z;
  snappy_Decode : list Z -> option (list Z);
  (** channeldpb.ServerForwardMessage{ClientConnId, Payload} *)
  ServerForwardMessage : Z -> list Z -> Message;
  MessageType_USER_SPACE_START : Z;
  (** message.go: the message table, entry = (prototype, handler) *)
  MessageMap : Z -> option (Message * MessageHandlerFunc);
  handleClientToServerUserMessage : MessageHandlerFunc;
  HandleServerToClientUserMessage : MessageHandlerFunc;
  (** pkg/fsm *)
  fsm_IsAllowed : FiniteStateMachine -> Z -> bool;
  fsm_OnReceived : FiniteStateMachine -> Z -> FiniteStateMachine;
  fsm_MoveToNextState : FiniteStateMachine -> FiniteStateMachine * bool;
  (** util.go *)
  HashString : string -> Z
}.

(** Modelled from the spec: MessageContext is declared in message.go, which
    is not part of this file; the spec gives its fields as
    {channelId, broadcastFlag, stubId, msgType, msg}. *)
Module MessageContext.
Record t `{Externals} := mk {
  Msg : Message;
  Broadcast : Z;
  StubId : Z;
  ChannelId : Z;
  MsgType : Z
}.
Arguments mk {_} Msg Broadcast StubId ChannelId MsgType.
End MessageContext.

(** A close handler is a Go closure; what [Close] can observe of it is that
    it was called and whether the call returned or panicked. What the
    closure does to the rest of the process is its own business and is not
    modelled: the statements about [Close] below speak of the steps of
    [Close] itself. *)
Inductive handlerFunc :=
| HandlerReturns (label : nat)
| HandlerPanics (label : nat).

Definition handler_label (h : handlerFunc) : nat :=
  match h with HandlerReturns l | HandlerPanics l => l end.

(** Outcome of code that may hit a run-time panic. *)
Inductive Result (A : Type) :=
| Ok (a : A)
| Panic.
Arguments Ok {A} a.
Arguments Panic {A}.

Section Model.
Context `{E : Externals}.

(** ** Observable effects *)

Inductive Event :=
| EvPacketDropped (connId : Z)
| EvFragmentedPacket (connId : Z)
| EvCombinedPacket (connId : Z)
| EvPacketReceived (connId : Z) (p : Packet.t)
| EvFsmDisallowed (connId : Z)
| EvPutMessage (channelId : Z) (msg : Message) (handler : MessageHandlerFunc)
               (connId : Z) (mp : MessagePack.t)
| EvConnWrite (connId : Z) (bytes : list Z)
| EvConnClose (connId : Z)
| EvCloseHandler (label : nat)
| EvWriteFile (dir : string) (connId : Z) (data : list Z).

(** ** The connection (lines 52-73)

    Left out: the embedded ConnectionInChannel, the logger, connTime and
    spatialSubscriptions, which no function below reads; [sender] is always
    the queue-backed sender that [AddConnection] installs. [conn] is the
    remote address and whether the socket is still open. *)
Record Connection := mkConnection {
  id : Z;
  connectionType : ConnectionType;
  compressionType : Z;
  conn_RemoteAddr : string;
  conn_open : bool;
  readBuffer : list Z;
  readPos : Z;
  sendQueue : list MessageContext.t;
  sendQueue_closed : bool;
  pit : string;
  fsm : FiniteStateMachine;
  fsmDisallowedCounter : Z;
  state : Z;
  closeHandlers : list handlerFunc;
  replaySession : option (list ReplayPacket.t)
}.

(** Field assignments [c.f = v]. *)
Definition set_compressionType (v : Z) (c : Connection) : Connection :=
  mkConnection (id c) (connectionType c) (v) (conn_RemoteAddr c) (conn_open c) (readBuffer c) (readPos c) (sendQueue c) (sendQueue_closed c) (pit c) (fsm c) (fsmDisallowedCounter c) (state c) (closeHandlers c) (replaySession c).
Definition set_conn_open (v : bool) (c : Connection) : Connection :=
  mkConnection (id c) (connectionType c) (compressionType c) (conn_RemoteAddr c) (v) (readBuffer c) (readPos c) (sendQueue c) (sendQueue_closed c) (pit c) (fsm c) (fsmDisallowedCounter c) (state c) (closeHandlers c) (replaySession c).
Definition set_readBuffer (v : list Z) (c : Connection) : Connection :=
  mkConnection (id c) (connectionType c) (compressionType c) (conn_RemoteAddr c) (conn_open c) (v) (readPos c) (sendQueue c) (sendQueue_closed c) (pit c) (fsm c) (fsmDisallowedCounter c) (state c) (closeHandlers c) (replaySession c).
Definition set_readPos (v : Z) (c : Connection) : Connection :=
  mkConnection (id c) (connectionType c) (compressionType c) (conn_RemoteAddr c) (conn_open c) (readBuffer c) (v) (sendQueue c) (sendQueue_closed c) (pit c) (fsm c) (fsmDisallowedCounter c) (state c) (closeHandlers c) (replaySession c).
Definition set_sendQueue (v : list MessageContext.t) (c : Connection) : Connection :=
  mkConnection (id c) (connectionType c) (compressionType c) (conn_RemoteAddr c) (conn_open c) (readBuffer c) (readPos c) (v) (sendQueue_closed c) (pit c) (fsm c) (fsmDisallowedCounter c) (state c) (closeHandlers c) (replaySession c).
Definition set_sendQueue_closed (v : bool) (c : Connection) : Connection :=
  mkConnection (id c) (connectionType c) (compressionType c) (conn_RemoteAddr c) (conn_open c) (readBuffer c) (readPos c) (sendQueue c) (v) (pit c) (fsm c) (fsmDisallowedCounter c) (state c) (closeHandlers c) (replaySession c).
Definition set_pit (v : string) (c : Connection) : Connection :=
  mkConnection (id c) (connectionType c) (compressionType c) (conn_RemoteAddr c) (conn_open c) (readBuffer c) (readPos c) (sendQueue c) (sendQueue_closed c) (v) (fsm c) (fsmDisallowedCounter c) (state c) (closeHandlers c) (replaySession c).
Definition set_fsm (v : FiniteStateMachine) (c : Connection) : Connection :=
  mkConnection (id c) (connectionType c) (compressionType c) (conn_RemoteAddr c) (conn_open c) (readBuffer c) (readPos c) (sendQueue c) (sendQueue_closed c) (pit c) (v) (fsmDisallowedCounter c) (state c) (closeHandlers c) (replaySession c).
Definition set_fsmDisallowedCounter (v : Z) (c : Connection) : Connection :=
  mkConnection (id c) (connectionType c) (compressionType c) (conn_RemoteAddr c) (conn_open c) (readBuffer c) (readPos c) (sendQueue c) (sendQueue_closed c) (pit c) (fsm c) (v) (state c) (closeHandlers c) (replaySession c).
Definition set_state (v : Z) (c : Connection) : Connection :=
  mkConnection (id c) (connectionType c) (compressionType c) (conn_RemoteAddr c) (conn_open c) (readBuffer c) (readPos c) (sendQueue c) (sendQueue_closed c) (pit c) (fsm c) (fsmDisallowedCounter c) (v) (closeHandlers c) (replaySession c).
Definition set_replaySession (v : option (list ReplayPacket.t)) (c : Connection) : Connection :=
  mkConnection (id c) (connectionType c) (compressionType c) (conn_RemoteAddr c) (conn_open c) (readBuffer c) (readPos c) (sendQueue c) (sendQueue_closed c) (pit c) (fsm c) (fsmDisallowedCounter c) (state c) (closeHandlers c) (v).

(** ** Process-wide settings and collaborators read by this file *)

Record Settings := mkSettings {
  Development : bool;
  MaxConnectionIdBits : Z;
  ServerReadBufferSize : Z;
  ClientReadBufferSize : Z;
  ConnectionAuthTimeoutMs : Z;
  EnableRecordPacket : bool;
  ReplaySessionPersistenceDir : string
}.

(** [GetChannel] is the channel registry's lookup, by whether it finds a
    channel. [recordClock k] is the reading of [time.Now().UnixNano()] taken
    when a connection records its k-th packet. *)
Record Globals := mkGlobals {
  GlobalSettings : Settings;
  GetChannel : Z -> bool;
  recordClock : nat -> Z
}.

(** ** Lifecycle state (lines 327-329) *)

Definition IsClosing (c : Connection) : bool :=
  ConnectionState_AUTHENTICATED <? state c.

(** Lines 533-535. *)
Definition isPacketRecordingEnabled (g : Globals) (c : Connection) : bool :=
  match connectionType c with
  | ConnectionType_CLIENT => EnableRecordPacket (GlobalSettings g)
  | _ => false
  end.

(** Modelled from the spec: the listener of [Event_FsmDisallowed]. This
    file declares the counter (line 66), sets it to 0 (line 249) and
    broadcasts the event with the connection (line 554); the listener that
    receives the connection is not in this file. The spec has it count:
    "Any rejected message (IsAllowed false) increments a counter, emits a
    disallowed event broadcast, and is dropped", and "a disallowed message
    increments the disallowed counter exactly once per occurrence". *)
Definition FsmDisallowed_listener (c : Connection) : Connection :=
  set_fsmDisallowedCounter (fsmDisallowedCounter c + 1) c.

(** ** Dispatcher: [receiveMessage] (lines 537-602)

    When the table has no entry, the first guard has already returned for
    every type below USER_SPACE_START, so the Go test
    [MsgType >= USER_SPACE_START && entry == nil] is the [None] case here and
    its [else] branch always finds an entry. *)
Definition receiveMessage (g : Globals) (c : Connection) (mp : MessagePack.t)
  : Connection * list Event :=
  if negb (GetChannel g (MessagePack.ChannelId mp)) then (c, [])
  else
    let entry := MessageMap (MessagePack.MsgType mp) in
    if match entry with None => true | Some _ => false end
       && (MessagePack.MsgType mp <? MessageType_USER_SPACE_START)
    then (c, [])
    else if negb (fsm_IsAllowed (fsm c) (MessagePack.MsgType mp))
    then (FsmDisallowed_listener c, [EvFsmDisallowed (id c)])
    else
      let decoded : option (Message * MessageHandlerFunc) :=
        match entry with
        | None =>
            match connectionType c with
            | ConnectionType_CLIENT =>
                Some (ServerForwardMessage (uint32_of (id c)) (MessagePack.MsgBody mp),
                      handleClientToServerUserMessage)
            | _ =>
                match proto_Unmarshal (MessagePack.MsgBody mp) (ServerForwardMessage 0 []) with
                | None => None
                | Some msg => Some (msg, HandleServerToClientUserMessage)
                end
            end
        | Some (prototype, handler) =>
            match proto_Unmarshal (MessagePack.MsgBody mp) prototype with
            | None => None
            | Some msg => Some (msg, handler)
            end
        end in
      match decoded with
      | None => (c, [])
      | Some (msg, handler) =>
          (set_fsm (fsm_OnReceived (fsm c) (MessagePack.MsgType mp)) c,
           [EvPutMessage (MessagePack.ChannelId mp) msg handler (id c) mp])
      end.

(** The two guards that [receiveMessage] passes before it asks the state
    machine (lines 538-551): the destination channel exists, and the type
    has a table entry or lies in user space. *)
Definition reaches_fsm_gate (g : Globals) (mp : MessagePack.t) : bool :=
  GetChannel g (MessagePack.ChannelId mp)
  && negb (match MessageMap (MessagePack.MsgType mp) with None => true | Some _ => false end
           && (MessagePack.MsgType mp <? MessageType_USER_SPACE_START)).

(** The loop of lines 524-526. *)
Fixpoint receiveMessages (g : Globals) (c : Connection) (mps : list MessagePack.t)
  : Connection * list Event :=
  match mps with
  | [] => (c, [])
  | mp :: rest =>
      let '(c1, evs1) := receiveMessage g c mp in
      let '(c2, evs2) := receiveMessages g c1 rest in
      (c2, evs1 ++ evs2)
  end.

(** ** Replay recorder: [recordPacket] (lines 739-750)

    [c.replaySession] is a pointer; it is nil on a connection created while
    recording was off, and dereferencing it panics. *)
Definition recordPacket (g : Globals) (c : Connection) (p : Packet.t)
  : Result Connection :=
  match replaySession c with
  | None => Panic
  | Some packets =>
      Ok (set_replaySession
            (Some (packets ++ [ReplayPacket.mk (int64_of (recordClock g (length packets))) p]))
            c)
  end.

(** ** Packet assembler: [readPacket] (lines 449-531)

    The result is the connection, the new [*bufPos], the returned packet
    ([None] for nil) and the effects. *)
Definition readPacket (g : Globals) (c : Connection) (bufPos : Z)
  : Result (Connection * Z * option Packet.t * list Event) :=
  match slice (readBuffer c) bufPos (bufPos + PacketHeaderSize) with
  | None => Panic
  | Some tag =>
    if negb (nth 0%nat tag 0 =? 67) then
      Ok (set_readPos 0 c, bufPos, None, [EvPacketDropped (id c)])
    else
      let packetSize := Header.packetSize tag in
      if MaxPacketSize <? packetSize then
        Ok (set_readPos 0 c, bufPos, None, [EvPacketDropped (id c)])
      else
        let fullSize := PacketHeaderSize + packetSize in
        if readPos c <? fullSize then
          Ok (c, bufPos, None, [EvFragmentedPacket (id c)])
        else if Z.of_nat (length (readBuffer c)) <=? bufPos + fullSize then
          Ok (set_readPos 0 c, bufPos, None, [EvPacketDropped (id c)])
        else
          match slice (readBuffer c) (bufPos + PacketHeaderSize) (bufPos + fullSize) with
          | None => Panic
          | Some bytes =>
            let ct := Header.compression tag in
            let valid := match CompressionType_name ct with Some _ => true | None => false end in
            let sticky := valid && negb (ct =? 0) in
            let c1 := if sticky then set_compressionType ct c else c in
            let decompressed :=
              if sticky && (compressionType c1 =? CompressionType_SNAPPY)
              then snappy_Decode bytes else Some bytes in
            match decompressed with
            | None => Ok (c1, bufPos, None, [])
            | Some bytes' =>
              match proto_Unmarshal_Packet bytes' with
              | None => Ok (c1, bufPos, None, [])
              | Some p =>
                match (if isPacketRecordingEnabled g c1 then recordPacket g c1 p else Ok c1) with
                | Panic => Panic
                | Ok c2 =>
                  let '(c3, evs) := receiveMessages g c2 (Packet.Messages p) in
                  Ok (c3, bufPos + fullSize, Some p, EvPacketReceived (id c) p :: evs)
                end
              end
            end
          end
  end.

(** The header of the packet that [readPacket] finds complete at [bufPos]:
    the one that has passed the checks of lines 451-486. *)
Definition accepted_header (c : Connection) (bufPos : Z) : option (list Z) :=
  match slice (readBuffer c) bufPos (bufPos + PacketHeaderSize) with
  | None => None
  | Some tag =>
      let fullSize := PacketHeaderSize + Header.packetSize tag in
      if (nth 0%nat tag 0 =? 67)
         && (Header.packetSize tag <=? MaxPacketSize)
         && (fullSize <=? readPos c)
         && (bufPos + fullSize <? Z.of_nat (length (readBuffer c)))
      then Some tag
      else None
  end.

(** What the receive path does to a connection besides its cursor, its
    state machine, its disallowed counter and its replay session: the
    other fields are left alone, and the sticky compression type is kept or
    becomes SNAPPY. *)
Definition receive_frame (c c1 : Connection) : Prop :=
  id c1 = id c /\ readBuffer c1 = readBuffer c /\ sendQueue c1 = sendQueue c /\
  state c1 = state c /\
  (compressionType c1 = compressionType c \/ compressionType c1 = CompressionType_SNAPPY).

(** ** [receive] (lines 331-447), the part after a successful read

    [receiveLoop] is the loop of lines 436-443; [fuel] bounds its
    iterations and [None] means that the bound was too small. *)
Fixpoint receiveLoop (fuel : nat) (g : Globals) (c : Connection) (bufPos : Z)
  : option (Result (Connection * list Event)) :=
  if bufPos <? readPos c then
    match fuel with
    | O => None
    | S fuel' =>
      match readPacket g c bufPos with
      | Panic => Some Panic
      | Ok (c1, _, None, evs) => Some (Ok (c1, evs))
      | Ok (c1, bufPos1, Some _, evs) =>
        let combined := if bufPos1 <? readPos c1 then [EvCombinedPacket (id c1)] else [] in
        match receiveLoop fuel' g c1 bufPos1 with
        | None => None
        | Some Panic => Some Panic
        | Some (Ok (c2, evs2)) => Some (Ok (c2, evs ++ combined ++ evs2))
        end
      end
    end
  else Some (Ok (set_readPos 0 c, [])).

(** Every completed iteration moves [bufPos] forward by at least the header
    size, so this many iterations are enough. *)
Definition receive_fuel (c : Connection) : nat := S (Z.to_nat (readPos c)).

(** Line 333 slices the buffer at [readPos], which panics when the cursor
    is outside the buffer; lines 358-363 and the loop follow. *)
Definition receiveData (g : Globals) (c : Connection) (data : list Z)
  : option (Result (Connection * list Event)) :=
  match slice (readBuffer c) (readPos c) (Z.of_nat (length (readBuffer c))) with
  | None => Some Panic
  | Some _ =>
    let c1 := set_readPos (readPos c + bytes_read (readBuffer c) (readPos c) data)
                (set_readBuffer (read_into (readBuffer c) (readPos c) data) c) in
    if readPos c1 <? PacketHeaderSize then
      Some (Ok (c1, [EvFragmentedPacket (id c1)]))
    else receiveLoop (receive_fuel c1) g c1 0
  end.

(** A run of successive socket reads on one connection; it stops at the
    first panic. *)
Fixpoint receiveAll (g : Globals) (c : Connection) (reads : list (list Z))
  : option (Result (Connection * list Event)) :=
  match reads with
  | [] => Some (Ok (c, []))
  | data :: rest =>
    match receiveData g c data with
    | None => None
    | Some Panic => Some Panic
    | Some (Ok (c1, evs1)) =>
      match receiveAll g c1 rest with
      | None => None
      | Some Panic => Some Panic
      | Some (Ok (c2, evs2)) => Some (Ok (c2, evs1 ++ evs2))
      end
    end
  end.

(** The decoded packets that a trace hands to the dispatcher, in order. *)
Definition packets_of (evs : list Event) : list Packet.t :=
  flat_map (fun e => match e with EvPacketReceived _ p => [p] | _ => [] end) evs.

Definition dispatched (r : option (Result (Connection * list Event)))
  : option (list Packet.t) :=
  match r with
  | Some (Ok (_, evs)) => Some (packets_of evs)
  | _ => None
  end.

(** ** Outbound path *)

(** [Send] (lines 604-610) through the queue-backed sender (lines 48-50):
    a send on a closed channel panics, a send on a full channel blocks the
    producer; the queue is created with room for 128 contexts (line 248). *)
Inductive SendResult :=
| Sent (c : Connection)
| SendBlocks
| SendPanics.

Definition sendQueue_capacity : Z := 128.

Definition queuedMessageSender_Send (c : Connection) (ctx : MessageContext.t) : SendResult :=
  if sendQueue_closed c then SendPanics
  else if sendQueue_capacity <=? Z.of_nat (length (sendQueue c)) then SendBlocks
  else Sent (set_sendQueue (sendQueue c ++ [ctx]) c).

Definition Send (c : Connection) (ctx : MessageContext.t) : SendResult :=
  if IsClosing c then Sent c
  else queuedMessageSender_Send c ctx.

Definition pack_of (mc : MessageContext.t) (msgBody : list Z) : MessagePack.t :=
  MessagePack.mk (MessageContext.ChannelId mc) (MessageContext.Broadcast mc)
                 (MessageContext.StubId mc) (uint32_of (MessageContext.MsgType mc)) msgBody.

(** The loop of lines 622-649 over the queue as it stands when [flush]
    starts: the result is [p.Messages] and what is left in the queue. Each
    turn first takes [mc] out of the queue (line 623). *)
Fixpoint flushLoop (queue : list MessageContext.t) (messages : list MessagePack.t) (size : Z)
  : list MessagePack.t * list MessageContext.t :=
  match queue with
  | [] => (messages, [])
  | mc :: rest =>
      if 0xfffff0 <=? size + proto_Size (MessageContext.Msg mc) then (messages, rest)
      else
        match proto_Marshal (MessageContext.Msg mc) with
        | None => flushLoop rest messages size
        | Some msgBody =>
            let messages' := messages ++ [pack_of mc msgBody] in
            flushLoop rest messages' (proto_Size_Packet (Packet.mk messages'))
        end
  end.

(** [flush] (lines 613-694). *)
Definition flush (c : Connection) : Connection * list Event :=
  match sendQueue c with
  | [] => (c, [])
  | _ :: _ =>
      let '(messages, rest) := flushLoop (sendQueue c) [] 0 in
      let c1 := set_sendQueue rest c in
      match proto_Marshal_Packet (Packet.mk messages) with
      | None => (c1, [])
      | Some bytes =>
          let bytes := if compressionType c =? CompressionType_SNAPPY
                       then snappy_Encode bytes else bytes in
          let tag := Header.encode (Z.of_nat (length bytes)) (compressionType c) in
          (c1, [EvConnWrite (id c) (tag ++ bytes)])
      end
  end.

(** The packet that [flush] serialises, for stating what it contains. *)
Definition flushed_messages (c : Connection) : list MessagePack.t :=
  fst (flushLoop (sendQueue c) [] 0).

(** The bytes handed to [conn.Write], in order. *)
Definition writes_of (evs : list Event) : list (list Z) :=
  flat_map (fun e => match e with EvConnWrite _ bytes => [bytes] | _ => [] end) evs.

(** What a flush puts on the wire when the payload is compressed and the
    header carries compression type [ct]. *)
Definition compressed_frame (ct : Z) (bytes : list Z) : Prop :=
  exists messages payload,
    proto_Marshal_Packet (Packet.mk messages) = Some payload /\
    bytes = Header.encode (Z.of_nat (length (snappy_Encode payload))) ct
              ++ snappy_Encode payload.

(** ** Runs of one connection's two workers

    What the receive worker, the flush worker and the producers do to a
    connection, one call at a time. A producer that finds the queue full
    waits: its call has not happened yet. *)
Inductive ConnOp :=
| OpReceive (data : list Z)
| OpSend (ctx : MessageContext.t)
| OpFlush.

Definition runOp (g : Globals) (c : Connection) (op : ConnOp)
  : option (Result (Connection * list Event)) :=
  match op with
  | OpReceive data => receiveData g c data
  | OpSend ctx =>
      match Send c ctx with
      | Sent c1 => Some (Ok (c1, []))
      | SendBlocks => Some (Ok (c, []))
      | SendPanics => Some Panic
      end
  | OpFlush => Some (Ok (flush c))
  end.

Fixpoint runOps (g : Globals) (c : Connection) (ops : list ConnOp)
  : option (Result (Connection * list Event)) :=
  match ops with
  | [] => Some (Ok (c, []))
  | op :: rest =>
    match runOp g c op with
    | None => None
    | Some Panic => Some Panic
    | Some (Ok (c1, evs1)) =>
      match runOps g c1 rest with
      | None => None
      | Some Panic => Some Panic
      | Some (Ok (c2, evs2)) => Some (Ok (c2, evs1 ++ evs2))
      end
    end
  end.

(** The reads of a run deliver bytes. *)
Definition reads_are_bytes (ops : list ConnOp) : Prop :=
  Forall (fun op => match op with
                    | OpReceive data => Forall is_byte data
                    | _ => True
                    end) ops.

(** ** Replay persistence: [persistReplaySession] (lines 752-792) *)

(** The loop of lines 762-766; [OffsetTime] is an int64. *)
Fixpoint rewriteOffsets (prevPacketTime : Z) (packets : list ReplayPacket.t)
  : list ReplayPacket.t :=
  match packets with
  | [] => []
  | packet :: rest =>
      let t := ReplayPacket.OffsetTime packet in
      ReplayPacket.mk (int64_of (t - prevPacketTime)) (ReplayPacket.Packet packet)
        :: rewriteOffsets t rest
  end.

(** The timestamp that the rewrite subtracts at index [i]. *)
Definition previous_time (prev : Z) (packets : list ReplayPacket.t) (i : nat) : Z :=
  match i with
  | O => prev
  | S j => match packets !! j with
           | Some q => ReplayPacket.OffsetTime q
           | None => 0
           end
  end.

(** Creating the directory is left out; the file write is recorded with
    the directory and the connection id that make up its path. *)
Definition persistReplaySession (g : Globals) (c : Connection)
  : Result (Connection * list Event) :=
  match replaySession c with
  | None => Panic
  | Some [] => Ok (c, [])
  | Some (first :: rest) =>
      let packets := rewriteOffsets (ReplayPacket.OffsetTime first) (first :: rest) in
      let c1 := set_replaySession (Some packets) c in
      match proto_Marshal_ReplaySession packets with
      | None => Ok (c1, [])
      | Some data =>
          let dir := if String.eqb (ReplaySessionPersistenceDir (GlobalSettings g)) ""
                     then "replays"%string
                     else ReplaySessionPersistenceDir (GlobalSettings g) in
          Ok (c1, [EvWriteFile dir (id c) data])
      end
  end.

(** ** Process state

    [heap] is the store of connection objects and [heap_next] the next free
    address; [allConnections] and [unauthenticatedConnections] are the two
    registries (lines 75 and ddos.go), [nextConnectionId] the package
    variable of line 76 (a uint32), [serverFsm] and [clientFsm] the loaded
    templates (nil before [InitConnections]); [effects] is the trace of
    effects so far. *)
Record World := mkWorld {
  globals : Globals;
  serverFsm : option FiniteStateMachine;
  clientFsm : option FiniteStateMachine;
  heap : nat -> Connection;
  heap_next : nat;
  allConnections : gmap Z nat;
  unauthenticatedConnections : gmap Z nat;
  nextConnectionId : Z;
  effects : list Event
}.

Definition set_heap (v : nat -> Connection) (w : World) : World :=
  mkWorld (globals w) (serverFsm w) (clientFsm w) (v) (heap_next w) (allConnections w) (unauthenticatedConnections w) (nextConnectionId w) (effects w).
Definition set_heap_next (v : nat) (w : World) : World :=
  mkWorld (globals w) (serverFsm w) (clientFsm w) (heap w) (v) (allConnections w) (unauthenticatedConnections w) (nextConnectionId w) (effects w).
Definition set_allConnections (v : gmap Z nat) (w : World) : World :=
  mkWorld (globals w) (serverFsm w) (clientFsm w) (heap w) (heap_next w) (v) (unauthenticatedConnections w) (nextConnectionId w) (effects w).
Definition set_unauthenticatedConnections (v : gmap Z nat) (w : World) : World :=
  mkWorld (globals w) (serverFsm w) (clientFsm w) (heap w) (heap_next w) (allConnections w) (v) (nextConnectionId w) (effects w).
Definition set_nextConnectionId (v : Z) (w : World) : World :=
  mkWorld (globals w) (serverFsm w) (clientFsm w) (heap w) (heap_next w) (allConnections w) (unauthenticatedConnections w) (v) (effects w).
Definition set_effects (v : list Event) (w : World) : World :=
  mkWorld (globals w) (serverFsm w) (clientFsm w) (heap w) (heap_next w) (allConnections w) (unauthenticatedConnections w) (nextConnectionId w) (v).

(** [*p = c] and appending to the trace. *)
Definition store (p : nat) (c : Connection) (w : World) : World :=
  set_heap (fun q => if Nat.eqb q p then c else heap w q) w.

Definition emit (evs : list Event) (w : World) : World :=
  set_effects (effects w ++ evs) w.

(** Outcome of a function on the process state: it returns, or it panics
    and leaves the state as it was at that point. *)
Inductive Outcome (A : Type) :=
| Done (a : A) (w : World)
| Panicked (w : World).
Arguments Done {A} a w.
Arguments Panicked {A} w.

(** ** Registry lookup: [GetConnection] (lines 118-128) *)

Definition GetConnection (connId : Z) (w : World) : option nat :=
  match allConnections w !! connId with
  | Some p => if IsClosing (heap w p) then None else Some p
  | None => None
  end.

(** ** [Close] (lines 300-325) *)

(** The loop of lines 313-315. *)
Fixpoint runCloseHandlers (handlers : list handlerFunc) (w : World) : Outcome unit :=
  match handlers with
  | [] => Done tt w
  | HandlerReturns l :: rest => runCloseHandlers rest (emit [EvCloseHandler l] w)
  | HandlerPanics l :: _ => Panicked (emit [EvCloseHandler l] w)
  end.

(** The steps of lines 317-321. [close] of a channel that is already
    closed panics. *)
Definition teardown (p : nat) (w : World) : Outcome unit :=
  let c1 := set_state ConnectionState_CLOSING (heap w p) in
  let c2 := set_conn_open false c1 in
  let w1 := emit [EvConnClose (id c2)] (store p c2 w) in
  if sendQueue_closed c2 then Panicked w1
  else
    let w2 := store p (set_sendQueue_closed true c2) w1 in
    let w3 := set_allConnections (delete (id c2) (allConnections w2)) w2 in
    Done tt (set_unauthenticatedConnections
               (delete (id c2) (unauthenticatedConnections w3)) w3).

(** Lines 309-311. *)
Definition persistIfRecording (g : Globals) (c : Connection)
  : Result (Connection * list Event) :=
  if isPacketRecordingEnabled g c then persistReplaySession g c else Ok (c, []).

(** The body of [Close], lines 304-324. *)
Definition Close_body (p : nat) (w : World) : Outcome unit :=
  let c := heap w p in
  if IsClosing c then Done tt w
  else
    match persistIfRecording (globals w) c with
    | Panic => Panicked w
    | Ok (c1, evs) =>
        match runCloseHandlers (closeHandlers c1) (emit evs (store p c1 w)) with
        | Panicked w1 => Panicked w1
        | Done _ w1 => teardown p w1
        end
    end.

(** [Close] with its deferred [recover()] (lines 301-303): a panic inside
    the body ends the call, and the caller sees a normal return. *)
Definition Close (p : nat) (w : World) : World :=
  match Close_body p w with
  | Done _ w' => w'
  | Panicked w' => w'
  end.

(** What the steps of lines 317-321 leave behind for the connection at
    [p], and what is there when they have not run. *)
Definition torn_down (p : nat) (w w' : World) : Prop :=
  state (heap w' p) = ConnectionState_CLOSING /\
  conn_open (heap w' p) = false /\
  sendQueue_closed (heap w' p) = true /\
  id (heap w' p) = id (heap w p) /\
  allConnections w' = delete (id (heap w p)) (allConnections w) /\
  unauthenticatedConnections w'
    = delete (id (heap w p)) (unauthenticatedConnections w).

Definition not_torn_down (p : nat) (w w' : World) : Prop :=
  state (heap w' p) = state (heap w p) /\
  conn_open (heap w' p) = conn_open (heap w p) /\
  sendQueue_closed (heap w' p) = sendQueue_closed (heap w p) /\
  allConnections w' = allConnections w /\
  unauthenticatedConnections w' = unauthenticatedConnections w.

(** The labels of the close handlers that a trace shows being called. *)
Definition handlers_called (evs : list Event) : list nat :=
  flat_map (fun e => match e with EvCloseHandler l => [l] | _ => [] end) evs.

(** ** [OnAuthenticated] (lines 708-722) *)

Definition OnAuthenticated (p : nat) (pit' : string) (w : World) : World :=
  let c := heap w p in
  if IsClosing c then w
  else
    let c1 := set_state ConnectionState_AUTHENTICATED c in
    let w1 := set_unauthenticatedConnections
                (delete (id c1) (unauthenticatedConnections w)) w in
    let c2 := set_pit pit' c1 in
    store p (set_fsm (fst (fsm_MoveToNextState (fsm c2))) c2) w1.

(** ** Identity allocation *)

(** [generateNextConnId] (lines 195-208). [now] is the reading of
    [time.Now().UnixNano()]; zap's [Panic] logs and then panics. *)
Definition generateNextConnId (remoteAddr : string) (now : Z) (maxConnId : Z) (w : World)
  : Outcome unit :=
  if Development (GlobalSettings (globals w)) then
    let w1 := set_nextConnectionId (uint32_of (nextConnectionId w + 1)) w in
    if maxConnId <=? nextConnectionId w1 then Panicked w1 else Done tt w1
  else
    let hash := uint32_of (HashString remoteAddr) in
    let hash := Z.lxor hash (uint32_of now) in
    Done tt (set_nextConnectionId (Z.land hash maxConnId) w).

(** The loop of lines 226-236. [retries] is [100 - tries], so that
    [tries >= 100] is [retries = 0]; [clock tries] is the clock reading of
    that turn. *)
Fixpoint allocateConnId (retries tries : nat) (remoteAddr : string) (clock : nat -> Z)
    (maxConnId : Z) (w : World) : Outcome unit :=
  match generateNextConnId remoteAddr (clock tries) maxConnId w with
  | Panicked w1 => Panicked w1
  | Done _ w1 =>
      match allConnections w1 !! nextConnectionId w1 with
      | None => Done tt w1
      | Some _ =>
          match retries with
          | O => Panicked w1
          | S retries' => allocateConnId retries' (S tries) remoteAddr clock maxConnId w1
          end
      end
  end.

(** Line 224: [uint32(1)<<GlobalSettings.MaxConnectionIdBits - 1]. *)
Definition maxConnId_of (bits : Z) : Z :=
  uint32_of (uint32_of (Z.shiftl 1 bits) - 1).

(** [AddConnection] (lines 211-294); the result is the new [*Connection]. *)
Definition AddConnection (remoteAddr : string) (t : ConnectionType) (clock : nat -> Z)
    (w : World) : Outcome nat :=
  let settings := GlobalSettings (globals w) in
  match (match t with
         | ConnectionType_SERVER => Some (ServerReadBufferSize settings)
         | ConnectionType_CLIENT => Some (ClientReadBufferSize settings)
         | ConnectionType_NO_CONNECTION => None
         end) with
  | None => Panicked w
  | Some readerSize =>
    let maxConnId := maxConnId_of (MaxConnectionIdBits settings) in
    match allocateConnId 100 0 remoteAddr clock maxConnId w with
    | Panicked w1 => Panicked w1
    | Done _ w1 =>
      match (match t with
             | ConnectionType_SERVER => serverFsm w1
             | ConnectionType_CLIENT => clientFsm w1
             | ConnectionType_NO_CONNECTION => None
             end) with
      | None => Panicked w1
      | Some fsm0 =>
        let recording := match t with
                         | ConnectionType_CLIENT => EnableRecordPacket settings
                         | _ => false
                         end in
        let connection :=
          mkConnection (nextConnectionId w1) t CompressionType_NO_COMPRESSION
            remoteAddr true
            (repeat 0 (Z.to_nat readerSize)) 0
            [] false
            ""%string fsm0 0
            ConnectionState_UNAUTHENTICATED
            []
            (if recording then Some [] else None) in
        let p := heap_next w1 in
        let w2 := set_heap_next (S p) (store p connection w1) in
        let w3 := set_allConnections (<[id connection := p]> (allConnections w2)) w2 in
        let w4 := if 0 <? ConnectionAuthTimeoutMs settings
                  then set_unauthenticatedConnections
                         (<[id connection := p]> (unauthenticatedConnections w3)) w3
                  else w3 in
        Done p w4
      end
    end
  end.

(** [AddCloseHandler] (lines 296-298). *)
Definition AddCloseHandler (handler : handlerFunc) (c : Connection) : Connection :=
  mkConnection (id c) (connectionType c) (compressionType c) (conn_RemoteAddr c)
    (conn_open c) (readBuffer c) (readPos c) (sendQueue c) (sendQueue_closed c)
    (pit c) (fsm c) (fsmDisallowedCounter c) (state c)
    (closeHandlers c ++ [handler]) (replaySession c).

End Model.

Arguments Done {E A} a w.
Arguments Panicked {E A} w.

(** ** Further vocabulary and the remaining entry points *)

Section ModelMore.
Context `{E : Externals}.

(** A framed packet as [flush] lays it out (lines 664-677): the header for
    the body's length and compression type, then the body. *)
Definition frame_of (ct : Z) (body : list Z) : list Z :=
  Header.encode (Z.of_nat (length body)) ct ++ body.

(** What the receive path needs to take [frame] in: the buffer holds the
    frame and one byte more (the test of line 481), and a connection that
    records packets has its session (line 746 dereferences it). *)
Definition ready_for (g : Globals) (frame : list Z) (c : Connection) : Prop :=
  Z.of_nat (length frame) < Z.of_nat (length (readBuffer c)) /\
  (isPacketRecordingEnabled g c = true -> replaySession c <> None).

(** The first [length pre] bytes of the buffer are [pre], and the cursor
    stands behind them. *)
Definition holds_prefix (c : Connection) (pre : list Z) : Prop :=
  readPos c = Z.of_nat (length pre) /\
  firstn (length pre) (readBuffer c) = pre.

(** The packs that [flush] builds from a list of contexts (lines 629-640):
    one per context, in order, the contexts that fail to marshal left out. *)
Definition packs_of (contexts : list MessageContext.t) : list MessagePack.t :=
  flat_map (fun mc => match proto_Marshal (MessageContext.Msg mc) with
                      | Some msgBody => [pack_of mc msgBody]
                      | None => []
                      end) contexts.

(** The messages that a trace hands to a channel queue, in order. *)
Definition queued_of (evs : list Event) : list MessagePack.t :=
  flat_map (fun e => match e with EvPutMessage _ _ _ _ mp => [mp] | _ => [] end) evs.

(** Running totals of the offsets of a session, starting from [acc]. *)
Fixpoint elapsed (acc : Z) (packets : list ReplayPacket.t) : list Z :=
  match packets with
  | [] => []
  | packet :: rest =>
      (acc + ReplayPacket.OffsetTime packet)
        :: elapsed (acc + ReplayPacket.OffsetTime packet) rest
  end.

(** Every registry entry points to an allocated connection that carries
    the entry's key as its id. *)
Definition registry_ok (w : World) : Prop :=
  forall k p, allConnections w !! k = Some p ->
              (p < heap_next w)%nat /\ id (heap w p) = k.

(** [receive] (lines 331-447) on the process state: [conn.Read] either
    fails, and the connection is closed (lines 335-356), or delivers bytes.
    [None] is the loop bound of [receiveLoop] being too small. *)
Inductive ReadResult :=
| ReadBytes (data : list Z)
| ReadError.

Definition receive (p : nat) (r : ReadResult) (w : World) : option (Outcome unit) :=
  match r with
  | ReadError => Some (Done tt (Close p w))
  | ReadBytes data =>
      match receiveData (globals w) (heap w p) data with
      | None => None
      | Some Panic => Some (Panicked w)
      | Some (Ok (c1, evs)) => Some (Done tt (emit evs (store p c1 w)))
      end
  end.

(** The receive worker of [startGoroutines] (lines 132-136) over the reads
    that the socket will deliver: it stops when the connection is closing;
    a panic in [receive] is not recovered. *)
Fixpoint receiveWorker (p : nat) (reads : list ReadResult) (w : World)
  : option (Outcome unit) :=
  match reads with
  | [] => Some (Done tt w)
  | r :: rest =>
      if IsClosing (heap w p) then Some (Done tt w)
      else
        match receive p r w with
        | None => None
        | Some (Panicked w1) => Some (Panicked w1)
        | Some (Done _ w1) => receiveWorker p rest w1
        end
  end.

(** [Disconnect] (lines 696-698) closes the socket and nothing else. *)
Definition Disconnect (p : nat) (w : World) : World :=
  emit [EvConnClose (id (heap w p))] (store p (set_conn_open false (heap w p)) w).

(** [RemoteAddr] (lines 732-737): nil once the connection is closing. *)
Definition RemoteAddr (c : Connection) : option string :=
  if IsClosing c then None else Some (conn_RemoteAddr c).

(** A frame on the wire together with the packet that its payload decodes
    to (lines 451-516): a length that the header can carry, and a payload
    that decompresses and unmarshals. *)
Record WireFrame := mkWireFrame {
  wf_compression : Z;
  wf_body : list Z;
  wf_packet : Packet.t
}.

Definition well_formed (f : WireFrame) : Prop :=
  0 <= wf_compression f < 256 /\
  Z.of_nat (length (wf_body f)) <= MaxPacketSize /\
  ~ (0x4E00 <= Z.of_nat (length (wf_body f)) <= 0x4EFF) /\
  exists raw,
    (if wf_compression f =? CompressionType_SNAPPY
     then snappy_Decode (wf_body f) else Some (wf_body f)) = Some raw /\
    proto_Unmarshal_Packet raw = Some (wf_packet f).

Definition wire_of (frames : list WireFrame) : list Z :=
  flat_map (fun f => frame_of (wf_compression f) (wf_body f)) frames.

(** How often a trace shows the disallowed event being broadcast. *)
Definition disallowed_of (evs : list Event) : nat :=
  length (flat_map (fun e => match e with EvFsmDisallowed _ => [tt] | _ => [] end) evs).

(** The state machine after it has seen the messages [mps] (line 591). *)
Definition fsm_after (f : FiniteStateMachine) (mps : list MessagePack.t) : FiniteStateMachine :=
  fold_left (fun f mp => fsm_OnReceived f (MessagePack.MsgType mp)) mps f.

(** [sub] is what is left of [l] after taking some elements out. *)
Inductive subsequence {A : Type} : list A -> list A -> Prop :=
| subsequence_nil : subsequence [] []
| subsequence_skip x sub l : subsequence sub l -> subsequence sub (x :: l)
| subsequence_keep x sub l : subsequence sub l -> subsequence (x :: sub) (x :: l).

(** The timestamps that [recordPacket] gives to the packets recorded at
    positions [first], [first + 1], ... of a session (line 746). *)
Definition recorded_times (g : Globals) (first count : nat) : list Z :=
  map (fun k => int64_of (recordClock g k)) (seq first count).

(** How the receive path extends the replay session between [c] and [c1]
    while it produces the trace [evs]: not at all when recording is off;
    otherwise by the dispatched packets, in order, each with the clock
    reading of its position. *)
Definition session_grows (g : Globals) (c c1 : Connection) (evs : list Event) : Prop :=
  connectionType c1 = connectionType c /\
  (isPacketRecordingEnabled g c = false -> replaySession c1 = replaySession c) /\
  (forall s, isPacketRecordingEnabled g c = true -> replaySession c = Some s ->
     exists s1, replaySession c1 = Some (s ++ s1) /\
                map ReplayPacket.Packet s1 = packets_of evs /\
                map ReplayPacket.OffsetTime s1 = recorded_times g (length s) (length s1)).

(** The entry points that change the process state, as calls. *)
Inductive WorldOp :=
| CallAddConnection (remoteAddr : string) (t : ConnectionType) (clock : nat -> Z)
| CallClose (p : nat)
| CallOnAuthenticated (p : nat) (pit' : string)
| CallDisconnect (p : nat)
| CallReceive (p : nat) (r : ReadResult).

(** One call; [None] when it panics without recovering, or when the loop
    bound of [receiveLoop] was too small. *)
Definition runWorldOp (op : WorldOp) (w : World) : option World :=
  match op with
  | CallAddConnection remoteAddr t clock =>
      match AddConnection remoteAddr t clock w with
      | Done _ w' => Some w'
      | Panicked _ => None
      end
  | CallClose p => Some (Close p w)
  | CallOnAuthenticated p pit' => Some (OnAuthenticated p pit' w)
  | CallDisconnect p => Some (Disconnect p w)
  | CallReceive p r =>
      match receive p r w with
      | Some (Done _ w') => Some w'
      | _ => None
      end
  end.

Fixpoint runWorldOps (ops : list WorldOp) (w : World) : option World :=
  match ops with
  | [] => Some w
  | op :: rest =>
      match runWorldOp op w with
      | Some w' => runWorldOps rest w'
      | None => None
      end
  end.

(** Every connection waiting for authentication is a registered one. *)
Definition pending_ok (w : World) : Prop :=
  forall k p, unauthenticatedConnections w !! k = Some p ->
              allConnections w !! k = Some p.

(** The timestamps of a session do not go back, starting from [prev], and
    fit an int64. *)
Fixpoint recorded_in_order (prev : Z) (packets : list ReplayPacket.t) : Prop :=
  match packets with
  | [] => True
  | packet :: rest =>
      prev <= ReplayPacket.OffsetTime packet < 2 ^ 63 /\
      recorded_in_order (ReplayPacket.OffsetTime packet) rest
  end.

End ModelMore.

(** ** A small instance of the collaborators

    Used to run the functions above on concrete inputs. The packet codec is
    the protobuf wire format of [Packet] and [MessagePack] restricted to
    one-byte varints; the snappy codec is the single-literal block that
    snappy produces for short inputs; the hash is the sum of the bytes. *)
Module Mini.

Inductive message :=
| Raw (body : list Z)
| Zeros (n : Z)
| Forward (clientConnId : Z) (payload : list Z).

Definition size (m : message) : Z :=
  match m with
  | Raw body => Z.of_nat (length body)
  | Zeros n => n
  | Forward _ payload => 2 + Z.of_nat (length payload)
  end.

Definition marshal (m : message) : option (list Z) :=
  match m with
  | Raw body => Some body
  | Zeros n => Some (repeat 0 (Z.to_nat n))
  | Forward c payload => Some (8 :: c :: payload)
  end.

Definition varint_field (tag v : Z) : option (list Z) :=
  if v =? 0 then Some [] else if (0 <? v) && (v <? 128) then Some [tag; v] else None.

Definition encode_pack (mp : MessagePack.t) : option (list Z) :=
  match varint_field 8 (MessagePack.ChannelId mp), varint_field 16 (MessagePack.Broadcast mp),
        varint_field 24 (MessagePack.StubId mp), varint_field 32 (MessagePack.MsgType mp) with
  | Some f1, Some f2, Some f3, Some f4 =>
      let body := MessagePack.MsgBody mp in
      if Z.of_nat (length body) <? 128
      then Some (f1 ++ f2 ++ f3 ++ f4 ++
                 match body with [] => [] | _ => 42 :: Z.of_nat (length body) :: body end)
      else None
  | _, _, _, _ => None
  end.

Fixpoint encode_packs (mps : list MessagePack.t) : option (list Z) :=
  match mps with
  | [] => Some []
  | mp :: rest =>
      match encode_pack mp, encode_packs rest with
      | Some b, Some bs =>
          if Z.of_nat (length b) <? 128 then Some (10 :: Z.of_nat (length b) :: b ++ bs) else None
      | _, _ => None
      end
  end.

Definition marshal_packet (p : Packet.t) : option (list Z) := encode_packs (Packet.Messages p).

Definition size_packet (p : Packet.t) : Z :=
  match marshal_packet p with Some b => Z.of_nat (length b) | None => 0 end.

Fixpoint decode_fields (fuel : nat) (bs : list Z) (mp : MessagePack.t) : option MessagePack.t :=
  match fuel with
  | O => None
  | S fuel' =>
    match bs with
    | [] => Some mp
    | tag :: v :: rest =>
        let '(MessagePack.mk ch br st ty body) := mp in
        if negb ((0 <=? v) && (v <? 128)) then None
        else if tag =? 8 then decode_fields fuel' rest (MessagePack.mk v br st ty body)
        else if tag =? 16 then decode_fields fuel' rest (MessagePack.mk ch v st ty body)
        else if tag =? 24 then decode_fields fuel' rest (MessagePack.mk ch br v ty body)
        else if tag =? 32 then decode_fields fuel' rest (MessagePack.mk ch br st v body)
        else if (tag =? 42) && (v <=? Z.of_nat (length rest))
        then decode_fields fuel' (skipn (Z.to_nat v) rest)
               (MessagePack.mk ch br st ty (firstn (Z.to_nat v) rest))
        else None
    | _ => None
    end
  end.

Fixpoint decode_packs (fuel : nat) (bs : list Z) : option (list MessagePack.t) :=
  match fuel with
  | O => None
  | S fuel' =>
    match bs with
    | [] => Some []
    | tag :: n :: rest =>
        if (tag =? 10) && (0 <=? n) && (n <? 128) && (n <=? Z.of_nat (length rest)) then
          match decode_fields (S (length rest)) (firstn (Z.to_nat n) rest) (MessagePack.mk 0 0 0 0 []),
                decode_packs fuel' (skipn (Z.to_nat n) rest) with
          | Some mp, Some mps => Some (mp :: mps)
          | _, _ => None
          end
        else None
    | _ => None
    end
  end.

Definition unmarshal_packet (bs : list Z) : option Packet.t :=
  match decode_packs (S (length bs)) bs with
  | Some mps => Some (Packet.mk mps)
  | None => None
  end.

Definition marshal_session (packets : list ReplayPacket.t) : option (list Z) :=
  Some (flat_map (fun rp =>
          ReplayPacket.OffsetTime rp ::
          match marshal_packet (ReplayPacket.Packet rp) with Some b => b | None => [] end)
        packets).

Definition snappy_encode (bs : list Z) : list Z :=
  match bs with
  | [] => [0]
  | _ => Z.of_nat (length bs) :: (Z.of_nat (length bs) - 1) * 4 :: bs
  end.

Definition snappy_decode (bs : list Z) : option (list Z) :=
  match bs with
  | [n] => if n =? 0 then Some [] else None
  | n :: tag :: lit =>
      if (0 <? n) && (n <=? 60) && (tag =? (n - 1) * 4) && (Z.of_nat (length lit) =? n)
      then Some lit else None
  | [] => None
  end.

Fixpoint bytes_of_string (s : string) : list Z :=
  match s with
  | EmptyString => []
  | String a rest => Z.of_nat (Ascii.nat_of_ascii a) :: bytes_of_string rest
  end.

Definition checksum (s : string) : Z :=
  fold_left Z.add (bytes_of_string s) 0.

(** The state machine: the allowed message types of each state, in their
    declared order, and the index of the current state. *)
Record machine := mkMachine { allowed : list (list Z); current : nat }.

Definition is_allowed (m : machine) (msgType : Z) : bool :=
  existsb (Z.eqb msgType) (nth (current m) (allowed m) []).

Definition move_next (m : machine) : machine * bool :=
  if Nat.ltb (S (current m)) (length (allowed m))
  then (mkMachine (allowed m) (S (current m)), true)
  else (m, false).

#[export] Instance externals : Externals := {|
  Message := message;
  MessageHandlerFunc := nat;
  FiniteStateMachine := machine;
  proto_Size := size;
  proto_Marshal := marshal;
  proto_Size_Packet := size_packet;
  proto_Marshal_Packet := marshal_packet;
  proto_Unmarshal_Packet := unmarshal_packet;
  proto_Unmarshal := fun body _ => Some (Raw body);
  proto_Marshal_ReplaySession := marshal_session;
  snappy_Encode := snappy_encode;
  snappy_Decode := snappy_decode;
  ServerForwardMessage := Forward;
  MessageType_USER_SPACE_START := 100;
  MessageMap := fun t => if t =? 1 then Some (Raw [], 1%nat) else None;
  handleClientToServerUserMessage := 2%nat;
  HandleServerToClientUserMessage := 3%nat;
  fsm_IsAllowed := is_allowed;
  fsm_OnReceived := fun m _ => m;
  fsm_MoveToNextState := move_next;
  HashString := checksum
|}.

Definition settings : Settings :=
  mkSettings true 8 64 64 0 false ""%string.

Definition globals0 : Globals :=
  mkGlobals settings (fun ch => ch =? 0) (fun k => 1000 + 10 * Z.of_nat k).

(** A fresh client connection with a 64-byte read buffer whose state
    machine allows message types 1 and 100 in its only state. *)
Definition conn0 : Connection :=
  mkConnection 7 ConnectionType_CLIENT CompressionType_NO_COMPRESSION
    "10.0.0.1:5000"%string true (repeat 0 64%nat) 0 [] false ""%string
    (mkMachine [[1; 100]] 0) 0 ConnectionState_UNAUTHENTICATED [] None.

Definition world0 : World :=
  mkWorld globals0 (Some (mkMachine [[1; 100]] 0)) (Some (mkMachine [[1; 100]] 0))
    (fun _ => conn0) 1 {[ 7 := 0%nat ]} ∅ 7 [].

(** A recorded session of two empty packets, taken at 1000 ns and 1500 ns. *)
Definition session0 : list ReplayPacket.t :=
  [ReplayPacket.mk 1000 (Packet.mk []); ReplayPacket.mk 1500 (Packet.mk [])].

Definition recording_globals : Globals :=
  mkGlobals (mkSettings true 8 64 64 0 true ""%string)
    (fun ch => ch =? 0) (fun k => 1000 + 10 * Z.of_nat k).

Definition conn_recorded : Connection := set_replaySession (Some session0) conn0.

(** Two framed packets: [frame1] carries one AUTH-typed message, [frame2]
    one user-space message. *)
Definition frame (payload : list Z) : list Z :=
  Header.encode (Z.of_nat (length payload)) CompressionType_NO_COMPRESSION ++ payload.

Definition packet1 : Packet.t := Packet.mk [MessagePack.mk 0 0 0 1 [9]].
Definition packet2 : Packet.t := Packet.mk [MessagePack.mk 0 0 0 100 [1; 2; 3; 4; 5; 6; 7; 8]].

Definition frame1 : list Z := frame [10; 5; 32; 1; 42; 1; 9].
Definition frame2 : list Z := frame [10; 12; 32; 100; 42; 8; 1; 2; 3; 4; 5; 6; 7; 8].

(** Three outbound contexts; the middle one serialises to 0xfffff0 bytes. *)
Definition ctx_a : MessageContext.t := MessageContext.mk (Raw [1; 2; 3]) 0 0 0 1.
Definition ctx_big : MessageContext.t := MessageContext.mk (Zeros 0xfffff0) 0 0 0 100.
Definition ctx_b : MessageContext.t := MessageContext.mk (Raw [4]) 0 0 0 1.

Definition conn_sending : Connection := set_sendQueue [ctx_a; ctx_big; ctx_b] conn0.

(** A message of a type that the state machine of [conn0] does not allow,
    addressed to the existing channel 0 and to a channel that does not
    exist. *)
Definition pack_disallowed : MessagePack.t := MessagePack.mk 0 0 0 150 [1].
Definition pack_no_channel : MessagePack.t := MessagePack.mk 5 0 0 150 [1].

(** [conn0] after a read that delivered one snappy-compressed frame. *)
Definition frame_snappy : list Z :=
  Header.encode 9 CompressionType_SNAPPY ++ snappy_encode [10; 5; 32; 1; 42; 1; 9].

Definition conn_snappy_read : Connection :=
  set_readPos 14 (set_readBuffer (read_into (readBuffer conn0) 0 frame_snappy) conn0).

Definition conn_snappy : Connection :=
  match readPacket globals0 conn_snappy_read 0 with
  | Ok (c, _, _, _) => c
  | Panic => conn_snappy_read
  end.

(** A process whose only connection is [c], registered in both maps. *)
Definition world_of (g : Globals) (c : Connection) : World :=
  mkWorld g (Some (mkMachine [[1; 100]] 0)) (Some (mkMachine [[1; 100]] 0))
    (fun _ => c) 1 {[ id c := 0%nat ]} {[ id c := 0%nat ]} (id c) [].

(** [conn0] with three close handlers, all returning, and with the second
    one panicking. *)
Definition conn_handlers : Connection :=
  AddCloseHandler (HandlerReturns 3)
    (AddCloseHandler (HandlerReturns 2) (AddCloseHandler (HandlerReturns 1) conn0)).

Definition conn_bad_handler : Connection :=
  AddCloseHandler (HandlerReturns 3)
    (AddCloseHandler (HandlerPanics 2) (AddCloseHandler (HandlerReturns 1) conn0)).

(** A client connection created while recording is on, with nothing
    recorded yet, and two close handlers. *)
Definition conn_empty_session : Connection :=
  AddCloseHandler (HandlerReturns 2)
    (AddCloseHandler (HandlerReturns 1) (set_replaySession (Some []) conn0)).

(** The same connection when its second handler panics. *)
Definition conn_empty_session_bad : Connection :=
  AddCloseHandler (HandlerPanics 2)
    (AddCloseHandler (HandlerReturns 1) (set_replaySession (Some []) conn0)).

(** Production settings: ids are hashed, eight bits wide. *)
Definition production_globals : Globals :=
  mkGlobals (mkSettings false 8 64 64 0 false ""%string)
    (fun ch => ch =? 0) (fun k => 1000 + 10 * Z.of_nat k).

(** A packet whose snappy-compressed frame is exactly 64 bytes long: one
    message with a body of 51 bytes serialises to 57 bytes, the compressed
    payload has 59, the header 5. *)
Definition packet_full : Packet.t := Packet.mk [MessagePack.mk 0 0 0 1 (repeat 9 51%nat)].

Definition payload_full : list Z := 10 :: 55 :: 32 :: 1 :: 42 :: 51 :: repeat 9 51%nat.

Definition frame_snappy_full : list Z :=
  Header.encode 59 CompressionType_SNAPPY ++ snappy_encode payload_full.

(** The two frames back to back, 31 bytes. *)
Definition stream : list Z := frame1 ++ frame2.

(** The payloads of [frame1] and [frame2]. *)
Definition body1 : list Z := [10; 5; 32; 1; 42; 1; 9].
Definition body2 : list Z := [10; 12; 32; 100; 42; 8; 1; 2; 3; 4; 5; 6; 7; 8].

(** [conn0] with one context waiting to be flushed. *)
Definition conn_one_message : Connection := set_sendQueue [ctx_a] conn0.

(** A second client connection, and a process that holds [conn0] and it,
    both registered, the second one still waiting for authentication. *)
Definition conn1 : Connection :=
  mkConnection 8 ConnectionType_CLIENT CompressionType_NO_COMPRESSION
    "10.0.0.2:5000"%string true (repeat 0 64%nat) 0 [] false ""%string
    (mkMachine [[1; 100]] 0) 0 ConnectionState_UNAUTHENTICATED [] None.

Definition world_two : World :=
  mkWorld globals0 (Some (mkMachine [[1; 100]] 0)) (Some (mkMachine [[1; 100]] 0))
    (fun q => if Nat.eqb q 1 then conn1 else conn0) 2
    {[ 7 := 0%nat; 8 := 1%nat ]} {[ 8 := 1%nat ]} 8 [].

(** A process whose ids are one bit wide, with both ids taken. *)
Definition world_full : World :=
  mkWorld (mkGlobals (mkSettings false 1 64 64 0 false ""%string)
             (fun ch => ch =? 0) (fun k => Z.of_nat k))
    (Some (mkMachine [[1; 100]] 0)) (Some (mkMachine [[1; 100]] 0))
    (fun _ => conn0) 2 {[ 0 := 0%nat; 1 := 1%nat ]} ∅ 0 [].

(** A process whose state machine templates have not been loaded. *)
Definition world_without_fsm : World :=
  mkWorld globals0 None None (fun _ => conn0) 1 {[ 7 := 0%nat ]} ∅ 7 [].

End Mini.

(** * Properties *)

(** ** Framing codec *)

Section HeaderFacts.

Lemma land_255 n : Z.land n 255 = n mod 256.
Proof. change 255 with (Z.ones 8). rewrite Z.land_ones by lia. reflexivity. Qed.

Lemma lor_low_shifted a b :
  0 <= a < 256 -> 0 <= b -> Z.lor a (Z.shiftl b 8) = a + b * 256.
Proof.
  intros Ha Hb.
  assert (Hland : Z.land a (Z.shiftl b 8) = 0).
  { apply Z.bits_inj'. intros i Hi. rewrite Z.land_spec, Z.bits_0.
    destruct (Z.ltb_spec i 8).
    - rewrite Z.shiftl_spec_low by lia. apply andb_false_r.
    - replace a with (a mod 2 ^ 8) by (apply Z.mod_small; lia).
      rewrite Z.mod_pow2_bits_high by lia. reflexivity. }
  rewrite <- Z.lxor_lor by exact Hland.
  rewrite <- Z.add_nocarry_lxor by exact Hland.
  rewrite Z.shiftl_mul_pow2 by lia. reflexivity.
Qed.

Lemma byte_of_small b : 0 <= b < 256 -> byte_of b = b.
Proof. intros. unfold byte_of. apply Z.mod_small. lia. Qed.

(** What the decoder reads back from an encoded header, for every length
    up to [MaxPacketSize]: the length itself, except where the middle
    length byte equals the filler 'N' (78), where only the low byte
    survives. *)
Lemma header_decode_encode n ct :
  0 <= n <= MaxPacketSize -> 0 <= ct < 256 ->
  Header.decode (Header.encode n ct) =
    (if (0x4E00 <=? n) && (n <=? 0x4EFF) then n mod 256 else n, ct).
Proof.
  unfold MaxPacketSize. intros Hn Hct.
  unfold Header.decode, Header.compression, Header.packetSize, Header.encode.
  replace (0xffff <? n) with false by (symmetry; apply Z.ltb_ge; lia).
  cbn [nth]. rewrite (byte_of_small ct) by lia.
  rewrite land_255, Z.shiftr_div_pow2 by lia. rewrite land_255.
  change (2 ^ 8) with 256.
  rewrite !byte_of_small by (apply Z.mod_pos_bound; lia).
  change (72 =? 72) with true. cbn [negb].
  pose proof (Z.div_mod n 256 ltac:(lia)) as Hdm.
  pose proof (Z.mod_pos_bound n 256 ltac:(lia)) as Hm.
  destruct (Z.ltb_spec 0xff n) as [Hbig | Hsmall].
  - assert (Hq : 0 <= n / 256 < 256)
      by (split; [apply Z.div_pos | apply Z.div_lt_upper_bound]; lia).
    rewrite (Z.mod_small (n / 256)) by lia.
    destruct (Z.eqb_spec (n / 256) 78) as [Heq | Hne]; cbn [negb].
    + replace ((0x4E00 <=? n) && (n <=? 0x4EFF)) with true; [reflexivity |].
      symmetry. apply andb_true_iff. split; [apply Z.leb_le | apply Z.leb_le]; lia.
    + rewrite lor_low_shifted by lia.
      replace ((0x4E00 <=? n) && (n <=? 0x4EFF)) with false; [f_equal; lia |].
      symmetry. apply andb_false_iff.
      destruct (Z.leb_spec 0x4E00 n); [right | left; reflexivity].
      apply Z.leb_gt. lia.
  - change (78 =? 78) with true. cbn [negb].
    replace ((0x4E00 <=? n) && (n <=? 0x4EFF)) with false.
    + f_equal. apply Z.mod_small. lia.
    + symmetry. apply andb_false_iff. left. apply Z.leb_gt. lia.
Qed.

(** The round trip holds away from that band. *)
Lemma header_round_trip n ct :
  0 <= n <= MaxPacketSize -> 0 <= ct < 256 -> ~ (0x4E00 <= n <= 0x4EFF) ->
  Header.decode (Header.encode n ct) = (n, ct).
Proof.
  intros Hn Hct Hband. rewrite header_decode_encode by assumption.
  destruct (Z.leb_spec 0x4E00 n); destruct (Z.leb_spec n 0x4EFF); cbn [andb];
    try reflexivity.
  exfalso. apply Hband. lia.
Qed.

(** C2. Header round trip, [decodeHeader (encodeHeader (n, ct)) = (n, ct)] for
    every [n] in [0, 0xFFFF]: the code does not have it. A payload of
    0x4E00 = 19968 bytes is encoded as 'C' 'H' 0x4E 0x00 ct; the decoder takes
    the middle byte 0x4E for the filler 'N' and reads the length 0. *)
Theorem C2_header_round_trip_breaks_at_0x4E00 :
  Header.encode 0x4E00 CompressionType_SNAPPY = [67; 72; 78; 0; 1] /\
  Header.decode (Header.encode 0x4E00 CompressionType_SNAPPY) = (0, CompressionType_SNAPPY) /\
  Header.decode (Header.encode 0x4E00 CompressionType_SNAPPY)
    <> (0x4E00, CompressionType_SNAPPY).
Proof. repeat split. discriminate. Qed.

End HeaderFacts.

(** ** Replay recorder *)

Section ReplayFacts.
Context `{E : Externals}.

Lemma rewriteOffsets_length prev packets :
  length (rewriteOffsets prev packets) = length packets.
Proof.
  revert prev. induction packets as [| pk rest IH]; intros prev; cbn; [reflexivity |].
  now rewrite IH.
Qed.

Lemma rewriteOffsets_lookup packets : forall prev i pk,
  packets !! i = Some pk ->
  rewriteOffsets prev packets !! i =
    Some (ReplayPacket.mk
            (int64_of (ReplayPacket.OffsetTime pk - previous_time prev packets i))
            (ReplayPacket.Packet pk)).
Proof.
  induction packets as [| q rest IH]; intros prev i pk Hi; [discriminate |].
  destruct i as [| j]; cbn in *.
  - now inversion Hi.
  - rewrite (IH _ _ _ Hi). destruct j; cbn; [reflexivity |].
    reflexivity.
Qed.

Lemma int64_of_0 : int64_of 0 = 0.
Proof. reflexivity. Qed.

(** C9, as the code has it. Persisting a non-empty session rewrites the
    timestamps in place: the first packet's OffsetTime becomes 0 (its own
    timestamp is subtracted from it), every later packet's OffsetTime
    becomes its original timestamp minus the previous packet's original
    timestamp, in int64 arithmetic; the packets themselves are kept, and what
    is written is the serialised rewritten session. *)
Theorem C9_offsets_become_deltas_first_is_zero
    (g : Globals) (c c' : Connection) (first : ReplayPacket.t)
    (rest : list ReplayPacket.t) (evs : list Event) :
  replaySession c = Some (first :: rest) ->
  persistReplaySession g c = Ok (c', evs) ->
  exists packets',
    replaySession c' = Some packets' /\
    length packets' = length (first :: rest) /\
    (exists first', packets' !! 0%nat = Some first' /\
                    ReplayPacket.OffsetTime first' = 0 /\
                    ReplayPacket.Packet first' = ReplayPacket.Packet first) /\
    (forall i prev pk,
        (first :: rest) !! i = Some prev ->
        (first :: rest) !! S i = Some pk ->
        exists pk', packets' !! S i = Some pk' /\
                    ReplayPacket.OffsetTime pk' =
                      int64_of (ReplayPacket.OffsetTime pk - ReplayPacket.OffsetTime prev) /\
                    ReplayPacket.Packet pk' = ReplayPacket.Packet pk) /\
    (evs = [] \/
     exists dir data, proto_Marshal_ReplaySession packets' = Some data /\
                      evs = [EvWriteFile dir (id c) data]).
Proof.
  intros Hsession Hpersist. unfold persistReplaySession in Hpersist.
  rewrite Hsession in Hpersist.
  set (packets' := rewriteOffsets (ReplayPacket.OffsetTime first) (first :: rest)) in *.
  exists packets'.
  assert (Hc' : replaySession c' = Some packets' /\
                (evs = [] \/
                 exists dir data, proto_Marshal_ReplaySession packets' = Some data /\
                                  evs = [EvWriteFile dir (id c) data])).
  { destruct (proto_Marshal_ReplaySession packets') as [data |] eqn:Hdata;
      inversion Hpersist; subst; cbn; split; try reflexivity; [right | left; reflexivity].
    eexists _, data. split; reflexivity. }
  destruct Hc' as [Hc' Hevs].
  split; [exact Hc' |]. split; [apply rewriteOffsets_length |].
  split; [| split; [| exact Hevs]].
  - eexists. split; [reflexivity |]. cbn. split; [| reflexivity].
    rewrite Z.sub_diag. apply int64_of_0.
  - intros i prev pk Hprev Hpk. eexists. split.
    + unfold packets'. apply rewriteOffsets_lookup. exact Hpk.
    + cbn [ReplayPacket.OffsetTime ReplayPacket.Packet previous_time].
      rewrite Hprev. split; reflexivity.
Qed.

End ReplayFacts.

(** C9 as the spec words it, at the session [Mini.session0]: after the
    rewrite the first packet's OffsetTime is 0, not its original timestamp
    1000. *)
Lemma C9_first_offset_is_not_kept :
  exists c' evs packets',
    persistReplaySession Mini.recording_globals Mini.conn_recorded = Ok (c', evs) /\
    replaySession c' = Some packets' /\
    map ReplayPacket.OffsetTime Mini.session0 = [1000; 1500] /\
    map ReplayPacket.OffsetTime packets' = [0; 500] /\
    (forall d, ReplayPacket.OffsetTime (nth 0 packets' d)
               <> ReplayPacket.OffsetTime (nth 0 Mini.session0 d)).
Proof.
  eexists _, _, _. split; [reflexivity |]. split; [reflexivity |].
  split; [reflexivity |]. split; [reflexivity |]. intros d. cbn. discriminate.
Qed.

Lemma C9_offsets_witness :
  exists packets',
    replaySession (set_replaySession
                     (Some (rewriteOffsets 1000 Mini.session0)) Mini.conn_recorded)
      = Some packets' /\
    length packets' = 2%nat.
Proof.
  destruct (C9_offsets_become_deltas_first_is_zero
              Mini.recording_globals Mini.conn_recorded
              (set_replaySession (Some (rewriteOffsets 1000 Mini.session0)) Mini.conn_recorded)
              (ReplayPacket.mk 1000 (Packet.mk [])) [ReplayPacket.mk 1500 (Packet.mk [])]
              [EvWriteFile "replays" 7 [0; 500]] eq_refl eq_refl)
    as (packets' & H1 & H2 & _).
  exists packets'. split; assumption.
Defined.

(** ** Receive path *)

Section ReceiveFacts.
Context `{E : Externals}.

(** [receiveMessage] writes no field but [fsm]; the listener of the
    disallowed event writes the counter. *)
Lemma receiveMessage_gate_fields g c mp :
  exists f n, fst (receiveMessage g c mp) = set_fsmDisallowedCounter n (set_fsm f c).
Proof.
  assert (Hsame : c = set_fsmDisallowedCounter (fsmDisallowedCounter c) (set_fsm (fsm c) c))
    by (destruct c; reflexivity).
  assert (Hcount : FsmDisallowed_listener c
                   = set_fsmDisallowedCounter (fsmDisallowedCounter c + 1) (set_fsm (fsm c) c))
    by (destruct c; reflexivity).
  unfold receiveMessage.
  repeat match goal with
         | |- context [if ?b then _ else _] => destruct b
         | |- context [match ?x with _ => _ end] => destruct x
         end; cbn [fst]; eauto.
Qed.

Lemma receiveMessages_gate_fields g mps : forall c,
  exists f n, fst (receiveMessages g c mps) = set_fsmDisallowedCounter n (set_fsm f c).
Proof.
  induction mps as [| mp rest IH]; intros c; cbn [receiveMessages].
  - exists (fsm c), (fsmDisallowedCounter c). destruct c; reflexivity.
  - destruct (receiveMessage_gate_fields g c mp) as (f & n & Hf).
    destruct (receiveMessage g c mp) as [c1 evs1]. cbn [fst] in Hf. subst c1.
    destruct (IH (set_fsmDisallowedCounter n (set_fsm f c))) as (f' & n' & Hf').
    destruct (receiveMessages g (set_fsmDisallowedCounter n (set_fsm f c)) rest) as [c2 evs2].
    cbn [fst] in *. subst c2. exists f', n'. reflexivity.
Qed.

Ltac break_match H :=
  repeat match type of H with
         | context [match ?x with _ => _ end] =>
             let Heq := fresh "Heq" in destruct x eqn:Heq; try discriminate H
         end.

Lemma recordPacket_Ok g c p c' :
  recordPacket g c p = Ok c' -> exists s, c' = set_replaySession s c.
Proof.
  unfold recordPacket. destruct (replaySession c); [| discriminate].
  intros H. inversion H. eauto.
Qed.

(** A recognised compression byte other than 0 is SNAPPY. *)
Lemma sticky_is_snappy ct :
  (match CompressionType_name ct with Some _ => true | None => false end) && negb (ct =? 0) = true ->
  ct = CompressionType_SNAPPY.
Proof.
  unfold CompressionType_name, CompressionType_SNAPPY.
  destruct (Z.eqb_spec ct 0); [cbn [negb andb]; discriminate |].
  destruct (Z.eqb_spec ct 1); [auto | cbn [negb andb]; discriminate].
Qed.

(** What a call of [readPacket] that hands back a packet has done. *)
Lemma readPacket_Some g c bufPos c1 bufPos1 p evs :
  readPacket g c bufPos = Ok (c1, bufPos1, Some p, evs) ->
  exists tag,
    slice (readBuffer c) bufPos (bufPos + PacketHeaderSize) = Some tag /\
    bufPos1 = bufPos + (PacketHeaderSize + Header.packetSize tag) /\
    readPos c1 = readPos c /\
    readBuffer c1 = readBuffer c.
Proof.
  unfold readPacket. intros H. break_match H.
  inversion H; subst; clear H.
  match goal with
  | Hm : receiveMessages _ ?c2 _ = (_, _) |- _ =>
      destruct (receiveMessages_gate_fields g (Packet.Messages p) c2) as (f & n & Hf);
      rewrite Hm in Hf; cbn [fst] in Hf; subst
  end.
  eexists. split; [reflexivity |]. split; [reflexivity |].
  match goal with
  | Hr : (if _ then recordPacket _ _ _ else Ok _) = Ok _ |- _ =>
      destruct (isPacketRecordingEnabled _ _);
      [apply recordPacket_Ok in Hr; destruct Hr as [s ->] | inversion Hr; subst]
  end;
  match goal with
  | |- context [if ?b then _ else _] => destruct b
  end; split; reflexivity.
Qed.

Lemma nth_nonneg (l : list Z) i : Forall is_byte l -> 0 <= nth i l 0.
Proof.
  intros Hl. revert i. induction Hl as [| x l Hx _ IH]; intros [| i]; cbn; try lia; auto.
  unfold is_byte in Hx. lia.
Qed.

Lemma packetSize_nonneg tag : Forall is_byte tag -> 0 <= Header.packetSize tag.
Proof.
  intros Htag. unfold Header.packetSize.
  pose proof (nth_nonneg tag 1 Htag). pose proof (nth_nonneg tag 2 Htag).
  pose proof (nth_nonneg tag 3 Htag).
  repeat match goal with |- context [if ?b then _ else _] => destruct b end;
    repeat (apply Z.lor_nonneg; split); try apply Z.shiftl_nonneg; assumption.
Qed.

Lemma slice_Forall (P : Z -> Prop) s a b t :
  slice s a b = Some t -> Forall P s -> Forall P t.
Proof.
  unfold slice. destruct (_ && _); [| discriminate].
  intros H Hs. inversion H. apply Forall_take, Forall_drop, Hs.
Qed.

Lemma receiveLoop_enough_fuel g fuel : forall c bufPos,
  Forall is_byte (readBuffer c) ->
  (Z.to_nat (readPos c - bufPos) < fuel)%nat ->
  receiveLoop fuel g c bufPos <> None.
Proof.
  induction fuel as [| fuel IH]; intros c bufPos Hbuf Hfuel; [lia |].
  cbn [receiveLoop]. destruct (Z.ltb_spec bufPos (readPos c)) as [Hlt | Hge]; [| discriminate].
  destruct (readPacket g c bufPos) as [[[[c1 bufPos1] [p |]] evs] |] eqn:Hread;
    try discriminate.
  destruct (readPacket_Some _ _ _ _ _ _ _ Hread) as (tag & Htag & -> & Hpos & Hbuf1).
  assert (Hsize : 0 <= Header.packetSize tag)
    by (apply packetSize_nonneg; eapply slice_Forall; eauto).
  specialize (IH c1 (bufPos + (PacketHeaderSize + Header.packetSize tag))).
  destruct (receiveLoop fuel g c1 _) as [[[c2 evs2] |] |]; try discriminate.
  exfalso. apply IH; [congruence | | reflexivity].
  rewrite Hpos. unfold PacketHeaderSize. lia.
Qed.

Lemma read_into_Forall (P : Z -> Prop) s pos data :
  Forall P s -> Forall P data -> Forall P (read_into s pos data).
Proof.
  intros Hs Hd. unfold read_into.
  repeat apply Forall_app_2; auto using Forall_take, Forall_drop.
Qed.

(** The fuel that [receiveData] gives its loop is always enough. *)
Lemma receiveData_total g c data :
  Forall is_byte (readBuffer c) -> Forall is_byte data ->
  receiveData g c data <> None.
Proof.
  intros Hbuf Hdata. unfold receiveData.
  destruct (slice _ _ _); [| discriminate].
  match goal with |- context [if ?b then _ else _] => destruct b end; [discriminate |].
  apply receiveLoop_enough_fuel.
  - apply read_into_Forall; assumption.
  - unfold receive_fuel. rewrite Z.sub_0_r. lia.
Qed.

Lemma receive_frame_refl c : receive_frame c c.
Proof. unfold receive_frame. auto 10. Qed.

Lemma receive_frame_trans c c1 c2 :
  receive_frame c c1 -> receive_frame c1 c2 -> receive_frame c c2.
Proof.
  unfold receive_frame. intros (? & ? & ? & ? & Hct1) (? & ? & ? & ? & Hct2).
  repeat split; try congruence. destruct Hct1, Hct2; [left | right | right | right]; congruence.
Qed.

Lemma receive_frame_set_fsm c f : receive_frame c (set_fsm f c).
Proof. unfold receive_frame; cbn; auto 10. Qed.

Lemma receive_frame_set_counter c n : receive_frame c (set_fsmDisallowedCounter n c).
Proof. unfold receive_frame. cbn. auto 10. Qed.

Lemma receive_frame_set_replaySession c s : receive_frame c (set_replaySession s c).
Proof. unfold receive_frame. cbn. auto 10. Qed.

Lemma receive_frame_set_readPos c n : receive_frame c (set_readPos n c).
Proof. unfold receive_frame. cbn. auto 10. Qed.

Lemma readPacket_frame g c bufPos c1 bufPos1 r evs :
  readPacket g c bufPos = Ok (c1, bufPos1, r, evs) -> receive_frame c c1.
Proof.
  unfold readPacket. intros H.
  destruct (slice (readBuffer c) bufPos (bufPos + PacketHeaderSize)) as [tag |];
    [| discriminate].
  destruct (negb (nth 0%nat tag 0 =? 67));
    [inversion H; apply receive_frame_set_readPos |].
  destruct (MaxPacketSize <? Header.packetSize tag);
    [inversion H; apply receive_frame_set_readPos |].
  destruct (readPos c <? PacketHeaderSize + Header.packetSize tag);
    [inversion H; apply receive_frame_refl |].
  destruct (Z.of_nat (length (readBuffer c)) <=? _);
    [inversion H; apply receive_frame_set_readPos |].
  destruct (slice (readBuffer c) _ _) as [bytes |]; [| discriminate].
  match type of H with
  | context [if ?s then set_compressionType ?ct c else c] =>
      remember (if s then set_compressionType ct c else c) as c0 eqn:Hc0;
      assert (Hframe : receive_frame c c0);
      [ subst c0; destruct s eqn:Hs;
        [ apply sticky_is_snappy in Hs; rewrite Hs; unfold receive_frame; cbn; auto 10
        | apply receive_frame_refl ]
      | clear Hc0 ]
  end.
  apply (receive_frame_trans _ _ _ Hframe).
  break_match H; inversion H; subst; clear H; try apply receive_frame_refl.
  all: match goal with
       | Hm : receiveMessages _ ?c2 ?mps = (_, _) |- _ =>
           destruct (receiveMessages_gate_fields g mps c2) as (f & n & Hf);
           rewrite Hm in Hf; cbn [fst] in Hf; subst
       end.
  all: match goal with
       | Hr : (if ?b then recordPacket _ _ _ else Ok _) = Ok _ |- _ =>
           destruct b;
           [apply recordPacket_Ok in Hr; destruct Hr as [s ->] | inversion Hr; subst]
       end.
  all: repeat first
         [ apply receive_frame_refl
         | eapply receive_frame_trans;
           [| first [ apply receive_frame_set_counter
                    | apply receive_frame_set_fsm
                    | apply receive_frame_set_replaySession ] ] ].
Qed.

Lemma receiveLoop_frame g fuel : forall c bufPos c1 evs,
  receiveLoop fuel g c bufPos = Some (Ok (c1, evs)) -> receive_frame c c1.
Proof.
  induction fuel as [| fuel IH]; intros c bufPos c1 evs; cbn [receiveLoop];
    destruct (bufPos <? readPos c); try discriminate;
    try (intros H; inversion H; apply receive_frame_set_readPos).
  destruct (readPacket g c bufPos) as [[[[c' bufPos'] [p |]] evs'] |] eqn:Hread;
    try discriminate.
  - destruct (receiveLoop fuel g c' bufPos') as [[[c2 evs2] |] |] eqn:Hloop;
      try discriminate.
    intros H; inversion H; subst.
    eapply receive_frame_trans; [eapply readPacket_frame | eapply IH]; eauto.
  - intros H; inversion H; subst. eapply readPacket_frame; eauto.
Qed.

Lemma writes_of_app evs1 evs2 : writes_of (evs1 ++ evs2) = writes_of evs1 ++ writes_of evs2.
Proof. unfold writes_of. apply flat_map_app. Qed.

Lemma receiveMessage_no_write g c mp : writes_of (snd (receiveMessage g c mp)) = [].
Proof.
  unfold receiveMessage.
  repeat match goal with
         | |- context [if ?b then _ else _] => destruct b
         | |- context [match ?x with _ => _ end] => destruct x
         end; reflexivity.
Qed.

Lemma receiveMessages_no_write g mps : forall c,
  writes_of (snd (receiveMessages g c mps)) = [].
Proof.
  induction mps as [| mp rest IH]; intros c; cbn [receiveMessages]; [reflexivity |].
  pose proof (receiveMessage_no_write g c mp) as H1.
  destruct (receiveMessage g c mp) as [c1 evs1].
  specialize (IH c1). destruct (receiveMessages g c1 rest) as [c2 evs2].
  cbn [snd] in *. rewrite writes_of_app, H1, IH. reflexivity.
Qed.

Lemma readPacket_no_write g c bufPos c1 bufPos1 r evs :
  readPacket g c bufPos = Ok (c1, bufPos1, r, evs) -> writes_of evs = [].
Proof.
  unfold readPacket. intros H. break_match H; inversion H; subst; try reflexivity.
  match goal with
  | Hm : receiveMessages _ ?c2 ?mps = (_, _) |- _ =>
      pose proof (receiveMessages_no_write g mps c2) as Hw; rewrite Hm in Hw
  end.
  exact Hw.
Qed.

Lemma receiveLoop_no_write g fuel : forall c bufPos c1 evs,
  receiveLoop fuel g c bufPos = Some (Ok (c1, evs)) -> writes_of evs = [].
Proof.
  induction fuel as [| fuel IH]; intros c bufPos c1 evs; cbn [receiveLoop];
    destruct (bufPos <? readPos c); try discriminate;
    try (intros H; inversion H; reflexivity).
  destruct (readPacket g c bufPos) as [[[[c' bufPos'] [p |]] evs'] |] eqn:Hread;
    try discriminate.
  - destruct (receiveLoop fuel g c' bufPos') as [[[c2 evs2] |] |] eqn:Hloop;
      try discriminate.
    intros H; inversion H; subst.
    rewrite !writes_of_app, (readPacket_no_write _ _ _ _ _ _ _ Hread), (IH _ _ _ _ Hloop).
    destruct (_ <? _); reflexivity.
  - intros H; inversion H; subst. eapply readPacket_no_write; eauto.
Qed.

Lemma receiveData_no_write g c data c1 evs :
  receiveData g c data = Some (Ok (c1, evs)) -> writes_of evs = [].
Proof.
  unfold receiveData. destruct (slice _ _ _); [| discriminate].
  destruct (_ <? PacketHeaderSize).
  - intros H; inversion H; reflexivity.
  - apply receiveLoop_no_write.
Qed.

Lemma receiveData_compression g c data c1 evs :
  receiveData g c data = Some (Ok (c1, evs)) ->
  compressionType c1 = compressionType c \/ compressionType c1 = CompressionType_SNAPPY.
Proof.
  unfold receiveData. destruct (slice _ _ _); [| discriminate].
  destruct (_ <? PacketHeaderSize).
  - intros H; inversion H. left. reflexivity.
  - intros H. apply receiveLoop_frame in H. destruct H as (_ & _ & _ & _ & H). exact H.
Qed.

Lemma Send_compression c ctx c1 :
  Send c ctx = Sent c1 -> compressionType c1 = compressionType c.
Proof.
  unfold Send, queuedMessageSender_Send.
  repeat match goal with |- context [if ?b then _ else _] => destruct b end;
    intros H; inversion H; reflexivity.
Qed.

Lemma flush_compression c : compressionType (fst (flush c)) = compressionType c.
Proof.
  unfold flush. destruct (sendQueue c); [reflexivity |].
  destruct (flushLoop _ _ _) as [messages rest].
  destruct (proto_Marshal_Packet _); reflexivity.
Qed.

Lemma flush_snappy_writes c bytes :
  compressionType c = CompressionType_SNAPPY ->
  In bytes (writes_of (snd (flush c))) -> compressed_frame CompressionType_SNAPPY bytes.
Proof.
  intros Hct. unfold flush. destruct (sendQueue c); [intros [] |].
  destruct (flushLoop _ _ _) as [messages rest].
  destruct (proto_Marshal_Packet _) as [payload |] eqn:Hm; [| intros []].
  rewrite Hct. change (CompressionType_SNAPPY =? CompressionType_SNAPPY) with true.
  cbn [snd writes_of flat_map app]. intros [<- | []].
  exists messages, payload. split; [exact Hm | reflexivity].
Qed.

Lemma runOps_sticky g ops : forall c c2 evs,
  compressionType c = CompressionType_SNAPPY ->
  runOps g c ops = Some (Ok (c2, evs)) ->
  compressionType c2 = CompressionType_SNAPPY /\
  forall bytes, In bytes (writes_of evs) -> compressed_frame CompressionType_SNAPPY bytes.
Proof.
  induction ops as [| op rest IH]; intros c c2 evs Hct; cbn [runOps].
  - intros H; inversion H; subst. split; [assumption | intros ? []].
  - destruct (runOp g c op) as [[[c1 evs1] |] |] eqn:Hop; try discriminate.
    destruct (runOps g c1 rest) as [[[c3 evs3] |] |] eqn:Hrest; try discriminate.
    intros H; inversion H; subst.
    assert (Hstep : compressionType c1 = CompressionType_SNAPPY /\
                    forall bytes, In bytes (writes_of evs1) -> compressed_frame CompressionType_SNAPPY bytes).
    { destruct op as [data | ctx |]; cbn [runOp] in Hop.
      - split.
        + destruct (receiveData_compression _ _ _ _ _ Hop); congruence.
        + rewrite (receiveData_no_write _ _ _ _ _ Hop). intros ? [].
      - destruct (Send c ctx) as [c' | |] eqn:Hsend; inversion Hop; subst.
        + split; [rewrite (Send_compression _ _ _ Hsend); assumption | intros ? []].
        + split; [assumption | intros ? []].
      - inversion Hop as [Hflush]. split.
        + pose proof (flush_compression c) as Hc. rewrite Hflush in Hc. cbn [fst] in Hc. congruence.
        + intros bytes Hin. apply (flush_snappy_writes c); [assumption |].
          rewrite Hflush. exact Hin. }
    destruct Hstep as [Hct1 Hw1].
    destruct (IH _ _ _ Hct1 Hrest) as [Hct3 Hw3].
    split; [assumption |].
    intros bytes Hin. rewrite writes_of_app in Hin. apply in_app_or in Hin.
    destruct Hin; auto.
Qed.

Lemma receiveData_readBuffer g c data c1 evs :
  receiveData g c data = Some (Ok (c1, evs)) ->
  readBuffer c1 = read_into (readBuffer c) (readPos c) data.
Proof.
  unfold receiveData. destruct (slice _ _ _); [| discriminate].
  destruct (_ <? PacketHeaderSize).
  - intros H; inversion H. reflexivity.
  - intros H. apply receiveLoop_frame in H. destruct H as (_ & H & _). exact H.
Qed.

Lemma Send_readBuffer c ctx c1 : Send c ctx = Sent c1 -> readBuffer c1 = readBuffer c.
Proof.
  unfold Send, queuedMessageSender_Send.
  repeat match goal with |- context [if ?b then _ else _] => destruct b end;
    intros H; inversion H; reflexivity.
Qed.

Lemma flush_readBuffer c : readBuffer (fst (flush c)) = readBuffer c.
Proof.
  unfold flush. destruct (sendQueue c); [reflexivity |].
  destruct (flushLoop _ _ _) as [messages rest].
  destruct (proto_Marshal_Packet _); reflexivity.
Qed.

(** A run never exhausts the fuel of a receive loop: every call in it
    returns or panics. *)
Lemma runOps_total g ops : forall c,
  Forall is_byte (readBuffer c) -> reads_are_bytes ops -> runOps g c ops <> None.
Proof.
  induction ops as [| op rest IH]; intros c Hbuf Hops; cbn [runOps]; [discriminate |].
  inversion Hops as [| ? ? Hop Hrest]; subst.
  destruct (runOp g c op) as [[[c1 evs1] |] |] eqn:Hrun.
  - assert (Hbuf1 : Forall is_byte (readBuffer c1)).
    { destruct op as [data | ctx |]; cbn [runOp] in Hrun.
      - rewrite (receiveData_readBuffer _ _ _ _ _ Hrun).
        apply read_into_Forall; assumption.
      - destruct (Send c ctx) as [c' | |] eqn:Hsend; inversion Hrun; subst;
          [rewrite (Send_readBuffer _ _ _ Hsend) |]; assumption.
      - inversion Hrun as [Hflush]. pose proof (flush_readBuffer c) as Hb.
        rewrite Hflush in Hb. cbn [fst] in Hb. rewrite Hb. assumption. }
    specialize (IH c1 Hbuf1 Hrest).
    destruct (runOps g c1 rest) as [[[c2 evs2] |] |]; try discriminate.
    exfalso. apply IH. reflexivity.
  - discriminate.
  - destruct op as [data | ctx |]; cbn [runOp] in Hrun.
    + exfalso. apply (receiveData_total g c data); assumption.
    + destruct (Send c ctx); discriminate.
    + discriminate.
Qed.

End ReceiveFacts.

(** ** Outbound batching *)

Section FlushFacts.
Context `{E : Externals}.

(** The size cutoff: the context that trips it has already been taken out
    of the queue, and the loop ends without it. *)
Lemma flushLoop_cutoff mc rest messages size :
  0xfffff0 <= size + proto_Size (MessageContext.Msg mc) ->
  flushLoop (mc :: rest) messages size = (messages, rest).
Proof.
  intros Hsize. cbn [flushLoop].
  destruct (Z.leb_spec 0xfffff0 (size + proto_Size (MessageContext.Msg mc))); [reflexivity | lia].
Qed.

(** Whatever is left in the queue is a suffix of what was there. *)
Lemma flushLoop_rest_suffix queue : forall messages size,
  exists taken, queue = taken ++ snd (flushLoop queue messages size).
Proof.
  induction queue as [| mc rest IH]; intros messages size; cbn [flushLoop].
  - exists []. reflexivity.
  - destruct (0xfffff0 <=? size + proto_Size (MessageContext.Msg mc)).
    + exists [mc]. reflexivity.
    + destruct (proto_Marshal (MessageContext.Msg mc)) as [body |].
      * destruct (IH (messages ++ [pack_of mc body])
                     (proto_Size_Packet (Packet.mk (messages ++ [pack_of mc body]))))
          as [taken Htaken].
        exists (mc :: taken). cbn [app]. rewrite <- Htaken. reflexivity.
      * destruct (IH messages size) as [taken Htaken].
        exists (mc :: taken). cbn [app]. rewrite <- Htaken. reflexivity.
Qed.

(** What [flush] writes when the packet marshals. *)
Lemma flush_writes c payload :
  sendQueue c <> [] ->
  proto_Marshal_Packet (Packet.mk (flushed_messages c)) = Some payload ->
  snd (flush c)
  = [EvConnWrite (id c)
       (frame_of (compressionType c)
          (if compressionType c =? CompressionType_SNAPPY
           then snappy_Encode payload else payload))].
Proof.
  unfold flush, flushed_messages. intros Hq.
  destruct (sendQueue c) as [| mc rest]; [congruence |].
  destruct (flushLoop (mc :: rest) [] 0) as [messages rest']. cbn [fst].
  intros ->. reflexivity.
Qed.

End FlushFacts.

(** C4. "No context is lost at the size cutoff": the code loses one. With
    the queue [ctx_a; ctx_big; ctx_b], where [ctx_big] serialises to
    0xfffff0 bytes, one flush sends a packet holding [ctx_a] alone and leaves
    [ctx_b] alone in the queue: [ctx_big], dequeued before the size test, is
    in neither. *)
Theorem C4_flush_loses_the_context_at_the_cutoff :
  sendQueue Mini.conn_sending = [Mini.ctx_a; Mini.ctx_big; Mini.ctx_b] /\
  flushed_messages Mini.conn_sending = [pack_of Mini.ctx_a [1; 2; 3]] /\
  snd (flush Mini.conn_sending)
    = [EvConnWrite 7 ([67; 72; 78; 9; 0] ++ [10; 7; 32; 1; 42; 3; 1; 2; 3])] /\
  sendQueue (fst (flush Mini.conn_sending)) = [Mini.ctx_b] /\
  ~ In Mini.ctx_big (sendQueue (fst (flush Mini.conn_sending))) /\
  (forall mp, In mp (flushed_messages Mini.conn_sending) ->
              MessagePack.MsgType mp <> MessageContext.MsgType Mini.ctx_big).
Proof.
  assert (Hmessages : flushed_messages Mini.conn_sending = [pack_of Mini.ctx_a [1; 2; 3]])
    by reflexivity.
  assert (Hqueue : sendQueue (fst (flush Mini.conn_sending)) = [Mini.ctx_b])
    by reflexivity.
  split; [reflexivity |]. split; [exact Hmessages |].
  split; [reflexivity |]. split; [exact Hqueue |]. split.
  - rewrite Hqueue. intros [H | []]. discriminate H.
  - rewrite Hmessages. intros mp [H | []]. subst mp. discriminate.
Qed.

(** ** Packet assembler *)

(** The stream [Mini.stream] cut in two at every position: a cut inside
    the first frame or at its end is harmless, every cut inside the second
    frame changes what is dispatched. *)
Lemma split_inside_first_frame_is_reassembled :
  Forall (fun k => dispatched (receiveAll Mini.globals0 Mini.conn0
                                 [firstn k Mini.stream; skipn k Mini.stream])
                   = Some [Mini.packet1; Mini.packet2])
         (seq 1 12).
Proof. repeat (constructor; [vm_compute; reflexivity |]). constructor. Qed.

Lemma split_inside_second_frame_is_not :
  Forall (fun k => dispatched (receiveAll Mini.globals0 Mini.conn0
                                 [firstn k Mini.stream; skipn k Mini.stream])
                   <> Some [Mini.packet1; Mini.packet2])
         (seq 13 18).
Proof.
  repeat (constructor; [intros H; vm_compute in H; discriminate H |]). constructor.
Qed.

(** C1. "Every split of a stream of well-formed packets into reads is
    dispatched like the whole stream": the code does not have it. The stream
    [frame1 ++ frame2] delivered whole dispatches packet 1 then packet 2.
    Delivered as [frame1] plus the 5 header bytes of [frame2], then the rest,
    the first read dispatches packet 1 and finds the second unfinished; it
    returns without resetting [readPos], the second read rescans from offset
    0, and packet 1 is dispatched a second time. Cut 2 bytes into [frame2]
    instead, the stale bytes behind the cut are read as an empty packet,
    [readPos] is reset, and packet 2 is lost. *)
Theorem C1_split_after_a_complete_packet_breaks_the_assembler :
  dispatched (receiveAll Mini.globals0 Mini.conn0 [Mini.frame1 ++ Mini.frame2])
    = Some [Mini.packet1; Mini.packet2] /\
  dispatched (receiveAll Mini.globals0 Mini.conn0
                [Mini.frame1 ++ firstn 5 Mini.frame2; skipn 5 Mini.frame2])
    = Some [Mini.packet1; Mini.packet1; Mini.packet2] /\
  dispatched (receiveAll Mini.globals0 Mini.conn0
                [Mini.frame1 ++ firstn 2 Mini.frame2; skipn 2 Mini.frame2])
    = Some [Mini.packet1; Packet.mk []].
Proof. repeat split; vm_compute; reflexivity. Qed.

(** ** Protocol gating and sticky compression *)

Section GateFacts.
Context `{E : Externals}.

(** A message whose type the state machine disallows is never queued,
    wherever the dispatcher stops: no handler is invoked for it and the
    state machine is not advanced. *)
Lemma disallowed_message_is_never_queued g c mp :
  fsm_IsAllowed (fsm c) (MessagePack.MsgType mp) = false ->
  queued_of (snd (receiveMessage g c mp)) = [] /\
  fsm (fst (receiveMessage g c mp)) = fsm c.
Proof.
  intros Hdis. unfold receiveMessage.
  destruct (GetChannel g (MessagePack.ChannelId mp)); cbn [negb]; [| split; reflexivity].
  destruct (_ && (MessagePack.MsgType mp <? MessageType_USER_SPACE_START));
    [split; reflexivity |].
  rewrite Hdis. split; reflexivity.
Qed.

(** C6. A message that the dispatcher takes as far as the state machine
    (its channel exists, and its type is registered or lies in user space)
    and whose type the state machine disallows when it is asked: the
    disallowed event is broadcast, once; its listener, as the spec has it,
    raises the disallowed counter by one; and the message is dropped:
    nothing is put on a channel queue, so that no handler is invoked, and
    the state machine is not advanced. *)
Theorem C6_disallowed_message_is_dropped (g : Globals) (c : Connection) (mp : MessagePack.t) :
  reaches_fsm_gate g mp = true ->
  fsm_IsAllowed (fsm c) (MessagePack.MsgType mp) = false ->
  receiveMessage g c mp = (FsmDisallowed_listener c, [EvFsmDisallowed (id c)]) /\
  fsmDisallowedCounter (fst (receiveMessage g c mp)) = fsmDisallowedCounter c + 1 /\
  fsm (fst (receiveMessage g c mp)) = fsm c /\
  queued_of (snd (receiveMessage g c mp)) = [].
Proof.
  intros Hgate Hdis.
  assert (Hrun : receiveMessage g c mp
                 = (FsmDisallowed_listener c, [EvFsmDisallowed (id c)])).
  { unfold receiveMessage, reaches_fsm_gate in *.
    destruct (GetChannel g (MessagePack.ChannelId mp)); cbn [negb andb] in *;
      [| discriminate].
    destruct (_ && (MessagePack.MsgType mp <? MessageType_USER_SPACE_START));
      cbn [negb] in *; [discriminate |].
    rewrite Hdis. reflexivity. }
  rewrite Hrun. repeat split.
Qed.

Ltac break_match_in H :=
  repeat match type of H with
         | context [match ?x with _ => _ end] =>
             let Heq := fresh "Heq" in destruct x eqn:Heq; try discriminate H
         end.

(** A call of [readPacket] that finds a complete packet sets the sticky
    type from the header's compression byte when it is a recognised value
    other than 0, and leaves it alone otherwise. *)
Lemma readPacket_accepted_compression g c bufPos tag c1 bufPos1 r evs :
  accepted_header c bufPos = Some tag ->
  readPacket g c bufPos = Ok (c1, bufPos1, r, evs) ->
  compressionType c1 =
    if (match CompressionType_name (Header.compression tag) with
        | Some _ => true | None => false end)
       && negb (Header.compression tag =? 0)
    then Header.compression tag
    else compressionType c.
Proof.
  unfold accepted_header, readPacket.
  destruct (slice (readBuffer c) bufPos (bufPos + PacketHeaderSize)) as [tag' |];
    [| discriminate].
  destruct (_ && _) eqn:Hchecks; [| discriminate].
  intros Htag; inversion Htag; subst tag'; clear Htag.
  apply andb_true_iff in Hchecks. destruct Hchecks as [Hchecks Hfit].
  apply andb_true_iff in Hchecks. destruct Hchecks as [Hchecks Hcomplete].
  apply andb_true_iff in Hchecks. destruct Hchecks as [Hmagic Hmax].
  rewrite Hmagic. cbn [negb].
  rewrite (Z.ltb_antisym (Header.packetSize tag) MaxPacketSize), Hmax. cbn [negb].
  rewrite (Z.ltb_antisym _ (readPos c)), Hcomplete. cbn [negb].
  rewrite (Z.leb_antisym _ (Z.of_nat (length (readBuffer c)))), Hfit. cbn [negb].
  destruct (slice (readBuffer c) _ _) as [bytes |]; [| discriminate].
  match goal with
  | |- context [if ?s then set_compressionType ?ct c else c] =>
      remember (if s then set_compressionType ct c else c) as c0 eqn:Hc0;
      assert (Hct0 : compressionType c0 = if s then ct else compressionType c)
        by (subst c0; destruct s; reflexivity);
      clear Hc0
  end.
  rewrite <- Hct0. intros H.
  break_match_in H; inversion H; subst; clear H; try reflexivity.
  match goal with
  | Hm : receiveMessages _ ?c2 ?mps = (_, _) |- _ =>
      destruct (receiveMessages_gate_fields g mps c2) as (f & n & Hf);
      rewrite Hm in Hf; cbn [fst] in Hf; subst
  end.
  match goal with
  | Hr : (if ?b then recordPacket _ _ _ else Ok _) = Ok _ |- _ =>
      destruct b;
      [apply recordPacket_Ok in Hr; destruct Hr as [s ->] | inversion Hr; subst]
  end; reflexivity.
Qed.


End GateFacts.

Lemma C6_disallowed_witness :
  receiveMessage Mini.globals0 Mini.conn0 Mini.pack_disallowed
    = (set_fsmDisallowedCounter 1 Mini.conn0, [EvFsmDisallowed 7]) /\
  queued_of (snd (receiveMessage Mini.globals0 Mini.conn0 Mini.pack_disallowed)) = [].
Proof.
  destruct (C6_disallowed_message_is_dropped Mini.globals0 Mini.conn0 Mini.pack_disallowed
              eq_refl eq_refl) as (Hrun & _ & _ & Hnone).
  split; [exact Hrun | exact Hnone].
Defined.



(** ** Lifecycle: [Close] *)

Section CloseFacts.
Context `{E : Externals}.

Lemma emit_emit evs1 evs2 w : emit evs2 (emit evs1 w) = emit (evs1 ++ evs2) w.
Proof. unfold emit, set_effects. cbn. now rewrite app_assoc. Qed.

Lemma heap_emit evs w : heap (emit evs w) = heap w.
Proof. reflexivity. Qed.

Lemma heap_store_same p c w : heap (store p c w) p = c.
Proof. unfold store, set_heap. cbn. now rewrite Nat.eqb_refl. Qed.

Lemma handlers_called_app evs1 evs2 :
  handlers_called (evs1 ++ evs2) = handlers_called evs1 ++ handlers_called evs2.
Proof. unfold handlers_called. apply flat_map_app. Qed.

Lemma handlers_called_map labels : handlers_called (map EvCloseHandler labels) = labels.
Proof.
  induction labels as [| l rest IH]; [reflexivity |].
  change (handlers_called (map EvCloseHandler (l :: rest)))
    with (l :: handlers_called (map EvCloseHandler rest)).
  now rewrite IH.
Qed.

(** The handlers that return are run one after the other, in list order. *)
Lemma runCloseHandlers_returned returned : forall rest evs w,
  runCloseHandlers (map HandlerReturns returned ++ rest) (emit evs w)
  = runCloseHandlers rest (emit (evs ++ map EvCloseHandler returned) w).
Proof.
  induction returned as [| l returned IH]; intros rest evs w; cbn [map app].
  - now rewrite app_nil_r.
  - cbn [runCloseHandlers]. rewrite emit_emit, IH, <- app_assoc. reflexivity.
Qed.

Lemma persistIfRecording_Ok g c c1 evs :
  persistIfRecording g c = Ok (c1, evs) -> exists s, c1 = set_replaySession s c.
Proof.
  unfold persistIfRecording, persistReplaySession.
  destruct (isPacketRecordingEnabled g c).
  - destruct (replaySession c) as [[| first rest] |] eqn:Hs; try discriminate.
    + intros H; inversion H; subst. exists (Some []). destruct c1; cbn in *. now subst.
    + destruct (proto_Marshal_ReplaySession _); intros H; inversion H; eauto.
  - intros H; inversion H; subst. exists (replaySession c1). now destruct c1.
Qed.

(** [Close] on a connection that is not closing yet, all of whose handlers
    return: everything runs, in order. *)
Lemma Close_body_completes p w c1 evs returned :
  IsClosing (heap w p) = false ->
  persistIfRecording (globals w) (heap w p) = Ok (c1, evs) ->
  closeHandlers (heap w p) = map HandlerReturns returned ->
  sendQueue_closed (heap w p) = false ->
  exists w',
    Close_body p w = Done tt w' /\
    effects w' = effects w ++ evs ++ map EvCloseHandler returned
                   ++ [EvConnClose (id (heap w p))] /\
    torn_down p w w'.
Proof.
  intros Hopen Hpersist Hhandlers Hqueue.
  destruct (persistIfRecording_Ok _ _ _ _ Hpersist) as [s ->].
  unfold Close_body. rewrite Hopen, Hpersist.
  change (closeHandlers (set_replaySession s (heap w p))) with (closeHandlers (heap w p)).
  rewrite Hhandlers, <- (app_nil_r (map HandlerReturns returned)), runCloseHandlers_returned.
  cbn [runCloseHandlers]. unfold teardown.
  rewrite heap_emit, heap_store_same.
  change (sendQueue_closed (set_conn_open false (set_state ConnectionState_CLOSING
            (set_replaySession s (heap w p))))) with (sendQueue_closed (heap w p)).
  rewrite Hqueue. eexists. split; [reflexivity |]. split.
  - cbn. now rewrite <- !app_assoc.
  - unfold torn_down. cbn. rewrite !Nat.eqb_refl. cbn. repeat split.
Qed.

(** [Close] when a handler panics: the handlers up to and including that
    one have been called, and the deferred recover ends the call there. *)
Lemma Close_body_handler_panics p w c1 evs returned l rest :
  IsClosing (heap w p) = false ->
  persistIfRecording (globals w) (heap w p) = Ok (c1, evs) ->
  closeHandlers (heap w p) = map HandlerReturns returned ++ HandlerPanics l :: rest ->
  exists w',
    Close_body p w = Panicked w' /\
    effects w' = effects w ++ evs ++ map EvCloseHandler (returned ++ [l]) /\
    not_torn_down p w w'.
Proof.
  intros Hopen Hpersist Hhandlers.
  destruct (persistIfRecording_Ok _ _ _ _ Hpersist) as [s ->].
  unfold Close_body. rewrite Hopen, Hpersist.
  change (closeHandlers (set_replaySession s (heap w p))) with (closeHandlers (heap w p)).
  rewrite Hhandlers, runCloseHandlers_returned.
  cbn [runCloseHandlers]. eexists. split; [reflexivity |]. split.
  - cbn. rewrite map_app. cbn. now rewrite <- !app_assoc.
  - unfold not_torn_down. cbn. rewrite !Nat.eqb_refl. cbn. repeat split.
Qed.


Lemma emit_nil w : emit [] w = w.
Proof. destruct w. unfold emit, set_effects. cbn. now rewrite app_nil_r. Qed.

Lemma runCloseHandlers_Done handlers : forall w w1,
  runCloseHandlers handlers w = Done tt w1 -> exists evs, w1 = emit evs w.
Proof.
  induction handlers as [| [l | l] rest IH]; intros w w1; cbn [runCloseHandlers].
  - intros H; inversion H; subst. exists []. symmetry. apply emit_nil.
  - intros H. destruct (IH _ _ H) as [evs ->]. eexists. apply emit_emit.
  - discriminate.
Qed.

Lemma teardown_Done p w w' : teardown p w = Done tt w' -> torn_down p w w'.
Proof.
  unfold teardown.
  change (sendQueue_closed (set_conn_open false (set_state ConnectionState_CLOSING (heap w p))))
    with (sendQueue_closed (heap w p)).
  destruct (sendQueue_closed (heap w p)); [discriminate |].
  intros H; inversion H; subst; clear H.
  unfold torn_down. cbn. rewrite !Nat.eqb_refl. cbn. repeat split.
Qed.

(** A call of [Close] whose body runs to its end on a connection that was
    not closing: the connection is torn down. *)
Lemma Close_body_Done p w w' :
  IsClosing (heap w p) = false ->
  Close_body p w = Done tt w' ->
  torn_down p w w'.
Proof.
  intros Hopen. unfold Close_body. rewrite Hopen.
  destruct (persistIfRecording (globals w) (heap w p)) as [[c1 evs] |] eqn:Hpersist;
    [| discriminate].
  destruct (persistIfRecording_Ok _ _ _ _ Hpersist) as [s ->].
  destruct (runCloseHandlers _ _) as [[] w1 | w1] eqn:Hhandlers; [| discriminate].
  destruct (runCloseHandlers_Done _ _ _ Hhandlers) as [evs' ->].
  intros Htear. apply teardown_Done in Htear.
  unfold torn_down in *. rewrite emit_emit in Htear. cbn in Htear.
  rewrite !Nat.eqb_refl in Htear. cbn in Htear. exact Htear.
Qed.

Lemma IsClosing_CLOSING c : state c = ConnectionState_CLOSING -> IsClosing c = true.
Proof. unfold IsClosing. intros ->. reflexivity. Qed.

Lemma Send_closing c ctx : IsClosing c = true -> Send c ctx = Sent c.
Proof. unfold Send. intros ->. reflexivity. Qed.

Lemma Close_closing p w : IsClosing (heap w p) = true -> Close_body p w = Done tt w.
Proof. unfold Close_body. intros ->. reflexivity. Qed.

Lemma receiveData_state g c data c1 evs :
  receiveData g c data = Some (Ok (c1, evs)) -> state c1 = state c.
Proof.
  unfold receiveData. destruct (slice _ _ _); [| discriminate].
  destruct (_ <? PacketHeaderSize).
  - intros H; inversion H. reflexivity.
  - intros H. apply receiveLoop_frame in H. destruct H as (_ & _ & _ & H & _). exact H.
Qed.

Lemma Send_state c ctx c1 : Send c ctx = Sent c1 -> state c1 = state c.
Proof.
  unfold Send, queuedMessageSender_Send.
  repeat match goal with |- context [if ?b then _ else _] => destruct b end;
    intros H; inversion H; reflexivity.
Qed.

Lemma flush_state c : state (fst (flush c)) = state c.
Proof.
  unfold flush. destruct (sendQueue c); [reflexivity |].
  destruct (flushLoop _ _ _) as [messages rest].
  destruct (proto_Marshal_Packet _); reflexivity.
Qed.

(** The lifecycle state is not touched by the two workers. *)
Lemma runOps_state g ops : forall c c2 evs,
  runOps g c ops = Some (Ok (c2, evs)) -> state c2 = state c.
Proof.
  induction ops as [| op rest IH]; intros c c2 evs; cbn [runOps].
  - intros H; inversion H; reflexivity.
  - destruct (runOp g c op) as [[[c1 evs1] |] |] eqn:Hop; try discriminate.
    destruct (runOps g c1 rest) as [[[c3 evs3] |] |] eqn:Hrest; try discriminate.
    intros H; inversion H; subst. rewrite (IH _ _ _ Hrest).
    destruct op as [data | ctx |]; cbn [runOp] in Hop.
    + eapply receiveData_state; eauto.
    + destruct (Send c ctx) as [c' | |] eqn:Hsend; inversion Hop; subst;
        [eapply Send_state; eauto | reflexivity].
    + inversion Hop as [Hflush]. pose proof (flush_state c) as Hs.
      rewrite Hflush in Hs. exact Hs.
Qed.

(** C3, as the code has it. After a call of [Close] that ran to the end of
    its body on a connection that was not closing before: every later
    [Send] on the connection, whatever the two workers have done in
    between, enqueues nothing and returns the connection as it is;
    [GetConnection] of its id returns nil; and a second [Close] returns at
    once, leaving the process state as it is. *)
Theorem C3_after_a_completed_Close (p : nat) (w w' : World) :
  IsClosing (heap w p) = false ->
  Close_body p w = Done tt w' ->
  Close p w = w' /\
  (forall g ops c2 evs ctx,
      runOps g (heap w' p) ops = Some (Ok (c2, evs)) -> Send c2 ctx = Sent c2) /\
  id (heap w' p) = id (heap w p) /\
  GetConnection (id (heap w p)) w' = None /\
  Close_body p w' = Done tt w' /\
  Close p w' = w'.
Proof.
  intros Hopen Hbody.
  pose proof (Close_body_Done _ _ _ Hopen Hbody) as (Hstate & _ & _ & Hid & Hall & _).
  assert (Hclosing : IsClosing (heap w' p) = true) by (apply IsClosing_CLOSING, Hstate).
  split; [unfold Close; now rewrite Hbody |].
  split.
  { intros g ops c2 evs ctx Hrun. apply Send_closing. unfold IsClosing.
    rewrite (runOps_state _ _ _ _ _ Hrun). exact Hclosing. }
  split; [exact Hid |].
  split; [unfold GetConnection; rewrite Hall, lookup_delete_eq; reflexivity |].
  pose proof (Close_closing _ _ Hclosing) as Hagain.
  split; [exact Hagain | unfold Close; now rewrite Hagain].
Qed.

(** C5, as the code has it. [Close] calls the close handlers in insertion
    order. When all of them return, the teardown follows: state CLOSING,
    socket and send queue closed, both registry entries deleted. When one
    panics, the deferred recover keeps the panic from the caller, but the
    call ends there: the handlers behind the failing one are not called and
    no teardown step runs. *)
Theorem C5_handlers_run_in_order_until_one_panics
    (p : nat) (w : World) (c1 : Connection) (evs : list Event)
    (returned : list nat) (rest : list handlerFunc) :
  IsClosing (heap w p) = false ->
  persistIfRecording (globals w) (heap w p) = Ok (c1, evs) ->
  closeHandlers (heap w p) = map HandlerReturns returned ++ rest ->
  sendQueue_closed (heap w p) = false ->
  (rest = [] ->
   effects (Close p w) = effects w ++ evs ++ map EvCloseHandler returned
                           ++ [EvConnClose (id (heap w p))] /\
   torn_down p w (Close p w)) /\
  (forall l later,
      rest = HandlerPanics l :: later ->
      effects (Close p w) = effects w ++ evs ++ map EvCloseHandler (returned ++ [l]) /\
      not_torn_down p w (Close p w)).
Proof.
  intros Hopen Hpersist Hhandlers Hqueue. split.
  - intros ->. rewrite app_nil_r in Hhandlers.
    destruct (Close_body_completes _ _ _ _ _ Hopen Hpersist Hhandlers Hqueue)
      as (w' & Hbody & Heffects & Htorn).
    unfold Close. rewrite Hbody. split; assumption.
  - intros l later ->.
    destruct (Close_body_handler_panics _ _ _ _ _ _ _ Hopen Hpersist Hhandlers)
      as (w' & Hbody & Heffects & Hnot).
    unfold Close. rewrite Hbody. split; assumption.
Qed.


End CloseFacts.

(** C3 as the spec words it, on [Mini.conn_bad_handler], whose second close
    handler panics. [Close] returns, but the connection is not closing: a
    [Send] enqueues its context, [GetConnection] still returns the
    connection, and a second [Close] calls the handlers again. *)
Lemma C3_Close_returns_without_closing :
  let w := Mini.world_of Mini.globals0 Mini.conn_bad_handler in
  let w' := Close 0 w in
  IsClosing (heap w' 0%nat) = false /\
  Send (heap w' 0%nat) Mini.ctx_a
    = Sent (set_sendQueue [Mini.ctx_a] (heap w' 0%nat)) /\
  GetConnection (id (heap w 0%nat)) w' = Some 0%nat /\
  handlers_called (effects w') = [1%nat; 2%nat] /\
  handlers_called (effects (Close 0 w')) = [1%nat; 2%nat; 1%nat; 2%nat].
Proof. repeat split. Qed.

Lemma C3_after_Close_witness :
  let w := Mini.world_of Mini.globals0 Mini.conn_handlers in
  Send (heap (Close 0 w) 0%nat) Mini.ctx_a = Sent (heap (Close 0 w) 0%nat) /\
  GetConnection 7 (Close 0 w) = None /\
  Close 0 (Close 0 w) = Close 0 w.
Proof.
  intros w.
  destruct (Close_body_completes 0 w Mini.conn_handlers [] [1%nat; 2%nat; 3%nat]
              eq_refl eq_refl eq_refl eq_refl) as (w' & Hbody & _).
  destruct (C3_after_a_completed_Close 0 w w' eq_refl Hbody)
    as (Hclose & Hsend & _ & Hget & _ & Hagain).
  rewrite Hclose.
  split; [| split; [exact Hget | exact Hagain]].
  apply (Hsend Mini.globals0 [] _ []). reflexivity.
Defined.

(** C5 as the spec words it, on [Mini.conn_bad_handler]: handler 2 panics,
    handler 3 is never called, and the connection is neither CLOSING nor
    deregistered, with its socket and its queue still open. *)
Lemma C5_panicking_handler_stops_Close :
  let w := Mini.world_of Mini.globals0 Mini.conn_bad_handler in
  closeHandlers (heap w 0%nat) = [HandlerReturns 1; HandlerPanics 2; HandlerReturns 3] /\
  handlers_called (effects (Close 0 w)) = [1%nat; 2%nat] /\
  state (heap (Close 0 w) 0%nat) = ConnectionState_UNAUTHENTICATED /\
  conn_open (heap (Close 0 w) 0%nat) = true /\
  sendQueue_closed (heap (Close 0 w) 0%nat) = false /\
  allConnections (Close 0 w) !! 7 = Some 0%nat /\
  unauthenticatedConnections (Close 0 w) !! 7 = Some 0%nat.
Proof. repeat split. Qed.

Lemma C5_handlers_witness :
  let w := Mini.world_of Mini.globals0 Mini.conn_bad_handler in
  effects (Close 0 w) = [EvCloseHandler 1; EvCloseHandler 2] /\
  not_torn_down 0 w (Close 0 w).
Proof.
  intros w.
  destruct (C5_handlers_run_in_order_until_one_panics 0 w Mini.conn_bad_handler []
              [1%nat] [HandlerPanics 2; HandlerReturns 3]
              eq_refl eq_refl eq_refl eq_refl) as [_ Hpanics].
  exact (Hpanics 2%nat [HandlerReturns 3] eq_refl).
Defined.



(** ** Identity allocation *)

Section IdFacts.
Context `{E : Externals}.

Lemma maxConnId_of_ones bits : 1 <= bits <= 32 -> maxConnId_of bits = Z.ones bits.
Proof.
  intros Hbits. unfold maxConnId_of, uint32_of. rewrite Z.shiftl_1_l, Z.ones_equiv.
  assert (Hpow : 2 <= 2 ^ bits <= 2 ^ 32).
  { split; [change 2 with (2 ^ 1) at 1 |]; apply Z.pow_le_mono_r; lia. }
  destruct (Z.eq_dec bits 32) as [-> | Hne].
  - reflexivity.
  - assert (2 ^ bits < 2 ^ 32) by (apply Z.pow_lt_mono_r; lia).
    rewrite (Z.mod_small (2 ^ bits)) by lia. rewrite Z.mod_small by lia. lia.
Qed.

Lemma ones_bounds bits : 1 <= bits <= 32 -> 1 <= Z.ones bits <= 2 ^ 32 - 1.
Proof.
  intros Hbits. rewrite Z.ones_equiv.
  assert (2 ^ 1 <= 2 ^ bits <= 2 ^ 32) by (split; apply Z.pow_le_mono_r; lia).
  change (2 ^ 1) with 2 in *. lia.
Qed.

(** One turn of the generator: only [nextConnectionId] changes, and the
    new value is inside the mask; in development mode it is the old value
    plus one, below the limit. *)
Lemma generateNextConnId_Done remoteAddr now bits w w1 :
  1 <= bits <= 32 ->
  generateNextConnId remoteAddr now (Z.ones bits) w = Done tt w1 ->
  exists n,
    w1 = set_nextConnectionId n w /\
    0 <= n <= Z.ones bits /\
    (Development (GlobalSettings (globals w)) = true ->
     0 <= nextConnectionId w < 2 ^ 32 - 1 ->
     n = nextConnectionId w + 1 /\ n < Z.ones bits).
Proof.
  intros Hbits. pose proof (ones_bounds bits Hbits) as Hones.
  unfold generateNextConnId.
  destruct (Development (GlobalSettings (globals w))).
  - change (nextConnectionId (set_nextConnectionId ?n w)) with n.
    destruct (Z.leb_spec (Z.ones bits) (uint32_of (nextConnectionId w + 1)))
      as [Hge | Hlt]; [discriminate |].
    intros H; inversion H; subst; clear H. eexists. split; [reflexivity |].
    unfold uint32_of in *.
    pose proof (Z.mod_pos_bound (nextConnectionId w + 1) (2 ^ 32) ltac:(lia)).
    split; [lia |]. intros _ Hnext. rewrite Z.mod_small in * by lia. lia.
  - intros H; inversion H; subst; clear H. eexists. split; [reflexivity |].
    split; [| discriminate].
    rewrite Z.land_ones by lia.
    pose proof (Z.mod_pos_bound (Z.lxor (uint32_of (HashString remoteAddr)) (uint32_of now))
                  (2 ^ bits) ltac:(lia)).
    rewrite Z.ones_equiv. lia.
Qed.

Lemma allocateConnId_Done remoteAddr clock bits retries : forall tries w w1,
  1 <= bits <= 32 ->
  allocateConnId retries tries remoteAddr clock (Z.ones bits) w = Done tt w1 ->
  exists n,
    w1 = set_nextConnectionId n w /\
    allConnections w !! n = None /\
    0 <= n <= Z.ones bits /\
    (Development (GlobalSettings (globals w)) = true ->
     0 <= nextConnectionId w < 2 ^ 32 - 1 ->
     1 <= n < Z.ones bits).
Proof.
  induction retries as [| retries IH]; intros tries w w1 Hbits;
    pose proof (ones_bounds bits Hbits) as Hones; cbn [allocateConnId];
    destruct (generateNextConnId remoteAddr (clock tries) (Z.ones bits) w)
      as [[] w0 | w0] eqn:Hgen; try discriminate;
    destruct (generateNextConnId_Done _ _ _ _ _ Hbits Hgen) as (n & -> & Hrange & Hdev);
    change (allConnections (set_nextConnectionId n w)) with (allConnections w);
    change (nextConnectionId (set_nextConnectionId n w)) with n;
    destruct (allConnections w !! n) as [q |] eqn:Hlookup; try discriminate.
  - intros H; inversion H; subst. exists n.
    split; [reflexivity |]. split; [exact Hlookup |]. split; [exact Hrange |].
    intros Hd Hn. destruct (Hdev Hd Hn). lia.
  - intros H. destruct (IH _ _ _ Hbits H) as (n' & -> & Hfree & Hrange' & Hdev').
    exists n'. split; [reflexivity |]. split; [exact Hfree |]. split; [exact Hrange' |].
    intros Hd Hn. apply Hdev'; [exact Hd |].
    change (nextConnectionId (set_nextConnectionId n w)) with n.
    destruct (Hdev Hd Hn). lia.
  - intros H; inversion H; subst. exists n.
    split; [reflexivity |]. split; [exact Hlookup |]. split; [exact Hrange |].
    intros Hd Hn. destruct (Hdev Hd Hn). lia.
Qed.

(** C8, as the code has it. With an id width of 1 to 32 bits, every id that
    [AddConnection] assigns lies in [0, 2^maxIdBits - 1] and is the id of no
    connection registered at that moment; the new connection is registered
    under it. In development mode, as long as the counter has not wrapped,
    the id lies in [1, 2^maxIdBits - 2]. *)
Theorem C8_assigned_id_is_inside_the_mask_and_free
    (remoteAddr : string) (t : ConnectionType) (clock : nat -> Z)
    (w w' : World) (p : nat) :
  1 <= MaxConnectionIdBits (GlobalSettings (globals w)) <= 32 ->
  AddConnection remoteAddr t clock w = Done p w' ->
  let bits := MaxConnectionIdBits (GlobalSettings (globals w)) in
  let connId := id (heap w' p) in
  0 <= connId <= 2 ^ bits - 1 /\
  allConnections w !! connId = None /\
  allConnections w' !! connId = Some p /\
  (Development (GlobalSettings (globals w)) = true ->
   0 <= nextConnectionId w < 2 ^ 32 - 1 ->
   1 <= connId <= 2 ^ bits - 2).
Proof.
  intros Hbits. unfold AddConnection.
  destruct t; try discriminate.
  all: rewrite (maxConnId_of_ones _ Hbits).
  all: destruct (allocateConnId 100 0 remoteAddr clock _ w) as [[] w1 | w1] eqn:Halloc;
    try discriminate.
  all: destruct (allocateConnId_Done _ _ _ _ _ _ _ Hbits Halloc)
    as (n & -> & Hfree & Hrange & Hdev).
  all: cbn [serverFsm clientFsm set_nextConnectionId].
  all: match goal with |- context [match ?f with Some _ => _ | None => _ end] =>
         destruct f; try discriminate end.
  all: intros H; inversion H; subst; clear H.
  all: cbv zeta.
  all: rewrite Z.ones_equiv in *.
  all: destruct (0 <? ConnectionAuthTimeoutMs (GlobalSettings (globals w))).
  all: cbn; rewrite Nat.eqb_refl; cbn.
  all: split; [lia |]; split; [exact Hfree |]; split; [apply lookup_insert_eq |].
  all: intros Hd Hn; destruct (Hdev Hd Hn); lia.
Qed.

End IdFacts.

(** C8 as the spec words it, in production mode: when the hash of the
    remote address and the clock agree on the low bits, the id is 0, outside
    [1, 2^maxIdBits - 1]. Here the address hashes to 97 and the clock reads
    97. *)
Lemma C8_production_id_can_be_zero :
  let w := Mini.world_of Mini.production_globals Mini.conn0 in
  exists p w',
    AddConnection "a" ConnectionType_CLIENT (fun _ => 97) w = Done p w' /\
    MaxConnectionIdBits (GlobalSettings (globals w)) = 8 /\
    id (heap w' p) = 0 /\
    ~ (1 <= id (heap w' p) <= 2 ^ 8 - 1).
Proof.
  intros w. eexists _, _. split; [reflexivity |]. split; [reflexivity |].
  match goal with
  | |- ?a = 0 /\ _ => assert (Hid : a = 0) by reflexivity; rewrite Hid
  end.
  split; [reflexivity | lia].
Qed.

Lemma C8_assigned_id_witness :
  let w := Mini.world_of Mini.globals0 Mini.conn0 in
  exists p w',
    AddConnection "a" ConnectionType_CLIENT (fun _ => 97) w = Done p w' /\
    1 <= id (heap w' p) <= 2 ^ 8 - 2 /\
    allConnections w !! id (heap w' p) = None.
Proof.
  intros w.
  assert (Hadd : exists p w',
             AddConnection "a" ConnectionType_CLIENT (fun _ => 97) w = Done p w')
    by (eexists _, _; reflexivity).
  destruct Hadd as (p & w' & Hadd). exists p, w'. split; [exact Hadd |].
  destruct (C8_assigned_id_is_inside_the_mask_and_free "a" ConnectionType_CLIENT
              (fun _ => 97) w w' p ltac:(cbn; lia) Hadd)
    as (_ & Hfree & _ & Hdev).
  split; [apply Hdev; [reflexivity | cbn; lia] | exact Hfree].
Defined.

(** * Further properties *)

(** ** Header arithmetic *)

Section HeaderMore.

Lemma lor_low_shift k a b :
  0 <= k -> 0 <= a < 2 ^ k -> 0 <= b -> Z.lor a (Z.shiftl b k) = a + b * 2 ^ k.
Proof.
  intros Hk Ha Hb.
  assert (Hland : Z.land a (Z.shiftl b k) = 0).
  { apply Z.bits_inj'. intros i Hi. rewrite Z.land_spec, Z.bits_0.
    destruct (Z.ltb_spec i k).
    - rewrite Z.shiftl_spec_low by lia. apply andb_false_r.
    - replace a with (a mod 2 ^ k) by (apply Z.mod_small; lia).
      rewrite Z.mod_pow2_bits_high by lia. reflexivity. }
  rewrite <- Z.lxor_lor by exact Hland.
  rewrite <- Z.add_nocarry_lxor by exact Hland.
  rewrite Z.shiftl_mul_pow2 by lia. reflexivity.
Qed.

Lemma nth_is_byte (tag : list Z) i : Forall is_byte tag -> 0 <= nth i tag 0 < 256.
Proof.
  intros Htag. revert i. induction Htag as [| x l Hx _ IH]; intros [| i]; cbn; try lia; auto.
Qed.

Lemma packetSize_as_number (tag : list Z) :
  Forall is_byte tag ->
  Header.packetSize tag =
    (if nth 1%nat tag 0 =? 72
     then if nth 2%nat tag 0 =? 78
          then nth 3%nat tag 0
          else nth 2%nat tag 0 * 256 + nth 3%nat tag 0
     else nth 1%nat tag 0 * 65536 + nth 2%nat tag 0 * 256 + nth 3%nat tag 0).
Proof.
  intros Htag.
  pose proof (nth_is_byte tag 1 Htag) as H1.
  pose proof (nth_is_byte tag 2 Htag) as H2.
  pose proof (nth_is_byte tag 3 Htag) as H3.
  unfold Header.packetSize.
  destruct (nth 1%nat tag 0 =? 72); cbn [negb].
  - destruct (nth 2%nat tag 0 =? 78); cbn [negb]; [reflexivity |].
    rewrite (lor_low_shift 8) by lia. change (2 ^ 8) with 256. lia.
  - rewrite <- Z.lor_assoc, (Z.lor_comm (Z.shiftl _ 16)), Z.lor_assoc.
    rewrite (lor_low_shift 8) by lia. change (2 ^ 8) with 256.
    rewrite (lor_low_shift 16) by (change (2 ^ 16) with 65536; lia).
    change (2 ^ 16) with 65536. lia.
Qed.

(** X2. What the decoder of lines 460-465 computes from a tag of five
    bytes: the big-endian number of bytes 1 to 3, unless byte 1 is 'H', in
    which case it is the number of bytes 2 and 3, or of byte 3 alone when
    byte 2 is 'N'. It is always below 2^24, and with 'H' in byte 1 it never
    exceeds MaxPacketSize: only a tag without the 'H' can be dropped for its
    size. *)
Theorem packetSize_is_the_length_in_the_tag (tag : list Z) :
  Forall is_byte tag ->
  Header.packetSize tag =
    (if nth 1%nat tag 0 =? 72
     then if nth 2%nat tag 0 =? 78
          then nth 3%nat tag 0
          else nth 2%nat tag 0 * 256 + nth 3%nat tag 0
     else nth 1%nat tag 0 * 65536 + nth 2%nat tag 0 * 256 + nth 3%nat tag 0) /\
  0 <= Header.packetSize tag < 2 ^ 24 /\
  (nth 1%nat tag 0 = 72 -> Header.packetSize tag <= MaxPacketSize).
Proof.
  intros Htag.
  pose proof (nth_is_byte tag 1 Htag) as H1.
  pose proof (nth_is_byte tag 2 Htag) as H2.
  pose proof (nth_is_byte tag 3 Htag) as H3.
  pose proof (packetSize_as_number tag Htag) as Hvalue.
  split; [exact Hvalue |]. unfold MaxPacketSize. change (2 ^ 24) with 16777216.
  rewrite Hvalue. split.
  - destruct (_ =? 72); [destruct (_ =? 78) |]; lia.
  - intros ->. change (72 =? 72) with true. cbn iota. destruct (_ =? 78); lia.
Qed.

Lemma encode_is_bytes n ct : 0 <= n -> Forall is_byte (Header.encode n ct).
Proof.
  intros Hn. unfold Header.encode, is_byte, byte_of.
  repeat constructor; try lia;
    try (apply Z.mod_pos_bound; lia);
    repeat match goal with |- context [if ?b then _ else _] => destruct b end;
    try lia; apply Z.mod_pos_bound; lia.
Qed.

Lemma packetSize_encode_long n ct :
  MaxPacketSize < n <= 0xffffff -> n / 65536 <> 72 ->
  Header.packetSize (Header.encode n ct) = n.
Proof.
  unfold MaxPacketSize. intros Hn Hhi.
  rewrite (packetSize_as_number (Header.encode n ct) (encode_is_bytes n ct ltac:(lia))). unfold Header.encode. cbn [nth].
  replace (0xffff <? n) with true by (symmetry; apply Z.ltb_lt; lia).
  replace (0xff <? n) with true by (symmetry; apply Z.ltb_lt; lia).
  rewrite !land_255, !Z.shiftr_div_pow2 by lia.
  change (2 ^ 16) with 65536. change (2 ^ 8) with 256.
  rewrite !byte_of_small by (apply Z.mod_pos_bound; lia).
  assert (Hq : 0 <= n / 65536 < 256)
    by (split; [apply Z.div_pos | apply Z.div_lt_upper_bound]; lia).
  rewrite (Z.mod_small (n / 65536)) by lia.
  replace (n / 65536 =? 72) with false by (symmetry; apply Z.eqb_neq; exact Hhi).
  pose proof (Z.div_mod n 256 ltac:(lia)).
  pose proof (Z.mod_pos_bound n 256 ltac:(lia)).
  pose proof (Z.div_mod (n / 256) 256 ltac:(lia)).
  pose proof (Z.mod_pos_bound (n / 256) 256 ltac:(lia)).
  assert (n / 65536 = n / 256 / 256) by (rewrite Z.div_div by lia; reflexivity).
  lia.
Qed.

(** X1. The length that [flush] writes into a header is the length that
    [readPacket] reads back, for every length up to 0xffffff whose bytes do
    not collide with the fillers: the middle byte is not 0x4E for a length
    up to 0xffff, and the high byte is not 0x48 above. The compression byte
    comes back as it went in. *)
Theorem header_length_round_trip (n ct : Z) :
  0 <= n <= 0xffffff -> 0 <= ct < 256 ->
  (n <= MaxPacketSize -> ~ (0x4E00 <= n <= 0x4EFF)) ->
  (MaxPacketSize < n -> n / 65536 <> 72) ->
  Header.decode (Header.encode n ct) = (n, ct).
Proof.
  intros Hn Hct Hmid Hhigh.
  destruct (Z.le_gt_cases n MaxPacketSize) as [Hshort | Hlong].
  - apply header_round_trip; [lia | exact Hct | auto].
  - unfold Header.decode. rewrite packetSize_encode_long by (auto; lia).
    unfold Header.compression, Header.encode. cbn [nth].
    rewrite byte_of_small by exact Hct. reflexivity.
Qed.

End HeaderMore.

(** ** Reassembly of one frame *)

Section BufferFacts.

Lemma slice_Some (s : list Z) a b :
  0 <= a <= b -> b <= Z.of_nat (length s) ->
  slice s a b = Some (firstn (Z.to_nat (b - a)) (skipn (Z.to_nat a) s)).
Proof.
  intros Hab Hb. unfold slice.
  replace (0 <=? a) with true by (symmetry; apply Z.leb_le; lia).
  replace (a <=? b) with true by (symmetry; apply Z.leb_le; lia).
  replace (b <=? Z.of_nat (length s)) with true by (symmetry; apply Z.leb_le; lia).
  reflexivity.
Qed.

(** A slice inside a known prefix of the buffer is a slice of that prefix. *)
Lemma slice_in_prefix (s pre : list Z) a b :
  firstn (length pre) s = pre ->
  0 <= a <= b -> b <= Z.of_nat (length pre) ->
  slice s a b = Some (firstn (Z.to_nat (b - a)) (skipn (Z.to_nat a) pre)).
Proof.
  intros Hpre Hab Hb.
  assert (Hlen : (length pre <= length s)%nat).
  { rewrite <- Hpre. rewrite length_firstn. lia. }
  rewrite slice_Some by lia. f_equal.
  rewrite <- (firstn_skipn (length pre) s), Hpre.
  rewrite skipn_app, firstn_app, length_skipn.
  replace (Z.to_nat a - length pre)%nat with 0%nat by lia.
  replace (Z.to_nat (b - a) - (length pre - Z.to_nat a))%nat with 0%nat by lia.
  cbn. apply app_nil_r.
Qed.

(** Reading [data] behind a known prefix extends the prefix, when there is
    room for all of it. *)
Lemma read_into_prefix (s pre data : list Z) :
  firstn (length pre) s = pre ->
  (length pre + length data <= length s)%nat ->
  firstn (length (pre ++ data)) (read_into s (Z.of_nat (length pre)) data) = pre ++ data /\
  length (read_into s (Z.of_nat (length pre)) data) = length s /\
  bytes_read s (Z.of_nat (length pre)) data = Z.of_nat (length data).
Proof.
  intros Hpre Hroom. unfold read_into, bytes_read.
  rewrite Nat2Z.id.
  replace (Z.to_nat (Z.of_nat (length s) - Z.of_nat (length pre)))
    with (length s - length pre)%nat by lia.
  rewrite (firstn_all2 data (n := (length s - length pre)%nat)) by lia.
  rewrite Hpre. repeat split.
  - rewrite app_assoc. rewrite firstn_app.
    rewrite firstn_all. replace (length (pre ++ data) - length (pre ++ data))%nat with 0%nat by lia.
    cbn. apply app_nil_r.
  - rewrite !length_app, length_skipn.
    assert (length pre <= length s)%nat by lia.
    rewrite <- Hpre at 1. rewrite length_firstn. lia.
Qed.

End BufferFacts.

Section OneFrame.
Context `{E : Externals}.
Variables (g : Globals) (ct : Z) (body raw : list Z) (p : Packet.t).
Hypothesis Hct : 0 <= ct < 256.
Hypothesis Hlen : Z.of_nat (length body) <= MaxPacketSize.
Hypothesis Hband : ~ (0x4E00 <= Z.of_nat (length body) <= 0x4EFF).
Hypothesis Hraw :
  (if ct =? CompressionType_SNAPPY then snappy_Decode body else Some body) = Some raw.
Hypothesis Hp : proto_Unmarshal_Packet raw = Some p.

Let frame := frame_of ct body.

Lemma length_encode n c0 : length (Header.encode n c0) = 5%nat.
Proof. reflexivity. Qed.

Lemma length_frame : Z.of_nat (length frame) = PacketHeaderSize + Z.of_nat (length body).
Proof. unfold frame, frame_of. rewrite length_app, length_encode. unfold PacketHeaderSize. lia. Qed.

Lemma header_of_frame :
  firstn 5 frame = Header.encode (Z.of_nat (length body)) ct /\
  skipn 5 frame = body.
Proof.
  unfold frame, frame_of. split.
  - rewrite firstn_app, length_encode. cbn [Nat.sub firstn]. rewrite app_nil_r.
    apply firstn_all2. rewrite length_encode. lia.
  - rewrite skipn_app, length_encode. cbn [Nat.sub skipn].
    rewrite skipn_all2 by (rewrite length_encode; lia). reflexivity.
Qed.

Lemma decode_header_of_frame :
  Header.packetSize (Header.encode (Z.of_nat (length body)) ct) = Z.of_nat (length body) /\
  Header.compression (Header.encode (Z.of_nat (length body)) ct) = ct /\
  nth 0%nat (Header.encode (Z.of_nat (length body)) ct) 0 = 67.
Proof.
  pose proof (header_round_trip (Z.of_nat (length body)) ct ltac:(lia) Hct Hband) as Hrt.
  unfold Header.decode in Hrt. injection Hrt as Hsize Hcomp.
  split; [exact Hsize |]. split; [exact Hcomp | reflexivity].
Qed.

Lemma packets_of_app evs1 evs2 : packets_of (evs1 ++ evs2) = packets_of evs1 ++ packets_of evs2.
Proof. unfold packets_of. apply flat_map_app. Qed.

Lemma receiveMessage_no_packet c mp : packets_of (snd (receiveMessage g c mp)) = [].
Proof.
  unfold receiveMessage.
  repeat match goal with
         | |- context [if ?b then _ else _] => destruct b
         | |- context [match ?x with _ => _ end] => destruct x
         end; reflexivity.
Qed.

Lemma receiveMessages_no_packet mps : forall c,
  packets_of (snd (receiveMessages g c mps)) = [].
Proof.
  induction mps as [| mp rest IH]; intros c; cbn [receiveMessages]; [reflexivity |].
  pose proof (receiveMessage_no_packet c mp) as H1.
  destruct (receiveMessage g c mp) as [c1 evs1].
  specialize (IH c1). destruct (receiveMessages g c1 rest) as [c2 evs2].
  cbn [snd] in *. rewrite packets_of_app, H1, IH. reflexivity.
Qed.

(** The frame is complete in the buffer: [readPacket] hands back its packet. *)
Lemma readPacket_complete c :
  firstn (length frame) (readBuffer c) = frame ->
  Z.of_nat (length frame) <= readPos c ->
  ready_for g frame c ->
  exists c' evs,
    readPacket g c 0 = Ok (c', Z.of_nat (length frame), Some p, evs) /\
    packets_of evs = [p] /\
    readPos c' = readPos c /\
    compressionType c' = (if ct =? CompressionType_SNAPPY then ct else compressionType c).
Proof.
  intros Hbuf Hpos [Hroom Hrec].
  destruct header_of_frame as [Hhead Hbody].
  destruct decode_header_of_frame as (Hsize & Hcomp & Hmagic).
  pose proof length_frame as Hlf. unfold PacketHeaderSize in Hlf.
  unfold readPacket.
  rewrite (slice_in_prefix _ frame) by (unfold PacketHeaderSize; try assumption; lia).
  change (firstn (Z.to_nat (0 + PacketHeaderSize - 0)) (skipn (Z.to_nat 0) frame))
    with (firstn 5 frame).
  rewrite Hhead, Hmagic.
  change (negb (67 =? 67)) with false. cbv iota.
  rewrite Hsize.
  replace (MaxPacketSize <? Z.of_nat (length body)) with false
    by (symmetry; apply Z.ltb_ge; lia).
  replace (readPos c <? PacketHeaderSize + Z.of_nat (length body)) with false
    by (symmetry; apply Z.ltb_ge; unfold PacketHeaderSize; lia).
  replace (Z.of_nat (length (readBuffer c)) <=? 0 + (PacketHeaderSize + Z.of_nat (length body)))
    with false by (symmetry; apply Z.leb_gt; unfold PacketHeaderSize; lia).
  rewrite (slice_in_prefix _ frame) by (unfold PacketHeaderSize; try assumption; lia).
  replace (Z.to_nat (0 + (PacketHeaderSize + Z.of_nat (length body)) - (0 + PacketHeaderSize)))
    with (length body) by (unfold PacketHeaderSize; lia).
  change (Z.to_nat (0 + PacketHeaderSize)) with 5%nat.
  rewrite Hbody, firstn_all, Hcomp.
  assert (Hsticky :
            (match CompressionType_name ct with Some _ => true | None => false end)
            && negb (ct =? 0) = (ct =? CompressionType_SNAPPY)).
  { unfold CompressionType_name, CompressionType_SNAPPY.
    destruct (Z.eqb_spec ct 0) as [-> | H0]; [reflexivity |].
    destruct (Z.eqb_spec ct 1); reflexivity. }
  rewrite Hsticky.
  set (c0 := if ct =? CompressionType_SNAPPY then set_compressionType ct c else c).
  assert (Hc0 : compressionType c0 = (if ct =? CompressionType_SNAPPY then ct else compressionType c)
                /\ readPos c0 = readPos c /\ replaySession c0 = replaySession c
                /\ isPacketRecordingEnabled g c0 = isPacketRecordingEnabled g c).
  { subst c0. destruct (ct =? CompressionType_SNAPPY); repeat split. }
  destruct Hc0 as (Hc0ct & Hc0pos & Hc0session & Hc0rec).
  assert (Hgate : (ct =? CompressionType_SNAPPY) && (compressionType c0 =? CompressionType_SNAPPY)
                  = (ct =? CompressionType_SNAPPY)).
  { rewrite Hc0ct. destruct (Z.eqb_spec ct CompressionType_SNAPPY) as [-> | Hne]; reflexivity. }
  rewrite Hgate, Hraw, Hp.
  assert (Hrecorded : exists c2,
             (if isPacketRecordingEnabled g c0 then recordPacket g c0 p else Ok c0) = Ok c2 /\
             readPos c2 = readPos c0 /\ compressionType c2 = compressionType c0).
  { rewrite Hc0rec. destruct (isPacketRecordingEnabled g c) eqn:Hon.
    - unfold recordPacket. rewrite Hc0session.
      destruct (replaySession c) as [packets |] eqn:Hs; [| exfalso; now apply Hrec].
      eexists. split; [reflexivity |]. split; reflexivity.
    - exists c0. repeat split. }
  destruct Hrecorded as (c2 & -> & Hc2pos & Hc2ct).
  destruct (receiveMessages_gate_fields g (Packet.Messages p) c2) as (f & n & Hf).
  pose proof (receiveMessages_no_packet (Packet.Messages p) c2) as Hnone.
  destruct (receiveMessages g c2 (Packet.Messages p)) as [c3 evs3].
  cbn [fst snd] in *. subst c3.
  eexists _, _. split; [rewrite Hlf; reflexivity |].
  split; [| split].
  - change (packets_of (EvPacketReceived (id c) p :: evs3)) with (p :: packets_of evs3).
    now rewrite Hnone.
  - change (readPos (set_fsmDisallowedCounter n (set_fsm f c2))) with (readPos c2). congruence.
  - change (compressionType (set_fsmDisallowedCounter n (set_fsm f c2))) with (compressionType c2). congruence.
Qed.


(** The frame has not arrived in full: the bytes are kept and the cursor
    stays behind them. *)
Lemma receiveData_partial c pre data suf :
  holds_prefix c pre -> ready_for g frame c ->
  pre ++ data ++ suf = frame -> suf <> [] ->
  exists evs,
    receiveData g c data
    = Some (Ok (set_readPos (Z.of_nat (length (pre ++ data)))
                  (set_readBuffer (read_into (readBuffer c) (readPos c) data) c), evs)) /\
    packets_of evs = [] /\
    holds_prefix (set_readPos (Z.of_nat (length (pre ++ data)))
                    (set_readBuffer (read_into (readBuffer c) (readPos c) data) c))
                 (pre ++ data) /\
    ready_for g frame (set_readPos (Z.of_nat (length (pre ++ data)))
                         (set_readBuffer (read_into (readBuffer c) (readPos c) data) c)).
Proof.
  intros [Hpos Hpre] [Hroom Hrec] Hframe Hsuf.
  assert (Hlens : (length pre + length data < length frame)%nat).
  { rewrite <- Hframe, !length_app. destruct suf; [congruence | cbn; lia]. }
  destruct (read_into_prefix (readBuffer c) pre data Hpre ltac:(lia)) as (Hnew & Hsame & Hread).
  unfold receiveData. rewrite !Hpos. rewrite slice_Some by lia.
  rewrite Hread, <- Nat2Z.inj_add, <- length_app.
  set (c1 := set_readPos _ _).
  assert (Hholds : holds_prefix c1 (pre ++ data) /\ ready_for g frame c1).
  { split; [split; [reflexivity | exact Hnew] |].
    split; [| exact Hrec].
    change (readBuffer c1) with (read_into (readBuffer c) (Z.of_nat (length pre)) data). lia. }
  change (readPos c1) with (Z.of_nat (length (pre ++ data))).
  destruct (Z.ltb_spec (Z.of_nat (length (pre ++ data))) PacketHeaderSize) as [Hshort | Hlong].
  - eexists. split; [reflexivity |]. split; [reflexivity | exact Hholds].
  - unfold PacketHeaderSize in Hlong.
    unfold receive_fuel. change (readPos c1) with (Z.of_nat (length (pre ++ data))).
    rewrite Nat2Z.id. cbn [receiveLoop].
    change (readPos c1) with (Z.of_nat (length (pre ++ data))).
    replace (0 <? Z.of_nat (length (pre ++ data))) with true
      by (symmetry; apply Z.ltb_lt; lia).
    destruct header_of_frame as [Hhead Hbody].
    destruct decode_header_of_frame as (Hsize & Hcomp & Hmagic).
    pose proof length_frame as Hlf. unfold PacketHeaderSize in Hlf.
    assert (Htag : firstn 5 (pre ++ data) = Header.encode (Z.of_nat (length body)) ct).
    { rewrite <- Hhead, <- Hframe, app_assoc.
      rewrite (firstn_app 5 (pre ++ data) suf).
      replace (5 - length (pre ++ data))%nat with 0%nat by lia.
      cbn [firstn]. now rewrite app_nil_r. }
    unfold readPacket.
    change (readBuffer c1) with (read_into (readBuffer c) (Z.of_nat (length pre)) data).
    rewrite (slice_in_prefix _ (pre ++ data)) by (unfold PacketHeaderSize; try assumption; lia).
    change (firstn (Z.to_nat (0 + PacketHeaderSize - 0)) (skipn (Z.to_nat 0) (pre ++ data)))
      with (firstn 5 (pre ++ data)).
    rewrite Htag, Hmagic. change (negb (67 =? 67)) with false. cbv iota.
    rewrite Hsize.
    replace (MaxPacketSize <? Z.of_nat (length body)) with false
      by (symmetry; apply Z.ltb_ge; lia).
    change (readPos c1) with (Z.of_nat (length (pre ++ data))).
    replace (Z.of_nat (length (pre ++ data)) <? PacketHeaderSize + Z.of_nat (length body))
      with true by (symmetry; apply Z.ltb_lt; unfold PacketHeaderSize; rewrite length_app; lia).
    eexists. split; [reflexivity |]. split; [reflexivity | exact Hholds].
Qed.

(** The read that brings the last byte of the frame dispatches its packet
    and resets the cursor. *)
Lemma receiveData_completes c pre data :
  holds_prefix c pre -> ready_for g frame c ->
  pre ++ data = frame ->
  exists c' evs,
    receiveData g c data = Some (Ok (c', evs)) /\
    packets_of evs = [p] /\
    readPos c' = 0 /\
    compressionType c' = (if ct =? CompressionType_SNAPPY then ct else compressionType c).
Proof.
  intros [Hpos Hpre] [Hroom Hrec] Hframe.
  pose proof length_frame as Hlf. unfold PacketHeaderSize in Hlf.
  assert (Hlens : (length pre + length data = length frame)%nat)
    by (rewrite <- Hframe, length_app; lia).
  destruct (read_into_prefix (readBuffer c) pre data Hpre ltac:(lia)) as (Hnew & Hsame & Hread).
  rewrite Hframe in Hnew.
  unfold receiveData. rewrite !Hpos. rewrite slice_Some by lia.
  rewrite Hread, <- Nat2Z.inj_add, Hlens.
  set (c1 := set_readPos _ _).
  change (readPos c1) with (Z.of_nat (length frame)).
  replace (Z.of_nat (length frame) <? PacketHeaderSize) with false
    by (symmetry; apply Z.ltb_ge; unfold PacketHeaderSize; lia).
  destruct (readPacket_complete c1) as (c' & evs & Hread1 & Hpackets & Hpos' & Hct').
  { exact Hnew. }
  { change (readPos c1) with (Z.of_nat (length frame)). lia. }
  { split; [change (readBuffer c1) with (read_into (readBuffer c) (Z.of_nat (length pre)) data); lia |].
    exact Hrec. }
  unfold receive_fuel. change (readPos c1) with (Z.of_nat (length frame)).
  rewrite Nat2Z.id. cbn [receiveLoop].
  change (readPos c1) with (Z.of_nat (length frame)).
  replace (0 <? Z.of_nat (length frame)) with true by (symmetry; apply Z.ltb_lt; lia).
  rewrite Hread1. change (readPos c1) with (Z.of_nat (length frame)) in Hpos'.
  rewrite Hpos', Z.ltb_irrefl.
  destruct (length frame) eqn:Hn; [lia |]. cbn [receiveLoop]. rewrite Hpos', Z.ltb_irrefl.
  eexists _, _. split; [reflexivity |].
  split; [rewrite !app_nil_r; exact Hpackets |]. split; [reflexivity |].
  exact Hct'.
Qed.


Lemma empty_reads_dispatch_nothing chunks : forall c,
  concat chunks = [] -> readPos c = 0 ->
  exists c' evs,
    receiveAll g c chunks = Some (Ok (c', evs)) /\
    packets_of evs = [] /\ readPos c' = 0 /\ compressionType c' = compressionType c.
Proof.
  induction chunks as [| data rest IH]; intros c Hempty Hpos; cbn [receiveAll].
  - eexists _, _. repeat split. exact Hpos.
  - cbn [concat] in Hempty. apply app_eq_nil in Hempty. destruct Hempty as [-> Hrest].
    unfold receiveData. rewrite Hpos, slice_Some by lia.
    unfold bytes_read. rewrite firstn_nil. cbn [length].
    change (readPos (set_readPos (0 + Z.of_nat 0) _)) with 0.
    change (0 <? PacketHeaderSize) with true. cbv iota.
    set (c1 := set_readPos _ _).
    destruct (IH c1 Hrest eq_refl) as (c' & evs & -> & Hpackets & Hpos' & Hct').
    eexists _, _. split; [reflexivity |]. split; [exact Hpackets |].
    split; [exact Hpos' | exact Hct'].
Qed.

Lemma receiveAll_assembles chunks : forall pre c,
  holds_prefix c pre -> ready_for g frame c ->
  (length pre < length frame)%nat ->
  pre ++ concat chunks = frame ->
  exists c' evs,
    receiveAll g c chunks = Some (Ok (c', evs)) /\
    packets_of evs = [p] /\
    readPos c' = 0 /\
    compressionType c' = (if ct =? CompressionType_SNAPPY then ct else compressionType c).
Proof.
  induction chunks as [| data rest IH]; intros pre c Hholds Hready Hshort Hframe.
  - cbn [concat] in Hframe. rewrite app_nil_r in Hframe. subst pre. lia.
  - cbn [concat] in Hframe. cbn [receiveAll].
    destruct (Nat.lt_ge_cases (length (pre ++ data)) (length frame)) as [Hlt | Hge].
    + destruct (concat rest) as [| b suf] eqn:Hrest.
      { rewrite app_nil_r in Hframe. rewrite Hframe in Hlt. lia. }
      destruct (receiveData_partial c pre data (b :: suf) Hholds Hready Hframe ltac:(discriminate))
        as (evs1 & -> & Hnone & Hholds1 & Hready1).
      destruct (IH (pre ++ data) _ Hholds1 Hready1 Hlt) as (c' & evs & -> & Hpackets & Hpos' & Hct').
      { rewrite <- app_assoc. exact Hframe. }
      eexists _, _. split; [reflexivity |].
      split; [rewrite packets_of_app, Hnone; exact Hpackets |].
      split; [exact Hpos' | exact Hct'].
    + assert (Hrest : concat rest = []).
      { apply length_zero_iff_nil. rewrite <- Hframe, app_assoc, length_app in Hge. lia. }
      rewrite Hrest, app_nil_r in Hframe.
      destruct (receiveData_completes c pre data Hholds Hready Hframe)
        as (c1 & evs1 & -> & Hpackets & Hpos1 & Hct1).
      destruct (empty_reads_dispatch_nothing rest c1 Hrest Hpos1)
        as (c' & evs & -> & Hnone & Hpos' & Hct').
      eexists _, _. split; [reflexivity |].
      split; [rewrite packets_of_app, Hnone, app_nil_r; exact Hpackets |].
      split; [exact Hpos' | congruence].
Qed.

End OneFrame.

Section OneFrameTheorem.
Context `{E : Externals}.

(** X3. A well-formed frame that reaches a connection with an empty read
    buffer in any number of reads, cut anywhere (header included), is
    dispatched exactly once, when its last byte arrives; the cursor is then
    back at 0 and the sticky compression type is the frame's when that is
    SNAPPY. The frame must be shorter than the read buffer. *)
Theorem one_frame_in_any_number_of_reads
    (g : Globals) (c : Connection) (ct : Z) (body raw : list Z) (p : Packet.t)
    (chunks : list (list Z)) :
  0 <= ct < 256 ->
  Z.of_nat (length body) <= MaxPacketSize ->
  ~ (0x4E00 <= Z.of_nat (length body) <= 0x4EFF) ->
  (if ct =? CompressionType_SNAPPY then snappy_Decode body else Some body) = Some raw ->
  proto_Unmarshal_Packet raw = Some p ->
  readPos c = 0 ->
  ready_for g (frame_of ct body) c ->
  concat chunks = frame_of ct body ->
  exists c' evs,
    receiveAll g c chunks = Some (Ok (c', evs)) /\
    packets_of evs = [p] /\
    readPos c' = 0 /\
    compressionType c' = (if ct =? CompressionType_SNAPPY then ct else compressionType c).
Proof.
  intros Hct Hlen Hband Hraw Hp Hpos Hready Hchunks.
  apply (receiveAll_assembles g ct body raw p Hct Hlen Hband Hraw Hp chunks [] c).
  - split; [exact Hpos | reflexivity].
  - exact Hready.
  - unfold frame_of. rewrite length_app. cbn. lia.
  - exact Hchunks.
Qed.

End OneFrameTheorem.

(** ** Reads that are thrown away *)

Section Discarded.
Context `{E : Externals}.

(** The connection after a read into an empty buffer. *)
Lemma first_read c data :
  readPos c = 0 -> (5 <= length data)%nat -> (5 <= length (readBuffer c))%nat ->
  exists c1,
    c1 = set_readPos (readPos c + bytes_read (readBuffer c) (readPos c) data)
           (set_readBuffer (read_into (readBuffer c) (readPos c) data) c) /\
    5 <= readPos c1 /\
    slice (readBuffer c1) 0 (0 + PacketHeaderSize) = Some (firstn 5 data) /\
    length (readBuffer c1) = length (readBuffer c) /\
    ((length data <= length (readBuffer c))%nat -> readPos c1 = Z.of_nat (length data)) /\
    ((length (readBuffer c) <= length data)%nat ->
     readPos c1 = Z.of_nat (length (readBuffer c))).
Proof.
  intros Hpos Hdata Hbuf. eexists. split; [reflexivity |].
  rewrite Hpos.
  change (readPos (set_readPos ?x _)) with x.
  change (readBuffer (set_readPos _ (set_readBuffer ?b _))) with b.
  unfold bytes_read, read_into. rewrite Z.sub_0_r, Nat2Z.id.
  change (Z.to_nat 0) with 0%nat. cbn [firstn app Nat.add].
  set (got := firstn (length (readBuffer c)) data).
  assert (Hgot : (5 <= length got <= length (readBuffer c))%nat
                 /\ firstn 5 got = firstn 5 data
                 /\ ((length data <= length (readBuffer c))%nat -> length got = length data)
                 /\ ((length (readBuffer c) <= length data)%nat
                     -> length got = length (readBuffer c))).
  { subst got. rewrite length_firstn, firstn_firstn.
    replace (Init.Nat.min 5 (length (readBuffer c))) with 5%nat by lia.
    repeat split; lia. }
  destruct Hgot as (Hlen & Hfirst & Hall & Hfull).
  split; [lia |]. split; [| split; [| split]].
  - rewrite slice_Some by (unfold PacketHeaderSize; rewrite ?length_app, ?length_skipn; lia).
    change (Z.to_nat (0 + PacketHeaderSize - 0)) with 5%nat.
    change (Z.to_nat 0) with 0%nat.
    change (firstn 0 (readBuffer c)) with (@nil Z). rewrite skipn_O. cbn [app].
    rewrite firstn_app. replace (5 - length got)%nat with 0%nat by lia.
    cbn [firstn]. rewrite app_nil_r. f_equal. exact Hfirst.
  - change (firstn 0 (readBuffer c)) with (@nil Z). cbn [app].
    rewrite length_app, length_skipn. lia.
  - intros Hfits. rewrite (Hall Hfits). lia.
  - intros Hmore. rewrite (Hfull Hmore). lia.
Qed.

Lemma receiveData_first_read g c data c1 :
  readPos c = 0 ->
  c1 = set_readPos (readPos c + bytes_read (readBuffer c) (readPos c) data)
         (set_readBuffer (read_into (readBuffer c) (readPos c) data) c) ->
  5 <= readPos c1 ->
  receiveData g c data = receiveLoop (S (Z.to_nat (readPos c1))) g c1 0.
Proof.
  intros Hpos Hc1 Hpos1. unfold receiveData. rewrite <- Hc1.
  rewrite Hpos at 1. rewrite slice_Some by lia.
  replace (readPos c1 <? PacketHeaderSize) with false
    by (symmetry; apply Z.ltb_ge; unfold PacketHeaderSize; lia).
  reflexivity.
Qed.

Lemma nth_firstn_0 (data : list Z) : (5 <= length data)%nat ->
  nth 0%nat (firstn 5 data) 0 = nth 0%nat data 0.
Proof. destruct data; cbn; [lia | reflexivity]. Qed.

(** X5. A read of at least a header's length that does not start with the
    magic byte 'C' is thrown away as a whole: one packet is counted as
    dropped, nothing is dispatched, the cursor goes back to 0, and the
    state machine, the sticky compression type and the replay session stay
    as they were. *)
Theorem read_without_magic_byte_is_discarded (g : Globals) (c : Connection) (data : list Z) :
  readPos c = 0 ->
  (5 <= length data)%nat -> (5 <= length (readBuffer c))%nat ->
  nth 0%nat data 0 <> 67 ->
  exists c',
    receiveData g c data = Some (Ok (c', [EvPacketDropped (id c)])) /\
    readPos c' = 0 /\
    fsm c' = fsm c /\ compressionType c' = compressionType c /\
    replaySession c' = replaySession c.
Proof.
  intros Hpos Hdata Hbuf Hmagic.
  destruct (first_read c data Hpos Hdata Hbuf) as (c1 & Hc1 & Hpos1 & Htag & _).
  rewrite (receiveData_first_read g c _ c1 Hpos Hc1 Hpos1). cbn [receiveLoop].
  replace (0 <? readPos c1) with true by (symmetry; apply Z.ltb_lt; lia).
  unfold readPacket; rewrite Htag, nth_firstn_0 by exact Hdata;
    replace (nth 0%nat data 0 =? 67) with false by (symmetry; apply Z.eqb_neq; exact Hmagic);
    cbn [negb]; (eexists; split; [subst c1; reflexivity |]); subst c1; repeat split.
Qed.

(** X6. A read that starts with the header that [flush] writes for a
    payload of more than MaxPacketSize bytes is thrown away as a whole,
    whatever follows the header: one packet is counted as dropped and the
    cursor goes back to 0. *)
Theorem read_announcing_a_long_payload_is_discarded
    (g : Globals) (c : Connection) (n ct : Z) (rest : list Z) :
  readPos c = 0 -> (5 <= length (readBuffer c))%nat ->
  MaxPacketSize < n <= 0xffffff -> n / 65536 <> 72 ->
  exists c',
    receiveData g c (Header.encode n ct ++ rest) = Some (Ok (c', [EvPacketDropped (id c)])) /\
    readPos c' = 0.
Proof.
  intros Hpos Hbuf Hn Hhigh.
  assert (Hdata : (5 <= length (Header.encode n ct ++ rest))%nat)
    by (rewrite length_app; cbn; lia).
  destruct (first_read c _ Hpos Hdata Hbuf) as (c1 & Hc1 & Hpos1 & Htag & _).
  assert (Hfirst : firstn 5 (Header.encode n ct ++ rest) = Header.encode n ct) by reflexivity.
  rewrite Hfirst in Htag.
  rewrite (receiveData_first_read g c _ c1 Hpos Hc1 Hpos1). cbn [receiveLoop].
  replace (0 <? readPos c1) with true by (symmetry; apply Z.ltb_lt; lia).
  unfold readPacket; rewrite Htag;
    change (nth 0%nat (Header.encode n ct) 0) with 67;
    change (negb (67 =? 67)) with false; cbv iota;
    rewrite packetSize_encode_long by assumption;
    replace (MaxPacketSize <? n) with true by (symmetry; apply Z.ltb_lt; lia);
    (eexists; split; [subst c1; reflexivity |]); subst c1; reflexivity.
Qed.

(** X7. A well-formed frame that is exactly as long as the read buffer is
    dropped, not dispatched: the test of line 481 wants one byte of the
    buffer left behind the frame. *)
Theorem frame_that_fills_the_buffer_is_dropped
    (g : Globals) (c : Connection) (ct : Z) (body : list Z) :
  readPos c = 0 ->
  0 <= ct < 256 ->
  Z.of_nat (length body) <= MaxPacketSize ->
  ~ (0x4E00 <= Z.of_nat (length body) <= 0x4EFF) ->
  length (frame_of ct body) = length (readBuffer c) ->
  exists c',
    receiveData g c (frame_of ct body) = Some (Ok (c', [EvPacketDropped (id c)])) /\
    readPos c' = 0.
Proof.
  intros Hpos Hct Hlen Hband Hfill.
  assert (Hframe : (length (frame_of ct body) = 5 + length body)%nat)
    by (unfold frame_of; rewrite length_app; reflexivity).
  destruct (first_read c (frame_of ct body) Hpos ltac:(lia) ltac:(lia))
    as (c1 & Hc1 & Hpos1 & Htag & Hsame & Hall & _).
  specialize (Hall ltac:(lia)).
  assert (Hfirst : firstn 5 (frame_of ct body) = Header.encode (Z.of_nat (length body)) ct)
    by reflexivity.
  rewrite Hfirst in Htag.
  pose proof (header_round_trip (Z.of_nat (length body)) ct ltac:(lia) Hct Hband) as Hrt.
  unfold Header.decode in Hrt. injection Hrt as Hsize _.
  rewrite (receiveData_first_read g c _ c1 Hpos Hc1 Hpos1). cbn [receiveLoop].
  replace (0 <? readPos c1) with true by (symmetry; apply Z.ltb_lt; lia).
  unfold readPacket; rewrite Htag;
    change (nth 0%nat (Header.encode (Z.of_nat (length body)) ct) 0) with 67;
    change (negb (67 =? 67)) with false; cbv iota;
    rewrite Hsize;
    replace (MaxPacketSize <? Z.of_nat (length body)) with false
      by (symmetry; apply Z.ltb_ge; lia);
    replace (readPos c1 <? PacketHeaderSize + Z.of_nat (length body)) with false
      by (symmetry; apply Z.ltb_ge; unfold PacketHeaderSize; lia);
    replace (Z.of_nat (length (readBuffer c1)) <=? 0 + (PacketHeaderSize + Z.of_nat (length body)))
      with true by (symmetry; apply Z.leb_le; unfold PacketHeaderSize; lia);
    (eexists; split; [subst c1; reflexivity |]); subst c1; reflexivity.
Qed.

End Discarded.

(** ** Several frames in one read *)

Section Coalesced.
Context `{E : Externals}.
Variable g : Globals.

Lemma skipn_firstn_middle (pre mid : list Z) n :
  firstn n (skipn (length pre) (pre ++ mid)) = firstn n mid.
Proof. rewrite skipn_app, skipn_all, Nat.sub_diag. reflexivity. Qed.

(** A complete frame anywhere in the buffer: [readPacket] hands back its
    packet and moves [bufPos] behind it; buffer and cursor stay. *)
Lemma readPacket_at (f : WireFrame) (pre : list Z) (c : Connection) :
  well_formed f ->
  let frame := frame_of (wf_compression f) (wf_body f) in
  firstn (length (pre ++ frame)) (readBuffer c) = pre ++ frame ->
  Z.of_nat (length (pre ++ frame)) <= readPos c ->
  Z.of_nat (length (pre ++ frame)) < Z.of_nat (length (readBuffer c)) ->
  (isPacketRecordingEnabled g c = true -> replaySession c <> None) ->
  exists c' evs,
    readPacket g c (Z.of_nat (length pre))
      = Ok (c', Z.of_nat (length (pre ++ frame)), Some (wf_packet f), evs) /\
    packets_of evs = [wf_packet f] /\
    readPos c' = readPos c /\ readBuffer c' = readBuffer c /\
    (isPacketRecordingEnabled g c' = true -> replaySession c' <> None).
Proof.
  intros (Hct & Hlen & Hband & raw & Hraw & Hp) frame Hbuf Hpos Hroom Hrec.
  set (ct := wf_compression f) in *. set (body := wf_body f) in *.
  destruct (header_of_frame ct body) as [Hhead Hbody]. fold frame in Hhead, Hbody.
  destruct (decode_header_of_frame ct body Hct Hlen Hband) as (Hsize & Hcomp & Hmagic).
  pose proof (length_frame ct body) as Hlf. fold frame in Hlf. unfold PacketHeaderSize in Hlf.
  assert (Hlpf : Z.of_nat (length (pre ++ frame)) = Z.of_nat (length pre) + 5 + Z.of_nat (length body))
    by (rewrite length_app; lia).
  unfold readPacket.
  rewrite (slice_in_prefix _ (pre ++ frame)) by (unfold PacketHeaderSize; try assumption; lia).
  replace (Z.to_nat (Z.of_nat (length pre) + PacketHeaderSize - Z.of_nat (length pre)))
    with 5%nat by (unfold PacketHeaderSize; lia).
  rewrite Nat2Z.id, skipn_firstn_middle.
  rewrite Hhead, Hmagic.
  change (negb (67 =? 67)) with false. cbv iota.
  rewrite Hsize.
  replace (MaxPacketSize <? Z.of_nat (length body)) with false
    by (symmetry; apply Z.ltb_ge; lia).
  replace (readPos c <? PacketHeaderSize + Z.of_nat (length body)) with false
    by (symmetry; apply Z.ltb_ge; unfold PacketHeaderSize; lia).
  replace (Z.of_nat (length (readBuffer c))
           <=? Z.of_nat (length pre) + (PacketHeaderSize + Z.of_nat (length body)))
    with false by (symmetry; apply Z.leb_gt; unfold PacketHeaderSize; lia).
  rewrite (slice_in_prefix _ (pre ++ frame)) by (unfold PacketHeaderSize; try assumption; lia).
  replace (Z.to_nat (Z.of_nat (length pre) + (PacketHeaderSize + Z.of_nat (length body))
                     - (Z.of_nat (length pre) + PacketHeaderSize)))
    with (length body) by (unfold PacketHeaderSize; lia).
  replace (Z.to_nat (Z.of_nat (length pre) + PacketHeaderSize)) with (length pre + 5)%nat
    by (unfold PacketHeaderSize; lia).
  replace (skipn (length pre + 5) (pre ++ frame)) with body.
  2:{ rewrite Nat.add_comm, <- skipn_skipn.
      rewrite skipn_app, skipn_all, Nat.sub_diag. cbn [skipn app]. symmetry; exact Hbody. }
  rewrite firstn_all, Hcomp.
  assert (Hsticky :
            (match CompressionType_name ct with Some _ => true | None => false end)
            && negb (ct =? 0) = (ct =? CompressionType_SNAPPY)).
  { unfold CompressionType_name, CompressionType_SNAPPY.
    destruct (Z.eqb_spec ct 0) as [-> | H0]; [reflexivity |].
    destruct (Z.eqb_spec ct 1); reflexivity. }
  rewrite Hsticky.
  set (c0 := if ct =? CompressionType_SNAPPY then set_compressionType ct c else c).
  assert (Hc0 : compressionType c0 = (if ct =? CompressionType_SNAPPY then ct else compressionType c)
                /\ readPos c0 = readPos c /\ replaySession c0 = replaySession c
                /\ isPacketRecordingEnabled g c0 = isPacketRecordingEnabled g c
                /\ readBuffer c0 = readBuffer c).
  { subst c0. destruct (ct =? CompressionType_SNAPPY); repeat split. }
  destruct Hc0 as (Hc0ct & Hc0pos & Hc0session & Hc0rec & Hc0buf).
  assert (Hgate : (ct =? CompressionType_SNAPPY) && (compressionType c0 =? CompressionType_SNAPPY)
                  = (ct =? CompressionType_SNAPPY)).
  { rewrite Hc0ct. destruct (Z.eqb_spec ct CompressionType_SNAPPY) as [-> | Hne]; reflexivity. }
  rewrite Hgate, Hraw, Hp.
  assert (Hrecorded : exists c2,
             (if isPacketRecordingEnabled g c0 then recordPacket g c0 (wf_packet f) else Ok c0) = Ok c2 /\
             readPos c2 = readPos c0 /\ readBuffer c2 = readBuffer c0 /\
             (isPacketRecordingEnabled g c2 = true -> replaySession c2 <> None)).
  { rewrite Hc0rec. destruct (isPacketRecordingEnabled g c) eqn:Hon.
    - unfold recordPacket. rewrite Hc0session.
      destruct (replaySession c) as [packets |] eqn:Hs; [| exfalso; now apply Hrec].
      eexists. split; [reflexivity |]. repeat split. intros _. discriminate.
    - exists c0. repeat split. rewrite Hc0rec. congruence. }
  destruct Hrecorded as (c2 & -> & Hc2pos & Hc2buf & Hc2rec).
  destruct (receiveMessages_gate_fields g (Packet.Messages (wf_packet f)) c2)
    as (f' & n & Hf).
  pose proof (receiveMessages_no_packet g (Packet.Messages (wf_packet f)) c2) as Hnone.
  destruct (receiveMessages g c2 (Packet.Messages (wf_packet f))) as [c3 evs3].
  cbn [fst snd] in *. subst c3.
  eexists _, _. split; [rewrite Hlpf, <- Z.add_assoc; reflexivity |].
  split; [| split; [| split]].
  - change (packets_of (EvPacketReceived (id c) (wf_packet f) :: evs3))
      with (wf_packet f :: packets_of evs3).
    now rewrite Hnone.
  - change (readPos (set_fsmDisallowedCounter n (set_fsm f' c2))) with (readPos c2). congruence.
  - change (readBuffer (set_fsmDisallowedCounter n (set_fsm f' c2))) with (readBuffer c2). congruence.
  - exact Hc2rec.
Qed.

Lemma receiveLoop_frames (frames : list WireFrame) : forall fuel pre c,
  Forall well_formed frames ->
  (length frames <= fuel)%nat ->
  firstn (length (pre ++ wire_of frames)) (readBuffer c) = pre ++ wire_of frames ->
  readPos c = Z.of_nat (length (pre ++ wire_of frames)) ->
  Z.of_nat (length (pre ++ wire_of frames)) < Z.of_nat (length (readBuffer c)) ->
  (isPacketRecordingEnabled g c = true -> replaySession c <> None) ->
  exists c' evs,
    receiveLoop fuel g c (Z.of_nat (length pre)) = Some (Ok (c', evs)) /\
    packets_of evs = map wf_packet frames /\
    readPos c' = 0.
Proof.
  induction frames as [| f rest IH]; intros fuel pre c Hwf Hfuel Hbuf Hpos Hroom Hrec.
  - cbn [wire_of flat_map] in Hpos. rewrite app_nil_r in Hpos.
    destruct fuel; cbn [receiveLoop]; rewrite Hpos, Z.ltb_irrefl;
      eexists _, _; repeat split.
  - inversion Hwf as [| ? ? Hf Hrest]; subst.
    change (wire_of (f :: rest)) with (frame_of (wf_compression f) (wf_body f) ++ wire_of rest) in *.
    set (frame := frame_of (wf_compression f) (wf_body f)) in *.
    assert (Hframe : (5 <= length frame)%nat)
      by (subst frame; unfold frame_of; rewrite length_app; cbn; lia).
    rewrite app_assoc in Hbuf, Hpos, Hroom.
    assert (Hlens : (length (pre ++ frame) <= length ((pre ++ frame) ++ wire_of rest))%nat)
      by (rewrite (length_app (pre ++ frame)); lia).
    destruct (readPacket_at f pre c Hf) as (c1 & evs1 & Hread & Hpackets & Hpos1 & Hbuf1 & Hrec1).
    { fold frame.
      replace (firstn (length (pre ++ frame)) (readBuffer c))
        with (firstn (length (pre ++ frame))
                (firstn (length ((pre ++ frame) ++ wire_of rest)) (readBuffer c)))
        by (rewrite firstn_firstn; f_equal; lia).
      rewrite Hbuf. rewrite firstn_app, firstn_all, Nat.sub_diag. cbn [firstn]. apply app_nil_r. }
    { fold frame. lia. }
    { fold frame. lia. }
    { exact Hrec. }
    fold frame in Hread.
    destruct fuel as [| fuel]; [cbn in Hfuel; lia |].
    cbn [receiveLoop].
    replace (Z.of_nat (length pre) <? readPos c) with true
      by (symmetry; apply Z.ltb_lt; rewrite Hpos, !length_app; lia).
    rewrite Hread.
    destruct (IH fuel (pre ++ frame) c1 Hrest) as (c' & evs & Hloop & Hps & Hpos').
    { cbn in Hfuel. lia. }
    { rewrite Hbuf1. exact Hbuf. }
    { rewrite Hpos1. exact Hpos. }
    { rewrite Hbuf1. exact Hroom. }
    { exact Hrec1. }
    rewrite Hloop. eexists _, _. split; [reflexivity |].
    split; [| exact Hpos'].
    rewrite !packets_of_app, Hpackets, Hps.
    destruct (Z.of_nat (length (pre ++ frame)) <? readPos c1); reflexivity.
Qed.

End Coalesced.

Section CoalescedTheorem.
Context `{E : Externals}.

(** X4. Any number of well-formed frames that arrive back to back in one
    read, on a connection whose buffer is empty and longer than the read,
    are all dispatched, once each and in the order of arrival; the cursor
    is back at 0 afterwards. *)
Theorem frames_in_one_read_are_dispatched_in_order
    (g : Globals) (c : Connection) (frames : list WireFrame) :
  Forall well_formed frames ->
  readPos c = 0 ->
  Z.of_nat (length (wire_of frames)) < Z.of_nat (length (readBuffer c)) ->
  (isPacketRecordingEnabled g c = true -> replaySession c <> None) ->
  exists c' evs,
    receiveData g c (wire_of frames) = Some (Ok (c', evs)) /\
    packets_of evs = map wf_packet frames /\
    readPos c' = 0.
Proof.
  intros Hwf Hpos Hroom Hrec.
  destruct (read_into_prefix (readBuffer c) [] (wire_of frames) eq_refl ltac:(cbn [length]; lia))
    as (Hnew & Hsame & Hread).
  cbn [length app] in Hnew, Hsame, Hread. change (Z.of_nat 0) with 0 in *.
  unfold receiveData. rewrite !Hpos. rewrite slice_Some by lia.
  rewrite Hread. set (c1 := set_readPos _ _).
  change (readPos c1) with (0 + Z.of_nat (length (wire_of frames))).
  rewrite Z.add_0_l.
  destruct (Z.ltb_spec (Z.of_nat (length (wire_of frames))) PacketHeaderSize) as [Hshort | Hlong].
  - destruct frames as [| f rest].
    + eexists _, _. split; [reflexivity |]. split; reflexivity.
    + exfalso. cbn [wire_of flat_map] in Hshort. unfold frame_of in Hshort.
      rewrite !length_app in Hshort. unfold PacketHeaderSize in Hshort. cbn [length Header.encode] in Hshort. lia.
  - assert (Hcount : (length frames <= receive_fuel c1)%nat).
    { unfold receive_fuel. change (readPos c1) with (0 + Z.of_nat (length (wire_of frames))).
      rewrite Z.add_0_l, Nat2Z.id.
      clear. induction frames as [| f rest IH]; cbn [length wire_of flat_map]; [lia |].
      unfold frame_of at 1. rewrite !length_app. cbn [length Header.encode].
      change (flat_map _ rest) with (wire_of rest). lia. }
    apply (receiveLoop_frames g frames (receive_fuel c1) [] c1 Hwf Hcount).
    + exact Hnew.
    + cbn [app]. change (readPos c1) with (0 + Z.of_nat (length (wire_of frames))). lia.
    + change (readBuffer c1) with (read_into (readBuffer c) 0 (wire_of frames)).
      cbn [app]. lia.
    + exact Hrec.
Qed.

End CoalescedTheorem.

(** ** Dispatch and recording *)

Section RecordingFacts.
Context `{E : Externals}.
Variable g : Globals.

Ltac cases_of H :=
  repeat match type of H with
         | context [match ?x with _ => _ end] =>
             let Heq := fresh "Heq" in destruct x eqn:Heq; try discriminate H
         end.

Lemma queued_of_app evs1 evs2 : queued_of (evs1 ++ evs2) = queued_of evs1 ++ queued_of evs2.
Proof. unfold queued_of. apply flat_map_app. Qed.

Lemma subsequence_refl {A} (l : list A) : subsequence l l.
Proof. induction l; constructor; assumption. Qed.

Lemma disallowed_of_app evs1 evs2 :
  disallowed_of (evs1 ++ evs2) = (disallowed_of evs1 + disallowed_of evs2)%nat.
Proof. unfold disallowed_of. rewrite flat_map_app, length_app. reflexivity. Qed.

(** One message: it is dropped without a trace, or dropped with one
    broadcast of the disallowed event, or queued. *)
Lemma receiveMessage_queues_at_most_itself c mp :
  let '(c', evs) := receiveMessage g c mp in
  (queued_of evs = [] /\ disallowed_of evs = 0%nat /\ c' = c) \/
  (queued_of evs = [] /\ disallowed_of evs = 1%nat /\ c' = FsmDisallowed_listener c) \/
  (queued_of evs = [mp] /\ disallowed_of evs = 0%nat
   /\ c' = set_fsm (fsm_OnReceived (fsm c) (MessagePack.MsgType mp)) c
   /\ fsm_IsAllowed (fsm c) (MessagePack.MsgType mp) = true
   /\ GetChannel g (MessagePack.ChannelId mp) = true).
Proof.
  unfold receiveMessage.
  destruct (GetChannel g (MessagePack.ChannelId mp)); cbn [negb]; [| left; repeat split].
  destruct (_ && _); [left; repeat split |].
  destruct (fsm_IsAllowed (fsm c) (MessagePack.MsgType mp)); cbn [negb];
    [| right; left; repeat split].
  match goal with
  | |- let '(_, _) := match ?d with _ => _ end in _ => destruct d as [[msg handler] |]
  end.
  - right; right. repeat split.
  - left. repeat split.
Qed.

(** What one call of [readPacket] does to the replay session. *)
Lemma readPacket_session c bufPos c1 bufPos1 r evs :
  readPacket g c bufPos = Ok (c1, bufPos1, r, evs) -> session_grows g c c1 evs.
Proof.
  unfold readPacket, session_grows. intros H.
  assert (Hnothing : forall c0 evs0,
             connectionType c0 = connectionType c -> replaySession c0 = replaySession c ->
             packets_of evs0 = [] ->
             connectionType c0 = connectionType c /\
             (isPacketRecordingEnabled g c = false -> replaySession c0 = replaySession c) /\
             (forall s, isPacketRecordingEnabled g c = true -> replaySession c = Some s ->
                exists s1, replaySession c0 = Some (s ++ s1) /\
                           map ReplayPacket.Packet s1 = packets_of evs0 /\
                           map ReplayPacket.OffsetTime s1
                           = recorded_times g (length s) (length s1))).
  { intros c0 evs0 Hct Hs Hp. split; [exact Hct |]. split; [intros _; exact Hs |].
    intros s _ Hsome. exists []. rewrite app_nil_r, Hs, Hp. repeat split. exact Hsome. }
  destruct (slice (readBuffer c) bufPos (bufPos + PacketHeaderSize)) as [tag |];
    [| discriminate].
  destruct (negb (nth 0%nat tag 0 =? 67));
    [inversion H; apply Hnothing; reflexivity |].
  destruct (MaxPacketSize <? Header.packetSize tag);
    [inversion H; apply Hnothing; reflexivity |].
  destruct (readPos c <? PacketHeaderSize + Header.packetSize tag);
    [inversion H; subst; apply Hnothing; reflexivity |].
  destruct (Z.of_nat (length (readBuffer c)) <=? _);
    [inversion H; apply Hnothing; reflexivity |].
  destruct (slice (readBuffer c) _ _) as [bytes |]; [| discriminate].
  match type of H with
  | context [if ?s then set_compressionType ?ct c else c] =>
      remember (if s then set_compressionType ct c else c) as c0 eqn:Hc0;
      assert (Hsame : connectionType c0 = connectionType c
                      /\ replaySession c0 = replaySession c
                      /\ isPacketRecordingEnabled g c0 = isPacketRecordingEnabled g c)
        by (subst c0; destruct s; repeat split);
      clear Hc0
  end.
  destruct Hsame as (Hct0 & Hs0 & Hrec0).
  cases_of H; inversion H; subst; clear H; try (apply Hnothing; auto; fail).
  match goal with
  | Hm : receiveMessages _ ?c2 ?mps = (_, _) |- _ =>
      destruct (receiveMessages_gate_fields g mps c2) as (f & n & Hf);
      pose proof (receiveMessages_no_packet g mps c2) as Hnone;
      rewrite Hm in Hf, Hnone; cbn [fst snd] in Hf, Hnone; subst
  end.
  change (packets_of (EvPacketReceived (id c) ?p :: ?l)) with (p :: packets_of l).
  rewrite Hnone.
  match goal with
  | Hr : (if ?b then recordPacket _ _ _ else Ok _) = Ok _ |- _ =>
      rewrite Hrec0 in Hr; destruct (isPacketRecordingEnabled g c) eqn:Hon
  end.
  - match goal with Hr : recordPacket _ _ _ = Ok _ |- _ => unfold recordPacket in Hr end.
    rewrite Hs0 in *.
    destruct (replaySession c) as [s |] eqn:Hs; [| discriminate].
    match goal with Hr : Ok _ = Ok _ |- _ => inversion Hr; subst; clear Hr end.
    split; [exact Hct0 |]. split; [discriminate |].
    intros s' _ Hsome. inversion Hsome; subst.
    eexists [_]. split; [reflexivity |]. split; [reflexivity |].
    reflexivity.
  - match goal with Hr : Ok _ = Ok _ |- _ => inversion Hr; subst; clear Hr end.
    split; [exact Hct0 |]. split; [intros _; exact Hs0 | discriminate].
Qed.

Lemma session_grows_nothing c c1 evs :
  connectionType c1 = connectionType c -> replaySession c1 = replaySession c ->
  packets_of evs = [] -> session_grows g c c1 evs.
Proof.
  intros Hct Hs Hp. split; [exact Hct |]. split; [intros _; exact Hs |].
  intros s _ Hsome. exists []. rewrite app_nil_r, Hs, Hp. repeat split. exact Hsome.
Qed.

Lemma recorded_times_app first n m :
  recorded_times g first n ++ recorded_times g (first + n) m = recorded_times g first (n + m).
Proof. unfold recorded_times. rewrite seq_app, map_app. reflexivity. Qed.

Lemma session_grows_trans c c1 c2 evs1 evs2 :
  session_grows g c c1 evs1 -> session_grows g c1 c2 evs2 ->
  session_grows g c c2 (evs1 ++ evs2).
Proof.
  intros (Hct1 & Hoff1 & Hon1) (Hct2 & Hoff2 & Hon2).
  assert (Hsame : isPacketRecordingEnabled g c1 = isPacketRecordingEnabled g c)
    by (unfold isPacketRecordingEnabled; rewrite Hct1; reflexivity).
  rewrite Hsame in Hoff2, Hon2.
  split; [congruence |]. split.
  - intros Hoff. rewrite Hoff2, Hoff1 by exact Hoff. reflexivity.
  - intros s Hon Hs.
    destruct (Hon1 s Hon Hs) as (s1 & Hs1 & Hp1 & Ht1).
    destruct (Hon2 (s ++ s1) Hon Hs1) as (s2 & Hs2 & Hp2 & Ht2).
    exists (s1 ++ s2). rewrite Hs2, app_assoc. split; [reflexivity |].
    rewrite !map_app, Hp1, Hp2, Ht1, Ht2, packets_of_app.
    split; [reflexivity |].
    rewrite (length_app s s1), (length_app s1 s2). apply recorded_times_app.
Qed.

Lemma receiveLoop_session fuel : forall c bufPos c1 evs,
  receiveLoop fuel g c bufPos = Some (Ok (c1, evs)) -> session_grows g c c1 evs.
Proof.
  induction fuel as [| fuel IH]; intros c bufPos c1 evs; cbn [receiveLoop];
    destruct (bufPos <? readPos c); try discriminate;
    try (intros H; inversion H; apply session_grows_nothing; reflexivity).
  destruct (readPacket g c bufPos) as [[[[c' bufPos'] [p |]] evs'] |] eqn:Hread;
    try discriminate.
  - destruct (receiveLoop fuel g c' bufPos') as [[[c2 evs2] |] |] eqn:Hloop;
      try discriminate.
    intros H; inversion H; subst.
    eapply session_grows_trans; [eapply readPacket_session; eauto |].
    replace ((if bufPos' <? readPos c' then [EvCombinedPacket (id c')] else []) ++ evs2)
      with ([] ++ (if bufPos' <? readPos c' then [EvCombinedPacket (id c')] else []) ++ evs2)
      by reflexivity.
    eapply session_grows_trans; [| eapply session_grows_trans; [| eapply IH; eauto]];
      apply session_grows_nothing; try reflexivity.
    destruct (bufPos' <? readPos c'); reflexivity.
  - intros H; inversion H; subst. eapply readPacket_session; eauto.
Qed.

Lemma receiveData_session c data c1 evs :
  receiveData g c data = Some (Ok (c1, evs)) -> session_grows g c c1 evs.
Proof.
  unfold receiveData. destruct (slice _ _ _); [| discriminate].
  set (c0 := set_readPos _ _).
  assert (H0 : session_grows g c c0 []) by (apply session_grows_nothing; reflexivity).
  destruct (readPos c0 <? PacketHeaderSize).
  - intros H; inversion H; subst. apply session_grows_nothing; reflexivity.
  - intros H. apply receiveLoop_session in H.
    apply (session_grows_trans _ _ _ _ _ H0 H).
Qed.

Lemma receiveAll_session reads : forall c c1 evs,
  receiveAll g c reads = Some (Ok (c1, evs)) -> session_grows g c c1 evs.
Proof.
  induction reads as [| data rest IH]; intros c c1 evs; cbn [receiveAll].
  - intros H; inversion H; subst. apply session_grows_nothing; reflexivity.
  - destruct (receiveData g c data) as [[[c' evs'] |] |] eqn:Hdata; try discriminate.
    destruct (receiveAll g c' rest) as [[[c2 evs2] |] |] eqn:Hrest; try discriminate.
    intros H; inversion H; subst.
    eapply session_grows_trans; [eapply receiveData_session | eapply IH]; eauto.
Qed.

End RecordingFacts.

Section ReceiveTheorems.
Context `{E : Externals}.

(** X11. The messages of one packet that reach a channel queue are some
    of the packet's messages, in the packet's order, each addressed to a
    channel that exists; every message of the packet is queued, or
    answered with one broadcast of the disallowed event, or dropped
    silently; the connection's state machine has seen exactly the queued
    messages, in that order; and nothing else of the connection has
    changed but the disallowed counter, which the listener of the event
    (counting, as the spec has it) has raised by the number of
    broadcasts. *)
Theorem queued_messages_follow_the_packet_and_drive_the_fsm
    (g : Globals) (c : Connection) (mps : list MessagePack.t) :
  let evs := snd (receiveMessages g c mps) in
  let queued := queued_of evs in
  subsequence queued mps /\
  Forall (fun mp => GetChannel g (MessagePack.ChannelId mp) = true) queued /\
  (length queued + disallowed_of evs <= length mps)%nat /\
  fst (receiveMessages g c mps)
  = set_fsmDisallowedCounter (fsmDisallowedCounter c + Z.of_nat (disallowed_of evs))
      (set_fsm (fsm_after (fsm c) queued) c).
Proof.
  cbv zeta. revert c.
  induction mps as [| mp rest IH]; intros c; cbn [receiveMessages].
  - cbn. split; [constructor |]. split; [constructor |]. split; [lia |].
    rewrite Z.add_0_r. destruct c; reflexivity.
  - pose proof (receiveMessage_queues_at_most_itself g c mp) as Hone.
    destruct (receiveMessage g c mp) as [c1 evs1].
    destruct (IH c1) as (Hsub & Hchan & Hcount & Hconn).
    destruct (receiveMessages g c1 rest) as [c2 evs2]. cbn [fst snd] in *.
    rewrite queued_of_app, disallowed_of_app.
    destruct Hone as [(-> & -> & ->) | [(-> & -> & ->) | (-> & -> & -> & _ & Hch)]];
      cbn [app length Nat.add].
    + split; [constructor; exact Hsub |]. split; [exact Hchan |]. split; [lia |].
      exact Hconn.
    + split; [constructor; exact Hsub |]. split; [exact Hchan |]. split; [lia |].
      rewrite Hconn. unfold FsmDisallowed_listener, set_fsmDisallowedCounter, set_fsm.
      cbn. f_equal. lia.
    + split; [constructor; exact Hsub |]. split; [constructor; assumption |].
      split; [lia |]. rewrite Hconn. reflexivity.
Qed.

(** X10. On a connection that records packets, over any run of reads that
    does not panic: the replay session grows by exactly the packets that
    were dispatched, once each and in the order of dispatch, and the
    packet recorded at position k of the session carries the clock reading
    taken for position k, as an int64. *)
Theorem every_dispatched_packet_is_recorded_once_in_order
    (g : Globals) (c c' : Connection) (reads : list (list Z)) (evs : list Event)
    (s : list ReplayPacket.t) :
  isPacketRecordingEnabled g c = true ->
  replaySession c = Some s ->
  receiveAll g c reads = Some (Ok (c', evs)) ->
  exists s1,
    replaySession c' = Some (s ++ s1) /\
    map ReplayPacket.Packet s1 = packets_of evs /\
    map ReplayPacket.OffsetTime s1 = recorded_times g (length s) (length s1).
Proof.
  intros Hon Hs Hrun.
  destruct (receiveAll_session g reads c c' evs Hrun) as (_ & _ & Hgrow).
  exact (Hgrow s Hon Hs).
Qed.

End ReceiveTheorems.

(** ** A frame that does not fit the buffer *)

Section Stall.
Context `{E : Externals}.
Variable g : Globals.

(** A buffer that is full and starts with the header of a frame that does
    not fit: a read takes no byte and [readPacket] reports the frame
    unfinished. *)
Lemma receiveData_full_buffer c n ct data :
  readPos c = Z.of_nat (length (readBuffer c)) ->
  (5 <= length (readBuffer c))%nat ->
  firstn 5 (readBuffer c) = Header.encode n ct ->
  0 <= n <= MaxPacketSize -> 0 <= ct < 256 -> ~ (0x4E00 <= n <= 0x4EFF) ->
  Z.of_nat (length (readBuffer c)) < PacketHeaderSize + n ->
  exists c',
    receiveData g c data = Some (Ok (c', [EvFragmentedPacket (id c)])) /\
    readPos c' = readPos c /\ readBuffer c' = readBuffer c /\ id c' = id c.
Proof.
  intros Hpos Hbuf Htag Hn Hct Hband Hlong.
  pose proof (header_round_trip n ct Hn Hct Hband) as Hrt.
  unfold Header.decode in Hrt. injection Hrt as Hsize _.
  unfold receiveData. rewrite slice_Some by lia.
  assert (Hread : bytes_read (readBuffer c) (readPos c) data = 0).
  { unfold bytes_read. rewrite Hpos, Z.sub_diag. reflexivity. }
  assert (Hinto : read_into (readBuffer c) (readPos c) data = readBuffer c).
  { unfold read_into. rewrite Hpos, Z.sub_diag, Nat2Z.id. cbn [Z.to_nat firstn length app].
    rewrite Nat.add_0_r. apply firstn_skipn. }
  rewrite Hread, Hinto, Z.add_0_r.
  set (c1 := set_readPos _ _).
  change (readPos c1) with (readPos c).
  replace (readPos c <? PacketHeaderSize) with false
    by (symmetry; apply Z.ltb_ge; unfold PacketHeaderSize; lia).
  unfold receive_fuel. cbn [receiveLoop]. change (readPos c1) with (readPos c).
  replace (0 <? readPos c) with true by (symmetry; apply Z.ltb_lt; lia).
  unfold readPacket. change (readBuffer c1) with (readBuffer c).
  rewrite slice_Some by (unfold PacketHeaderSize; lia).
  change (Z.to_nat (0 + PacketHeaderSize - 0)) with 5%nat.
  change (Z.to_nat 0) with 0%nat. rewrite skipn_O, Htag.
  change (nth 0%nat (Header.encode n ct) 0) with 67.
  change (negb (67 =? 67)) with false. cbv iota.
  rewrite Hsize.
  replace (MaxPacketSize <? n) with false by (symmetry; apply Z.ltb_ge; lia).
  change (readPos c1) with (readPos c).
  replace (readPos c <? PacketHeaderSize + n) with true by (symmetry; apply Z.ltb_lt; lia).
  exists c1. repeat split.
Qed.

Lemma receiveAll_full_buffer n ct reads : forall c,
  readPos c = Z.of_nat (length (readBuffer c)) ->
  (5 <= length (readBuffer c))%nat ->
  firstn 5 (readBuffer c) = Header.encode n ct ->
  0 <= n <= MaxPacketSize -> 0 <= ct < 256 -> ~ (0x4E00 <= n <= 0x4EFF) ->
  Z.of_nat (length (readBuffer c)) < PacketHeaderSize + n ->
  exists c' evs,
    receiveAll g c reads = Some (Ok (c', evs)) /\
    packets_of evs = [] /\
    readPos c' = Z.of_nat (length (readBuffer c')) /\
    length (readBuffer c') = length (readBuffer c).
Proof.
  induction reads as [| data rest IH]; intros c Hpos Hbuf Htag Hn Hct Hband Hlong;
    cbn [receiveAll].
  - eexists _, _. split; [reflexivity |]. repeat split. exact Hpos.
  - destruct (receiveData_full_buffer c n ct data Hpos Hbuf Htag Hn Hct Hband Hlong)
      as (c1 & -> & Hpos1 & Hbuf1 & _).
    destruct (IH c1) as (c' & evs & -> & Hnone & Hpos' & Hlen'); try assumption.
    + rewrite Hpos1, Hbuf1. exact Hpos.
    + rewrite Hbuf1. exact Hbuf.
    + rewrite Hbuf1. exact Htag.
    + rewrite Hbuf1. exact Hlong.
    + eexists _, _. split; [reflexivity |].
      split; [exact Hnone |]. split; [exact Hpos' | congruence].
Qed.

End Stall.

Section StallTheorem.
Context `{E : Externals}.

(** X8. A well-formed frame that is longer than the read buffer is never
    dispatched: the first read fills the buffer, the frame counts as
    unfinished, and every later read finds no room, takes no byte and
    leaves the cursor at the end of the buffer; whatever is sent after it
    is not dispatched either. *)
Theorem frame_longer_than_the_buffer_is_never_delivered
    (g : Globals) (c : Connection) (ct : Z) (body : list Z) (reads : list (list Z)) :
  readPos c = 0 ->
  0 <= ct < 256 ->
  Z.of_nat (length body) <= MaxPacketSize ->
  ~ (0x4E00 <= Z.of_nat (length body) <= 0x4EFF) ->
  (5 <= length (readBuffer c))%nat ->
  (length (readBuffer c) < length (frame_of ct body))%nat ->
  exists c' evs,
    receiveAll g c (frame_of ct body :: reads) = Some (Ok (c', evs)) /\
    packets_of evs = [] /\
    readPos c' = Z.of_nat (length (readBuffer c')).
Proof.
  intros Hpos Hct Hlen Hband Hbuf Hlong.
  assert (Hframe : (length (frame_of ct body) = 5 + length body)%nat)
    by (unfold frame_of; rewrite length_app; reflexivity).
  destruct (first_read c (frame_of ct body) Hpos ltac:(lia) Hbuf)
    as (c1 & Hc1 & Hpos1 & Htag & Hsame & _ & Hfull).
  specialize (Hfull ltac:(lia)).
  assert (Hfirst : firstn 5 (frame_of ct body) = Header.encode (Z.of_nat (length body)) ct)
    by reflexivity.
  rewrite Hfirst in Htag.
  rewrite slice_Some in Htag by (unfold PacketHeaderSize; lia).
  change (Z.to_nat (0 + PacketHeaderSize - 0)) with 5%nat in Htag.
  change (Z.to_nat 0) with 0%nat in Htag. rewrite skipn_O in Htag.
  injection Htag as Htag.
  pose proof (header_round_trip (Z.of_nat (length body)) ct ltac:(lia) Hct Hband) as Hrt.
  unfold Header.decode in Hrt. injection Hrt as Hsize _.
  cbn [receiveAll].
  rewrite (receiveData_first_read g c _ c1 Hpos Hc1 Hpos1). cbn [receiveLoop].
  replace (0 <? readPos c1) with true by (symmetry; apply Z.ltb_lt; lia).
  unfold readPacket at 1. rewrite slice_Some by (unfold PacketHeaderSize; lia).
  change (Z.to_nat (0 + PacketHeaderSize - 0)) with 5%nat.
  change (Z.to_nat 0) with 0%nat. rewrite skipn_O, Htag.
  change (nth 0%nat (Header.encode (Z.of_nat (length body)) ct) 0) with 67.
  change (negb (67 =? 67)) with false. cbv iota.
  rewrite Hsize.
  replace (MaxPacketSize <? Z.of_nat (length body)) with false
    by (symmetry; apply Z.ltb_ge; lia).
  replace (readPos c1 <? PacketHeaderSize + Z.of_nat (length body)) with true
    by (symmetry; apply Z.ltb_lt; unfold PacketHeaderSize; lia).
  destruct (receiveAll_full_buffer g (Z.of_nat (length body)) ct reads c1)
    as (c' & evs & -> & Hnone & Hpos' & _); try assumption; try lia.
  - unfold PacketHeaderSize. lia.
  - eexists _, _. split; [reflexivity |]. split; [exact Hnone | exact Hpos'].
Qed.

End StallTheorem.

(** ** The outbound path *)

Section FlushMore.
Context `{E : Externals}.

Lemma packs_of_app l1 l2 : packs_of (l1 ++ l2) = packs_of l1 ++ packs_of l2.
Proof. unfold packs_of. apply flat_map_app. Qed.

(** The loop of [flush] serialises a prefix of the queue, drops at most the
    context that trips the size limit, and leaves the rest queued. *)
Lemma flushLoop_accounting queue : forall messages size,
  exists taken lost,
    queue = taken ++ lost ++ snd (flushLoop queue messages size) /\
    fst (flushLoop queue messages size) = messages ++ packs_of taken /\
    ((lost = [] /\ snd (flushLoop queue messages size) = []) \/ exists mc, lost = [mc]).
Proof.
  induction queue as [| mc rest IH]; intros messages size; cbn [flushLoop].
  - exists [], []. cbn. rewrite app_nil_r. auto.
  - destruct (0xfffff0 <=? size + proto_Size (MessageContext.Msg mc)).
    + exists [], [mc]. cbn. rewrite app_nil_r. eauto.
    + destruct (proto_Marshal (MessageContext.Msg mc)) as [body |] eqn:Hbody.
      * destruct (IH (messages ++ [pack_of mc body])
                     (proto_Size_Packet (Packet.mk (messages ++ [pack_of mc body]))))
          as (taken & lost & Hq & Hm & Hl).
        exists (mc :: taken), lost. cbn [app]. rewrite <- Hq.
        split; [reflexivity |]. split; [| exact Hl].
        rewrite Hm, <- app_assoc. cbn [packs_of flat_map]. rewrite Hbody. reflexivity.
      * destruct (IH messages size) as (taken & lost & Hq & Hm & Hl).
        exists (mc :: taken), lost. cbn [app]. rewrite <- Hq.
        split; [reflexivity |]. split; [| exact Hl].
        rewrite Hm. cbn [packs_of flat_map]. rewrite Hbody. reflexivity.
Qed.

Lemma flush_queue c : sendQueue (fst (flush c)) = snd (flushLoop (sendQueue c) [] 0).
Proof.
  unfold flush. destruct (sendQueue c) as [| mc rest] eqn:Hq; [exact Hq |].
  destruct (flushLoop (mc :: rest) [] 0) as [messages rest'].
  destruct (proto_Marshal_Packet _); reflexivity.
Qed.

Lemma receiveData_sendQueue g c data c1 evs :
  receiveData g c data = Some (Ok (c1, evs)) -> sendQueue c1 = sendQueue c.
Proof.
  unfold receiveData. destruct (slice _ _ _); [| discriminate].
  destruct (_ <? PacketHeaderSize).
  - intros H; inversion H. reflexivity.
  - intros H. apply receiveLoop_frame in H. destruct H as (_ & _ & H & _). exact H.
Qed.

Lemma runOp_queue_bound g c op c1 evs :
  runOp g c op = Some (Ok (c1, evs)) ->
  Z.of_nat (length (sendQueue c)) <= sendQueue_capacity ->
  Z.of_nat (length (sendQueue c1)) <= sendQueue_capacity.
Proof.
  destruct op as [data | ctx |]; cbn [runOp]; intros Hop Hbound.
  - apply receiveData_sendQueue in Hop. rewrite Hop. exact Hbound.
  - unfold Send, queuedMessageSender_Send in Hop.
    destruct (IsClosing c); [inversion Hop; subst; exact Hbound |].
    destruct (sendQueue_closed c); [discriminate |].
    destruct (Z.leb_spec sendQueue_capacity (Z.of_nat (length (sendQueue c))));
      inversion Hop; subst; [exact Hbound |].
    change (sendQueue (set_sendQueue ?q _)) with q.
    rewrite length_app. cbn [length]. lia.
  - inversion Hop as [Hflush].
    pose proof (flush_queue c) as Hq. rewrite Hflush in Hq. cbn [fst] in Hq.
    destruct (flushLoop_rest_suffix (sendQueue c) [] 0) as [taken Htaken].
    rewrite <- Hq in Htaken.
    assert (Hlen : (length (sendQueue c1) <= length (sendQueue c))%nat)
      by (apply (f_equal (@length _)) in Htaken; rewrite length_app in Htaken; lia).
    lia.
Qed.

(** X12. One call of [flush] splits the send queue in three: a first
    part whose contexts are serialised into the packet in queue order (those
    that fail to marshal left out), then at most one context that is taken
    out and lost because it trips the size limit, then the part that stays
    queued. When nothing trips the limit the queue is empty afterwards. *)
Theorem flush_sends_a_prefix_and_loses_at_most_one_context (c : Connection) :
  exists taken lost,
    sendQueue c = taken ++ lost ++ sendQueue (fst (flush c)) /\
    flushed_messages c = packs_of taken /\
    ((lost = [] /\ sendQueue (fst (flush c)) = []) \/ exists mc, lost = [mc]).
Proof.
  destruct (flushLoop_accounting (sendQueue c) [] 0) as (taken & lost & Hq & Hm & Hl).
  exists taken, lost. rewrite flush_queue. unfold flushed_messages.
  split; [exact Hq |]. split; [exact Hm | exact Hl].
Qed.

(** X13. Over any run of reads, sends and flushes on a connection, the
    send queue never holds more than the 128 contexts it was created for:
    [Send] adds one only below the capacity, [flush] only takes out, and
    the receive path does not touch the queue. *)
Theorem send_queue_never_exceeds_its_capacity
    (g : Globals) (ops : list ConnOp) (c c' : Connection) (evs : list Event) :
  Z.of_nat (length (sendQueue c)) <= sendQueue_capacity ->
  runOps g c ops = Some (Ok (c', evs)) ->
  Z.of_nat (length (sendQueue c')) <= sendQueue_capacity.
Proof.
  revert c c' evs. induction ops as [| op rest IH]; intros c c' evs Hbound; cbn [runOps].
  - intros H; inversion H; subst. exact Hbound.
  - destruct (runOp g c op) as [[[c1 evs1] |] |] eqn:Hop; try discriminate.
    destruct (runOps g c1 rest) as [[[c3 evs3] |] |] eqn:Hrest; try discriminate.
    intros H; inversion H; subst.
    eapply IH; [| exact Hrest]. eapply runOp_queue_bound; eauto.
Qed.

(** X14. What [flush] writes is one frame that the receive path of a peer
    takes in: when the packet marshals to a payload that unmarshals to the
    same packet (and, under SNAPPY, decompresses to itself), and its length
    can be carried by the header, a peer with an empty buffer longer than
    the frame dispatches exactly the flushed packet, however the frame is
    cut into reads. *)
Theorem what_flush_writes_the_receiver_dispatches
    (g : Globals) (sender receiver : Connection) (payload : list Z) :
  let ct := compressionType sender in
  let body := if ct =? CompressionType_SNAPPY then snappy_Encode payload else payload in
  sendQueue sender <> [] ->
  proto_Marshal_Packet (Packet.mk (flushed_messages sender)) = Some payload ->
  proto_Unmarshal_Packet payload = Some (Packet.mk (flushed_messages sender)) ->
  (ct = CompressionType_SNAPPY -> snappy_Decode (snappy_Encode payload) = Some payload) ->
  0 <= ct < 256 ->
  Z.of_nat (length body) <= MaxPacketSize ->
  ~ (0x4E00 <= Z.of_nat (length body) <= 0x4EFF) ->
  readPos receiver = 0 ->
  ready_for g (frame_of ct body) receiver ->
  exists bytes,
    writes_of (snd (flush sender)) = [bytes] /\
    forall chunks, concat chunks = bytes ->
      exists receiver' evs,
        receiveAll g receiver chunks = Some (Ok (receiver', evs)) /\
        packets_of evs = [Packet.mk (flushed_messages sender)] /\
        readPos receiver' = 0.
Proof.
  intros ct body Hq Hmarshal Hunmarshal Hsnappy Hct Hlen Hband Hpos Hready.
  exists (frame_of ct body). split.
  - rewrite (flush_writes sender payload Hq Hmarshal). reflexivity.
  - intros chunks Hchunks.
    destruct (receiveAll_assembles g ct body payload (Packet.mk (flushed_messages sender))
                Hct Hlen Hband) with (chunks := chunks) (pre := @nil Z) (c := receiver)
      as (r' & evs & Hrun & Hpackets & Hpos' & _).
    + subst body. destruct (Z.eqb_spec ct CompressionType_SNAPPY) as [Heq | Hne].
      * apply Hsnappy. exact Heq.
      * reflexivity.
    + exact Hunmarshal.
    + split; [exact Hpos | reflexivity].
    + exact Hready.
    + unfold frame_of. rewrite length_app. cbn. lia.
    + exact Hchunks.
    + exists r', evs. auto.
Qed.

End FlushMore.

(** ** The registries *)

Section RegistryFacts.
Context `{E : Externals}.

Lemma runCloseHandlers_emits handlers : forall w,
  exists evs, match runCloseHandlers handlers w with
              | Done _ w1 => w1 = emit evs w
              | Panicked w1 => w1 = emit evs w
              end.
Proof.
  induction handlers as [| [l | l] rest IH]; intros w; cbn [runCloseHandlers].
  - exists []. symmetry. apply emit_nil.
  - destruct (IH (emit [EvCloseHandler l] w)) as [evs Hevs].
    exists ([EvCloseHandler l] ++ evs). rewrite <- emit_emit.
    destruct (runCloseHandlers rest _); exact Hevs.
  - eexists. reflexivity.
Qed.

(** What [Close] can change: the connection it is called on, the entries
    of the two registries under that connection's id, and the trace. *)
Lemma Close_summary p w :
  (forall q, q <> p -> heap (Close p w) q = heap w q) /\
  id (heap (Close p w) p) = id (heap w p) /\
  heap_next (Close p w) = heap_next w /\
  nextConnectionId (Close p w) = nextConnectionId w /\
  globals (Close p w) = globals w /\
  ((allConnections (Close p w) = allConnections w /\
    unauthenticatedConnections (Close p w) = unauthenticatedConnections w) \/
   (allConnections (Close p w) = delete (id (heap w p)) (allConnections w) /\
    unauthenticatedConnections (Close p w)
    = delete (id (heap w p)) (unauthenticatedConnections w))).
Proof.
  unfold Close, Close_body.
  destruct (IsClosing (heap w p)); [repeat split; auto |].
  destruct (persistIfRecording (globals w) (heap w p)) as [[c1 evs] |] eqn:Hpersist;
    [| repeat split; auto].
  destruct (persistIfRecording_Ok _ _ _ _ Hpersist) as [s ->].
  destruct (runCloseHandlers_emits (closeHandlers (set_replaySession s (heap w p)))
              (emit evs (store p (set_replaySession s (heap w p)) w))) as [evs' Hevs].
  assert (Helse : forall q, q <> p -> (q =? p)%nat = false)
    by (intros q Hq; apply Nat.eqb_neq; exact Hq).
  destruct (runCloseHandlers _ _) as [[] w1 | w1]; subst w1.
  - unfold teardown. rewrite emit_emit.
    cbn [heap emit set_effects store set_heap]. rewrite Nat.eqb_refl.
    change (sendQueue_closed (set_conn_open false (set_state ConnectionState_CLOSING
              (set_replaySession s (heap w p))))) with (sendQueue_closed (heap w p)).
    destruct (sendQueue_closed (heap w p)); cbn.
    + rewrite Nat.eqb_refl. repeat split; auto.
      intros q Hq. rewrite (Helse q Hq). reflexivity.
    + rewrite Nat.eqb_refl. cbn. repeat split; auto.
      intros q Hq. rewrite (Helse q Hq). reflexivity.
  - rewrite emit_emit. cbn. rewrite Nat.eqb_refl. repeat split; auto.
    intros q Hq. rewrite (Helse q Hq). reflexivity.
Qed.

Lemma allocateConnId_only_counter remoteAddr clock maxConnId retries : forall tries w,
  exists n,
    match allocateConnId retries tries remoteAddr clock maxConnId w with
    | Done _ w1 => w1 = set_nextConnectionId n w /\ allConnections w !! n = None
    | Panicked w1 => w1 = set_nextConnectionId n w
    end.
Proof.
  assert (Hgen : forall now w, exists n,
             match generateNextConnId remoteAddr now maxConnId w with
             | Done _ w1 => w1 = set_nextConnectionId n w
             | Panicked w1 => w1 = set_nextConnectionId n w
             end).
  { intros now w. unfold generateNextConnId.
    destruct (Development _); [| eexists; reflexivity].
    cbv zeta. destruct (_ <=? _); eexists; reflexivity. }
  induction retries as [| retries IH]; intros tries w; cbn [allocateConnId];
    destruct (Hgen (clock tries) w) as [n Hn];
    destruct (generateNextConnId remoteAddr (clock tries) maxConnId w) as [[] w0 | w0];
    subst w0; try (exists n; reflexivity);
    change (allConnections (set_nextConnectionId n w)) with (allConnections w);
    change (nextConnectionId (set_nextConnectionId n w)) with n;
    destruct (allConnections w !! n) as [q |] eqn:Hlookup;
    try (exists n; split; [reflexivity | exact Hlookup]);
    try (exists n; reflexivity).
  destruct (IH (S tries) (set_nextConnectionId n w)) as [n' Hn'].
  exists n'. destruct (allocateConnId retries (S tries) remoteAddr clock maxConnId _) as [[] w1 | w1].
  - destruct Hn' as [-> Hfree]. split; [reflexivity | exact Hfree].
  - subst w1. reflexivity.
Qed.

(** What a successful [AddConnection] has done. *)
Lemma AddConnection_Done remoteAddr t clock w p w' :
  AddConnection remoteAddr t clock w = Done p w' ->
  p = heap_next w /\ heap_next w' = S p /\
  allConnections w !! id (heap w' p) = None /\
  allConnections w' = <[id (heap w' p) := p]> (allConnections w) /\
  (unauthenticatedConnections w' = unauthenticatedConnections w \/
   unauthenticatedConnections w'
   = <[id (heap w' p) := p]> (unauthenticatedConnections w)) /\
  (forall q, q <> p -> heap w' q = heap w q) /\
  state (heap w' p) = ConnectionState_UNAUTHENTICATED /\
  closeHandlers (heap w' p) = [] /\
  sendQueue_closed (heap w' p) = false /\
  (replaySession (heap w' p) = None -> isPacketRecordingEnabled (globals w') (heap w' p) = false) /\
  (replaySession (heap w' p) = None \/ replaySession (heap w' p) = Some []) /\
  effects w' = effects w /\ globals w' = globals w.
Proof.
  unfold AddConnection.
  destruct t; try discriminate.
  all: match goal with
       | |- context [allocateConnId 100 0 ?r ?k ?m ?w0] =>
           destruct (allocateConnId_only_counter r k m 100 0 w0) as [n Hn];
           destruct (allocateConnId 100 0 r k m w0) as [[] w1 | w1];
           try discriminate; destruct Hn as [-> Hfree]
       end.
  all: cbn [serverFsm clientFsm set_nextConnectionId].
  all: match goal with |- context [match ?f with Some _ => _ | None => _ end] =>
         destruct f; try discriminate end.
  all: intros H; inversion H; subst; clear H.
  all: cbv zeta.
  all: destruct (0 <? ConnectionAuthTimeoutMs (GlobalSettings (globals w))).
  all: cbn; rewrite Nat.eqb_refl; cbn.
  all: repeat split; auto.
  all: try (intros q Hq; apply Nat.eqb_neq in Hq; rewrite Hq; reflexivity).
  all: try (destruct (EnableRecordPacket _); auto; discriminate).
Qed.

End RegistryFacts.

Section RegistryTheorems.
Context `{E : Externals}.

Lemma registry_ok_Close_step p w : registry_ok w -> registry_ok (Close p w).
Proof.
  intros Hok k p0 Hlookup.
  destruct (Close_summary p w) as (Hheap & Hid & Hnext & _ & _ & Hall).
  assert (Hbefore : allConnections w !! k = Some p0).
  { destruct Hall as [[Hall _] | [Hall _]]; rewrite Hall in Hlookup; [exact Hlookup |].
    apply lookup_delete_Some in Hlookup. apply Hlookup. }
  destruct (Hok k p0 Hbefore) as [Hlt Hkey].
  rewrite Hnext. split; [exact Hlt |].
  destruct (Nat.eq_dec p0 p) as [-> | Hne]; [congruence |].
  rewrite Hheap by exact Hne. exact Hkey.
Qed.

Lemma registry_ok_AddConnection_step remoteAddr t clock w p w' :
  registry_ok w -> AddConnection remoteAddr t clock w = Done p w' -> registry_ok w'.
Proof.
  intros Hok Hadd k p0 Hlookup.
  destruct (AddConnection_Done _ _ _ _ _ _ Hadd)
    as (Hp & Hnext & Hfree & Hall & _ & Hheap & _).
  rewrite Hall in Hlookup. rewrite Hnext.
  apply lookup_insert_Some in Hlookup.
  destruct Hlookup as [[<- <-] | [Hne Hbefore]]; [split; [lia | reflexivity] |].
  destruct (Hok k p0 Hbefore) as [Hlt Hkey].
  split; [lia |]. rewrite Hheap by lia. exact Hkey.
Qed.

Lemma registry_ok_store p c w :
  id c = id (heap w p) -> registry_ok w -> registry_ok (store p c w).
Proof.
  intros Hid Hok k p0 Hlookup. destruct (Hok k p0 Hlookup) as [Hlt Hkey].
  split; [exact Hlt |]. cbn. destruct (Nat.eqb_spec p0 p) as [-> | Hne]; congruence.
Qed.

Lemma receiveData_id g c data c1 evs :
  receiveData g c data = Some (Ok (c1, evs)) -> id c1 = id c.
Proof.
  unfold receiveData. destruct (slice _ _ _); [| discriminate].
  destruct (_ <? PacketHeaderSize).
  - intros H; inversion H. reflexivity.
  - intros H. apply receiveLoop_frame in H. destruct H as (H & _). exact H.
Qed.

Lemma pending_ok_Close_step p w : pending_ok w -> pending_ok (Close p w).
Proof.
  intros Hok k p0 Hlookup.
  destruct (Close_summary p w) as (_ & _ & _ & _ & _ & Hreg).
  destruct Hreg as [[-> Hun] | [-> Hun]]; rewrite Hun in Hlookup.
  - apply Hok, Hlookup.
  - apply lookup_delete_Some in Hlookup. destruct Hlookup as [Hne Hlookup].
    rewrite lookup_delete_ne by exact Hne. apply Hok, Hlookup.
Qed.

Lemma pending_ok_AddConnection_step remoteAddr t clock w p w' :
  pending_ok w -> AddConnection remoteAddr t clock w = Done p w' -> pending_ok w'.
Proof.
  intros Hok Hadd k p0 Hlookup.
  destruct (AddConnection_Done _ _ _ _ _ _ Hadd)
    as (Hp & Hnext & Hfree & Hall & Hun & _).
  rewrite Hall.
  assert (Hold : unauthenticatedConnections w !! k = Some p0 ->
                 <[id (heap w' p) := p]> (allConnections w) !! k = Some p0).
  { intros Hbefore. pose proof (Hok k p0 Hbefore) as Hreg.
    rewrite lookup_insert_ne by congruence. exact Hreg. }
  destruct Hun as [Hun | Hun]; rewrite Hun in Hlookup; [exact (Hold Hlookup) |].
  apply lookup_insert_Some in Hlookup.
  destruct Hlookup as [[<- <-] | [_ Hbefore]]; [apply lookup_insert_eq | exact (Hold Hbefore)].
Qed.

Lemma pending_ok_step op w w' :
  pending_ok w -> runWorldOp op w = Some w' -> pending_ok w'.
Proof.
  intros Hok. destruct op as [remoteAddr t clock | p | p pit' | p | p r]; cbn [runWorldOp].
  - destruct (AddConnection remoteAddr t clock w) as [p w1 | w1] eqn:Hadd; [| discriminate].
    intros H; inversion H; subst. eapply pending_ok_AddConnection_step; eauto.
  - intros H; inversion H; subst. apply pending_ok_Close_step, Hok.
  - intros H; inversion H; subst. unfold OnAuthenticated.
    destruct (IsClosing (heap w p)); [exact Hok |].
    intros k p0 Hlookup. cbn in Hlookup.
    apply lookup_delete_Some in Hlookup. apply (Hok k p0), Hlookup.
  - intros H; inversion H; subst. exact Hok.
  - destruct r as [data |]; cbn [receive].
    + destruct (receiveData (globals w) (heap w p) data) as [[[c1 evs] |] |] eqn:Hdata;
        try discriminate.
      intros H; inversion H; subst. exact Hok.
    + intros H; inversion H; subst. apply pending_ok_Close_step, Hok.
Qed.

Lemma registry_ok_step op w w' :
  registry_ok w -> runWorldOp op w = Some w' -> registry_ok w'.
Proof.
  intros Hok. destruct op as [remoteAddr t clock | p | p pit' | p | p r]; cbn [runWorldOp].
  - destruct (AddConnection remoteAddr t clock w) as [p w1 | w1] eqn:Hadd; [| discriminate].
    intros H; inversion H; subst. eapply registry_ok_AddConnection_step; eauto.
  - intros H; inversion H; subst. apply registry_ok_Close_step, Hok.
  - intros H; inversion H; subst. unfold OnAuthenticated.
    destruct (IsClosing (heap w p)); [exact Hok |].
    apply registry_ok_store; [reflexivity |]. exact Hok.
  - intros H; inversion H; subst. unfold Disconnect.
    apply (registry_ok_store p (set_conn_open false (heap w p)) w eq_refl) in Hok. exact Hok.
  - destruct r as [data |]; cbn [receive].
    + destruct (receiveData (globals w) (heap w p) data) as [[[c1 evs] |] |] eqn:Hdata;
        try discriminate.
      intros H; inversion H; subst.
      apply receiveData_id in Hdata.
      apply (registry_ok_store p c1 w Hdata) in Hok. exact Hok.
    + intros H; inversion H; subst. apply registry_ok_Close_step, Hok.
Qed.

(** X18. Two invariants of the registries hold after any sequence of
    calls of [AddConnection], [Close], [OnAuthenticated], [Disconnect] and
    [receive] that does not panic: every entry of [allConnections] points
    to an allocated connection whose id is the entry's key, and every entry
    of [unauthenticatedConnections] is an entry of [allConnections]. *)
Theorem registries_stay_consistent
    (ops : list WorldOp) (w w' : World) :
  registry_ok w -> pending_ok w ->
  runWorldOps ops w = Some w' ->
  registry_ok w' /\ pending_ok w'.
Proof.
  revert w. induction ops as [| op rest IH]; intros w Hok Hpending; cbn [runWorldOps].
  - intros H; inversion H; subst. split; assumption.
  - destruct (runWorldOp op w) as [w1 |] eqn:Hop; [| discriminate].
    intros Hrest. eapply IH; [| | exact Hrest].
    + eapply registry_ok_step; eauto.
    + eapply pending_ok_step; eauto.
Qed.

(** X15. The steps of [Close] itself, on a connection that has no close
    handlers registered: whether the call completes or is ended by a panic
    (a missing replay session, a queue already closed), no other
    connection object is changed, no registry entry under another id, and
    [GetConnection] answers for every other id as before. *)
Theorem Close_leaves_the_other_connections_alone (p q : nat) (k : Z) (w : World) :
  registry_ok w ->
  closeHandlers (heap w p) = [] ->
  q <> p -> k <> id (heap w p) ->
  heap (Close p w) q = heap w q /\
  allConnections (Close p w) !! k = allConnections w !! k /\
  unauthenticatedConnections (Close p w) !! k = unauthenticatedConnections w !! k /\
  GetConnection k (Close p w) = GetConnection k w.
Proof.
  intros Hok _ Hq Hk.
  destruct (Close_summary p w) as (Hheap & Hid & Hnext & _ & _ & Hreg).
  assert (Hall' : allConnections (Close p w) !! k = allConnections w !! k).
  { destruct Hreg as [[-> _] | [-> _]]; [reflexivity |]. apply lookup_delete_ne. congruence. }
  assert (Hun' : unauthenticatedConnections (Close p w) !! k
                 = unauthenticatedConnections w !! k).
  { destruct Hreg as [[_ ->] | [_ ->]]; [reflexivity |]. apply lookup_delete_ne. congruence. }
  split; [apply Hheap, Hq |]. split; [exact Hall' |]. split; [exact Hun' |].
  unfold GetConnection. rewrite Hall'.
  destruct (allConnections w !! k) as [p0 |] eqn:Hlookup; [| reflexivity].
  destruct (Hok k p0 Hlookup) as [_ Hkey].
  rewrite Hheap by congruence. reflexivity.
Qed.

(** X19. The connection that [AddConnection] returns is found by
    [GetConnection] under its id, where nothing was found before, and
    [GetConnection] answers for every other id as it did before. *)
Theorem new_connection_is_found_and_the_others_stay
    (remoteAddr : string) (t : ConnectionType) (clock : nat -> Z)
    (w w' : World) (p : nat) :
  registry_ok w ->
  AddConnection remoteAddr t clock w = Done p w' ->
  GetConnection (id (heap w' p)) w' = Some p /\
  GetConnection (id (heap w' p)) w = None /\
  forall k, k <> id (heap w' p) -> GetConnection k w' = GetConnection k w.
Proof.
  intros Hok Hadd.
  destruct (AddConnection_Done _ _ _ _ _ _ Hadd)
    as (Hp & Hnext & Hfree & Hall & _ & Hheap & Hstate & _).
  unfold GetConnection. rewrite Hall, lookup_insert_eq, Hfree.
  unfold IsClosing at 1. rewrite Hstate. split; [reflexivity |]. split; [reflexivity |].
  intros k Hk. rewrite lookup_insert_ne by congruence.
  destruct (allConnections w !! k) as [p0 |] eqn:Hlookup; [| reflexivity].
  destruct (Hok k p0 Hlookup) as [Hlt _].
  rewrite Hheap by lia. reflexivity.
Qed.

(** X20. [Close] on a connection fresh from [AddConnection] completes,
    and leaves both registries as they were before [AddConnection]; the
    only effect is the closing of the socket. *)
Theorem AddConnection_then_Close_restores_the_registries
    (remoteAddr : string) (t : ConnectionType) (clock : nat -> Z)
    (w w' : World) (p : nat) :
  pending_ok w ->
  AddConnection remoteAddr t clock w = Done p w' ->
  allConnections (Close p w') = allConnections w /\
  unauthenticatedConnections (Close p w') = unauthenticatedConnections w /\
  effects (Close p w') = effects w ++ [EvConnClose (id (heap w' p))].
Proof.
  intros Hpending Hadd.
  destruct (AddConnection_Done _ _ _ _ _ _ Hadd)
    as (Hp & Hnext & Hfree & Hall & Hun & Hheap & Hstate & Hhandlers & Hqueue
        & Hrec & Hsession & Heffects & Hglobals).
  assert (Hsub : unauthenticatedConnections w !! id (heap w' p) = None).
  { destruct (unauthenticatedConnections w !! id (heap w' p)) as [p0 |] eqn:Hlookup;
      [| reflexivity].
    apply Hpending in Hlookup. congruence. }
  assert (Hopen : IsClosing (heap w' p) = false)
    by (unfold IsClosing; rewrite Hstate; reflexivity).
  assert (Hpersist : persistIfRecording (globals w') (heap w' p) = Ok (heap w' p, [])).
  { unfold persistIfRecording, persistReplaySession.
    destruct Hsession as [Hnone | Hempty].
    - rewrite (Hrec Hnone). reflexivity.
    - rewrite Hempty. destruct (isPacketRecordingEnabled _ _); reflexivity. }
  destruct (Close_body_completes p w' _ _ [] Hopen Hpersist Hhandlers Hqueue)
    as (w'' & Hbody & Htrace & Htorn).
  unfold Close. rewrite Hbody.
  destruct Htorn as (_ & _ & _ & _ & Hall'' & Hun'').
  rewrite Hall'', Hun'', Hall, Htrace, Heffects.
  split; [apply delete_insert_id; exact Hfree |].
  split; [| reflexivity].
  destruct Hun as [-> | ->].
  - apply delete_id, Hsub.
  - apply delete_insert_id, Hsub.
Qed.

(** X21. When [AddConnection] panics (invalid type, no free id, no state
    machine template), no connection has been allocated or registered and
    no effect has happened; only the id counter may have moved. *)
Theorem AddConnection_that_panics_registers_nothing
    (remoteAddr : string) (t : ConnectionType) (clock : nat -> Z) (w w' : World) :
  AddConnection remoteAddr t clock w = Panicked w' ->
  allConnections w' = allConnections w /\
  unauthenticatedConnections w' = unauthenticatedConnections w /\
  heap w' = heap w /\ heap_next w' = heap_next w /\ effects w' = effects w.
Proof.
  unfold AddConnection.
  destruct t.
  1: intros H; inversion H; subst; repeat split.
  all: match goal with
       | |- context [allocateConnId 100 0 ?r ?k ?m ?w0] =>
           destruct (allocateConnId_only_counter r k m 100 0 w0) as [n Hn];
           destruct (allocateConnId 100 0 r k m w0) as [[] w1 | w1];
           [destruct Hn as [-> Hfree] | subst w1]
       end.
  all: cbn [serverFsm clientFsm set_nextConnectionId].
  all: try match goal with |- context [match ?f with Some _ => _ | None => _ end] =>
         destruct f; try discriminate end.
  all: intros H; inversion H; subst; repeat split.
Qed.

End RegistryTheorems.

(** ** Replay offsets *)

Section ReplayMore.
Context `{E : Externals}.

Lemma int64_of_small d : 0 <= d < 2 ^ 63 -> int64_of d = d.
Proof.
  intros Hd. unfold int64_of. change (2 ^ 64) with (2 * 2 ^ 63).
  rewrite Z.mod_small by lia. lia.
Qed.

Lemma elapsed_rewriteOffsets packets : forall prev acc,
  0 <= prev -> recorded_in_order prev packets ->
  elapsed acc (rewriteOffsets prev packets)
  = map (fun q => acc + (ReplayPacket.OffsetTime q - prev)) packets /\
  map ReplayPacket.Packet (rewriteOffsets prev packets) = map ReplayPacket.Packet packets.
Proof.
  induction packets as [| q rest IH]; intros prev acc Hprev Horder;
    cbn [rewriteOffsets elapsed map]; [split; reflexivity |].
  destruct Horder as [Hq Hrest].
  cbn [ReplayPacket.OffsetTime ReplayPacket.Packet].
  rewrite int64_of_small by lia.
  destruct (IH (ReplayPacket.OffsetTime q) (acc + (ReplayPacket.OffsetTime q - prev))
              ltac:(lia) Hrest) as [Helapsed Hpackets].
  rewrite Helapsed, Hpackets. split; [| reflexivity].
  f_equal. apply map_ext. intros a. lia.
Qed.

(** X24. The offsets that [persistReplaySession] stores add up to the
    recorded times: for a session whose timestamps do not go back and fit
    an int64, the running total of the stored offsets up to a packet is that
    packet's recorded time minus the first packet's, and the packets are
    kept in order. *)
Theorem persisted_offsets_add_up_to_the_recorded_times
    (g : Globals) (c c' : Connection) (first : ReplayPacket.t)
    (rest : list ReplayPacket.t) (evs : list Event) :
  replaySession c = Some (first :: rest) ->
  0 <= ReplayPacket.OffsetTime first < 2 ^ 63 ->
  recorded_in_order (ReplayPacket.OffsetTime first) rest ->
  persistReplaySession g c = Ok (c', evs) ->
  exists packets,
    replaySession c' = Some packets /\
    elapsed 0 packets
    = map (fun q => ReplayPacket.OffsetTime q - ReplayPacket.OffsetTime first) (first :: rest) /\
    map ReplayPacket.Packet packets = map ReplayPacket.Packet (first :: rest).
Proof.
  intros Hsession Hfirst Horder Hpersist. unfold persistReplaySession in Hpersist.
  rewrite Hsession in Hpersist.
  destruct (elapsed_rewriteOffsets (first :: rest) (ReplayPacket.OffsetTime first) 0
              ltac:(lia)) as [Helapsed Hpackets].
  { split; [lia | exact Horder]. }
  exists (rewriteOffsets (ReplayPacket.OffsetTime first) (first :: rest)).
  split; [| split; [exact Helapsed | exact Hpackets]].
  destruct (proto_Marshal_ReplaySession _); inversion Hpersist; reflexivity.
Qed.

End ReplayMore.

(** ** Order of the steps of [Close] *)

Section CloseMore.
Context `{E : Externals}.

Lemma runCloseHandlers_Done_all handlers : forall w w1,
  runCloseHandlers handlers w = Done tt w1 ->
  exists labels, handlers = map HandlerReturns labels.
Proof.
  induction handlers as [| [l | l] rest IH]; intros w w1; cbn [runCloseHandlers].
  - intros _. exists []. reflexivity.
  - intros H. destruct (IH _ _ H) as [labels ->]. exists (l :: labels). reflexivity.
  - discriminate.
Qed.

Lemma persistIfRecording_events g c c1 evs :
  persistIfRecording g c = Ok (c1, evs) ->
  evs = [] \/ exists dir data, evs = [EvWriteFile dir (id c) data].
Proof.
  unfold persistIfRecording, persistReplaySession.
  destruct (isPacketRecordingEnabled g c); [| intros H; inversion H; auto].
  destruct (replaySession c) as [[| first rest] |]; try discriminate.
  - intros H; inversion H; auto.
  - destruct (proto_Marshal_ReplaySession _); intros H; inversion H; eauto.
Qed.

(** X16. A [Close] whose body runs to its end on a connection that was
    not closing has found only handlers that return, and its effects are,
    in this order: the replay file if one is written, every close handler
    in registration order, and then the closing of the socket. *)
Theorem completed_Close_ran_every_handler_before_closing_the_socket
    (p : nat) (w w' : World) :
  IsClosing (heap w p) = false ->
  Close_body p w = Done tt w' ->
  exists saved labels,
    closeHandlers (heap w p) = map HandlerReturns labels /\
    effects w' = effects w ++ saved ++ map EvCloseHandler labels
                   ++ [EvConnClose (id (heap w p))] /\
    (saved = [] \/ exists dir data, saved = [EvWriteFile dir (id (heap w p)) data]).
Proof.
  intros Hopen Hbody. pose proof Hbody as Hrun.
  unfold Close_body in Hrun. rewrite Hopen in Hrun.
  destruct (persistIfRecording (globals w) (heap w p)) as [[c1 evs] |] eqn:Hpersist;
    [| discriminate].
  destruct (persistIfRecording_Ok _ _ _ _ Hpersist) as [s Hc1].
  destruct (runCloseHandlers _ _) as [[] w1 | w1] eqn:Hhandlers; [| discriminate].
  destruct (runCloseHandlers_Done_all _ _ _ Hhandlers) as [labels Hlabels].
  destruct (runCloseHandlers_Done _ _ _ Hhandlers) as [evs' ->].
  assert (Hqueue : sendQueue_closed (heap w p) = false).
  { unfold teardown in Hrun. rewrite emit_emit in Hrun.
    cbn [heap emit set_effects store set_heap] in Hrun. rewrite Nat.eqb_refl in Hrun.
    subst c1.
    change (sendQueue_closed (set_conn_open false (set_state ConnectionState_CLOSING
              (set_replaySession s (heap w p))))) with (sendQueue_closed (heap w p)) in Hrun.
    destruct (sendQueue_closed (heap w p)); [discriminate | reflexivity]. }
  assert (Hhs : closeHandlers (heap w p) = map HandlerReturns labels)
    by (subst c1; exact Hlabels).
  destruct (Close_body_completes p w c1 evs labels Hopen Hpersist Hhs Hqueue)
    as (w'' & Hbody' & Htrace & _).
  rewrite Hbody in Hbody'. inversion Hbody'; subst w''.
  exists evs, labels. split; [exact Hhs |]. split; [exact Htrace |].
  eapply persistIfRecording_events; eauto.
Qed.

(** X17. The receive worker (lines 132-136) ends with the first read
    that fails, provided the [Close] that [receive] then calls completes:
    the state is that left by [Close], and the reads that would follow are
    not made. *)
Theorem receive_worker_stops_after_a_read_error
    (p : nat) (rest : list ReadResult) (w w' : World) :
  IsClosing (heap w p) = false ->
  Close_body p w = Done tt w' ->
  receiveWorker p (ReadError :: rest) w = Some (Done tt w').
Proof.
  intros Hopen Hbody. cbn [receiveWorker receive]. rewrite Hopen.
  unfold Close. rewrite Hbody.
  destruct (Close_body_Done p w w' Hopen Hbody) as (Hstate & _).
  destruct rest as [| r rest]; cbn [receiveWorker]; [reflexivity |].
  rewrite (IsClosing_CLOSING _ Hstate). reflexivity.
Qed.

End CloseMore.

(** ** Identity allocation, continued *)

Section IdMore.
Context `{E : Externals}.

Lemma allocateConnId_exhausted remoteAddr clock bits retries : forall tries w,
  1 <= bits <= 32 ->
  (forall k, 0 <= k <= Z.ones bits -> allConnections w !! k <> None) ->
  exists w1, allocateConnId retries tries remoteAddr clock (Z.ones bits) w = Panicked w1.
Proof.
  induction retries as [| retries IH]; intros tries w Hbits Htaken; cbn [allocateConnId];
    destruct (generateNextConnId remoteAddr (clock tries) (Z.ones bits) w)
      as [[] w0 | w0] eqn:Hgen; try (eexists; reflexivity);
    destruct (generateNextConnId_Done _ _ _ _ _ Hbits Hgen) as (n & -> & Hrange & _);
    change (allConnections (set_nextConnectionId n w)) with (allConnections w);
    change (nextConnectionId (set_nextConnectionId n w)) with n;
    destruct (allConnections w !! n) as [q |] eqn:Hlookup;
    try (exfalso; apply (Htaken n Hrange); exact Hlookup).
  - eexists; reflexivity.
  - apply IH; [exact Hbits |]. exact Htaken.
Qed.

(** X22. When every id of the configured width is registered,
    [AddConnection] panics, in development mode and in production mode
    alike. *)
Theorem AddConnection_panics_when_every_id_is_taken
    (remoteAddr : string) (t : ConnectionType) (clock : nat -> Z) (w : World) :
  1 <= MaxConnectionIdBits (GlobalSettings (globals w)) <= 32 ->
  (forall k, 0 <= k <= 2 ^ MaxConnectionIdBits (GlobalSettings (globals w)) - 1 ->
             allConnections w !! k <> None) ->
  exists w', AddConnection remoteAddr t clock w = Panicked w'.
Proof.
  intros Hbits Htaken. unfold AddConnection.
  destruct t; [eexists; reflexivity | |].
  all: rewrite (maxConnId_of_ones _ Hbits).
  all: destruct (allocateConnId_exhausted remoteAddr clock _ 100 0 w Hbits) as [w1 ->];
    [intros k Hk; apply Htaken; rewrite Z.ones_equiv in Hk; lia | eexists; reflexivity].
Qed.

(** X23. In development mode, as long as the counter has not wrapped, a
    successful [AddConnection] gives the new connection the id that
    follows the counter, when that id is free, and leaves the counter
    there. *)
Theorem development_ids_count_up
    (remoteAddr : string) (t : ConnectionType) (clock : nat -> Z) (w w' : World) (p : nat) :
  1 <= MaxConnectionIdBits (GlobalSettings (globals w)) <= 32 ->
  Development (GlobalSettings (globals w)) = true ->
  0 <= nextConnectionId w < 2 ^ 32 - 1 ->
  allConnections w !! (nextConnectionId w + 1) = None ->
  AddConnection remoteAddr t clock w = Done p w' ->
  id (heap w' p) = nextConnectionId w + 1 /\
  nextConnectionId w' = nextConnectionId w + 1.
Proof.
  intros Hbits Hdev Hnext Hfree. unfold AddConnection.
  destruct t; try discriminate.
  all: rewrite (maxConnId_of_ones _ Hbits).
  all: cbn [allocateConnId].
  all: destruct (generateNextConnId remoteAddr (clock 0%nat) _ w) as [[] w0 | w0] eqn:Hgen;
    try discriminate.
  all: destruct (generateNextConnId_Done _ _ _ _ _ Hbits Hgen) as (n & -> & Hrange & Hn).
  all: destruct (Hn Hdev Hnext) as [-> _].
  all: change (allConnections (set_nextConnectionId ?n w)) with (allConnections w).
  all: change (nextConnectionId (set_nextConnectionId ?n w)) with n.
  all: rewrite Hfree.
  all: cbn [serverFsm clientFsm set_nextConnectionId].
  all: match goal with |- context [match ?f with Some _ => _ | None => _ end] =>
         destruct f; try discriminate end.
  all: intros H; inversion H; subst; clear H.
  all: cbv zeta.
  all: destruct (0 <? ConnectionAuthTimeoutMs (GlobalSettings (globals w))).
  all: cbn; rewrite Nat.eqb_refl; cbn.
  all: split; reflexivity.
Qed.

End IdMore.

(** ** Termination of the receive loop *)

Section TerminationMore.
Context `{E : Externals}.

Lemma receiveAll_runOps g reads : forall c,
  receiveAll g c reads = runOps g c (map OpReceive reads).
Proof.
  induction reads as [| data rest IH]; intros c; cbn [receiveAll map runOps runOp];
    [reflexivity |].
  destruct (receiveData g c data) as [[[c1 evs1] |] |]; try reflexivity.
  rewrite IH. reflexivity.
Qed.

(** X9. The loop of [receive] (lines 436-443) comes to an end on every
    read: with bytes in the buffer and bytes delivered, the bound of
    [receive_fuel] is enough for every read of a run, so each call of
    [receive] returns or panics. *)
Theorem receive_loop_terminates
    (g : Globals) (c : Connection) (reads : list (list Z)) :
  Forall is_byte (readBuffer c) ->
  Forall (Forall is_byte) reads ->
  exists r, receiveAll g c reads = Some r.
Proof.
  intros Hbuf Hreads.
  assert (Hsome : receiveAll g c reads <> None).
  { rewrite receiveAll_runOps. apply runOps_total; [exact Hbuf |].
    unfold reads_are_bytes. clear Hbuf.
    induction Hreads as [| data rest Hdata _ IH]; cbn [map]; constructor; assumption. }
  destruct (receiveAll g c reads) as [r |]; [exists r; reflexivity | congruence].
Qed.

End TerminationMore.

(** ** The further properties on concrete inputs *)

Lemma header_length_round_trip_witness :
  Header.decode (Header.encode 70000 1) = (70000, 1).
Proof.
  apply header_length_round_trip; unfold MaxPacketSize; try lia.
  intros _. vm_compute. discriminate.
Defined.

Lemma packetSize_witness :
  Header.packetSize [67; 72; 78; 7; 0] <= MaxPacketSize.
Proof.
  destruct (packetSize_is_the_length_in_the_tag [67; 72; 78; 7; 0]) as (_ & _ & Hshort).
  - repeat constructor; unfold is_byte; lia.
  - apply Hshort. reflexivity.
Defined.

Lemma one_frame_witness :
  exists c' evs,
    receiveAll Mini.globals0 Mini.conn0 [[67; 72; 78]; [7; 0; 10; 5]; [32; 1; 42; 1; 9]]
      = Some (Ok (c', evs)) /\
    packets_of evs = [Mini.packet1] /\ readPos c' = 0.
Proof.
  destruct (one_frame_in_any_number_of_reads Mini.globals0 Mini.conn0 0 Mini.body1
              Mini.body1 Mini.packet1 [[67; 72; 78]; [7; 0; 10; 5]; [32; 1; 42; 1; 9]])
    as (c' & evs & Hrun & Hpackets & Hpos & _).
  - lia.
  - vm_compute. discriminate.
  - simpl. lia.
  - reflexivity.
  - reflexivity.
  - reflexivity.
  - split; [simpl; lia | discriminate].
  - reflexivity.
  - exists c', evs. auto.
Defined.

Lemma frames_in_one_read_witness :
  exists c' evs,
    receiveData Mini.globals0 Mini.conn0 Mini.stream = Some (Ok (c', evs)) /\
    packets_of evs = [Mini.packet1; Mini.packet2] /\ readPos c' = 0.
Proof.
  apply (frames_in_one_read_are_dispatched_in_order Mini.globals0 Mini.conn0
           [mkWireFrame 0 Mini.body1 Mini.packet1; mkWireFrame 0 Mini.body2 Mini.packet2]).
  - repeat (constructor;
            [split; [simpl; lia |];
             split; [vm_compute; discriminate |];
             split; [simpl; lia |];
             eexists; split; reflexivity |]).
    constructor.
  - reflexivity.
  - simpl. lia.
  - discriminate.
Defined.

Lemma read_without_magic_byte_witness :
  exists c',
    receiveData Mini.globals0 Mini.conn0 [0; 72; 78; 7; 0; 1]
      = Some (Ok (c', [EvPacketDropped 7])) /\
    readPos c' = 0.
Proof.
  destruct (read_without_magic_byte_is_discarded Mini.globals0 Mini.conn0 [0; 72; 78; 7; 0; 1])
    as (c' & Hrun & Hpos & _).
  - reflexivity.
  - simpl. lia.
  - simpl. lia.
  - simpl. lia.
  - exists c'. auto.
Defined.

Lemma read_announcing_a_long_payload_witness :
  exists c',
    receiveData Mini.globals0 Mini.conn0 (Header.encode 70000 0 ++ [1; 2; 3])
      = Some (Ok (c', [EvPacketDropped 7])) /\
    readPos c' = 0.
Proof.
  apply (read_announcing_a_long_payload_is_discarded Mini.globals0 Mini.conn0 70000 0 [1; 2; 3]).
  - reflexivity.
  - simpl. lia.
  - unfold MaxPacketSize. lia.
  - vm_compute. discriminate.
Defined.

Lemma frame_that_fills_the_buffer_witness :
  exists c',
    receiveData Mini.globals0 Mini.conn0 (frame_of 0 (repeat 0 59%nat))
      = Some (Ok (c', [EvPacketDropped 7])) /\
    readPos c' = 0.
Proof.
  apply (frame_that_fills_the_buffer_is_dropped Mini.globals0 Mini.conn0 0 (repeat 0 59%nat)).
  - reflexivity.
  - lia.
  - vm_compute. discriminate.
  - simpl. lia.
  - reflexivity.
Defined.

Lemma frame_longer_than_the_buffer_witness :
  exists c' evs,
    receiveAll Mini.globals0 Mini.conn0 [frame_of 0 (repeat 0 60%nat); [1; 2; 3]; Mini.frame1]
      = Some (Ok (c', evs)) /\
    packets_of evs = [] /\
    readPos c' = Z.of_nat (length (readBuffer c')).
Proof.
  apply (frame_longer_than_the_buffer_is_never_delivered Mini.globals0 Mini.conn0 0
           (repeat 0 60%nat) [[1; 2; 3]; Mini.frame1]).
  - reflexivity.
  - lia.
  - vm_compute. discriminate.
  - simpl. lia.
  - simpl. lia.
  - simpl. lia.
Defined.

Lemma receive_loop_terminates_witness :
  exists r, receiveAll Mini.globals0 Mini.conn0 [[67; 72; 78]; [7; 0]] = Some r.
Proof.
  apply receive_loop_terminates.
  - apply List.Forall_forall. intros x Hx. apply List.repeat_spec in Hx. subst x.
    unfold is_byte. lia.
  - repeat constructor; unfold is_byte; lia.
Defined.

Lemma every_dispatched_packet_is_recorded_witness :
  exists c' evs s1,
    receiveAll Mini.recording_globals Mini.conn_recorded [Mini.frame1] = Some (Ok (c', evs)) /\
    replaySession c' = Some (Mini.session0 ++ s1) /\
    map ReplayPacket.Packet s1 = packets_of evs.
Proof.
  assert (Hrun : exists c' evs,
             receiveAll Mini.recording_globals Mini.conn_recorded [Mini.frame1]
             = Some (Ok (c', evs)))
    by (eexists _, _; reflexivity).
  destruct Hrun as (c' & evs & Hrun).
  destruct (every_dispatched_packet_is_recorded_once_in_order Mini.recording_globals
              Mini.conn_recorded c' [Mini.frame1] evs Mini.session0 eq_refl eq_refl Hrun)
    as (s1 & Hsession & Hpackets & _).
  exists c', evs, s1. auto.
Defined.

Lemma send_queue_bound_witness :
  exists c' evs,
    runOps Mini.globals0 Mini.conn_sending [OpSend Mini.ctx_a; OpFlush; OpSend Mini.ctx_b]
      = Some (Ok (c', evs)) /\
    Z.of_nat (length (sendQueue c')) <= sendQueue_capacity.
Proof.
  assert (Hrun : exists c' evs,
             runOps Mini.globals0 Mini.conn_sending
               [OpSend Mini.ctx_a; OpFlush; OpSend Mini.ctx_b] = Some (Ok (c', evs)))
    by (eexists _, _; reflexivity).
  destruct Hrun as (c' & evs & Hrun). exists c', evs. split; [exact Hrun |].
  apply (send_queue_never_exceeds_its_capacity Mini.globals0
           [OpSend Mini.ctx_a; OpFlush; OpSend Mini.ctx_b] Mini.conn_sending c' evs);
    [vm_compute; discriminate | exact Hrun].
Defined.

Lemma what_flush_writes_witness :
  exists bytes,
    writes_of (snd (flush Mini.conn_one_message)) = [bytes] /\
    forall chunks, concat chunks = bytes ->
      exists receiver' evs,
        receiveAll Mini.globals0 Mini.conn0 chunks = Some (Ok (receiver', evs)) /\
        packets_of evs = [Packet.mk (flushed_messages Mini.conn_one_message)] /\
        readPos receiver' = 0.
Proof.
  apply (what_flush_writes_the_receiver_dispatches Mini.globals0 Mini.conn_one_message
           Mini.conn0 [10; 7; 32; 1; 42; 3; 1; 2; 3]).
  - discriminate.
  - reflexivity.
  - reflexivity.
  - discriminate.
  - change (0 <= 0 < 256). lia.
  - change (9 <= 65535). lia.
  - change (~ (0x4E00 <= 9 <= 0x4EFF)). lia.
  - reflexivity.
  - split; [change (14 < 64); lia | discriminate].
Defined.

Lemma registry_ok_world0 : registry_ok Mini.world0.
Proof.
  intros k p H. change (allConnections Mini.world0) with ({[ 7 := 0%nat ]} : gmap Z nat) in H.
  apply lookup_singleton_Some in H. destruct H as [<- <-].
  split; [simpl; lia | reflexivity].
Qed.

Lemma pending_ok_world0 : pending_ok Mini.world0.
Proof.
  intros k p H. change (unauthenticatedConnections Mini.world0) with (∅ : gmap Z nat) in H.
  rewrite lookup_empty in H. discriminate.
Qed.

Lemma registry_ok_world_two : registry_ok Mini.world_two.
Proof.
  intros k p H.
  change (allConnections Mini.world_two)
    with (<[ 7 := 0%nat ]> ({[ 8 := 1%nat ]} : gmap Z nat)) in H.
  apply lookup_insert_Some in H. destruct H as [[<- <-] | [_ H]].
  - split; [simpl; lia | reflexivity].
  - apply lookup_singleton_Some in H. destruct H as [<- <-].
    split; [simpl; lia | reflexivity].
Qed.

Lemma Close_leaves_the_others_witness :
  heap (Close 0 Mini.world_two) 1%nat = Mini.conn1 /\
  allConnections (Close 0 Mini.world_two) !! 8 = Some 1%nat /\
  unauthenticatedConnections (Close 0 Mini.world_two) !! 8 = Some 1%nat /\
  GetConnection 8 (Close 0 Mini.world_two) = Some 1%nat /\
  GetConnection 7 (Close 0 Mini.world_two) = None.
Proof.
  destruct (Close_leaves_the_other_connections_alone 0 1 8 Mini.world_two)
    as (Hheap & Hall & Hun & Hget).
  - exact registry_ok_world_two.
  - reflexivity.
  - lia.
  - simpl. lia.
  - rewrite Hheap, Hall, Hun, Hget. repeat split.
Defined.

Lemma completed_Close_witness :
  let w := Mini.world_of Mini.globals0 Mini.conn_handlers in
  exists saved labels,
    closeHandlers (heap w 0%nat) = map HandlerReturns labels /\
    effects (Close 0 w) = effects w ++ saved ++ map EvCloseHandler labels ++ [EvConnClose 7].
Proof.
  intros w.
  destruct (Close_body_completes 0 w Mini.conn_handlers [] [1%nat; 2%nat; 3%nat]
              eq_refl eq_refl eq_refl eq_refl) as (w' & Hbody & _).
  destruct (completed_Close_ran_every_handler_before_closing_the_socket 0 w w' eq_refl Hbody)
    as (saved & labels & Hhandlers & Htrace & _).
  exists saved, labels. split; [exact Hhandlers |].
  unfold Close. rewrite Hbody. exact Htrace.
Defined.

Lemma receive_worker_stops_witness :
  let w := Mini.world_of Mini.globals0 Mini.conn_handlers in
  receiveWorker 0 [ReadError; ReadBytes Mini.frame1; ReadBytes Mini.frame2] w
  = Some (Done tt (Close 0 w)).
Proof.
  intros w.
  destruct (Close_body_completes 0 w Mini.conn_handlers [] [1%nat; 2%nat; 3%nat]
              eq_refl eq_refl eq_refl eq_refl) as (w' & Hbody & _).
  rewrite (receive_worker_stops_after_a_read_error 0
             [ReadBytes Mini.frame1; ReadBytes Mini.frame2] w w' eq_refl Hbody).
  unfold Close. rewrite Hbody. reflexivity.
Defined.

Lemma registries_stay_consistent_witness :
  exists w',
    runWorldOps [CallAddConnection "a" ConnectionType_CLIENT (fun _ => 97);
                 CallOnAuthenticated 1 "pit"; CallDisconnect 1;
                 CallReceive 1 ReadError; CallClose 0] Mini.world0 = Some w' /\
    registry_ok w' /\ pending_ok w'.
Proof.
  assert (Hrun : exists w',
             runWorldOps [CallAddConnection "a" ConnectionType_CLIENT (fun _ => 97);
                          CallOnAuthenticated 1 "pit"; CallDisconnect 1;
                          CallReceive 1 ReadError; CallClose 0] Mini.world0 = Some w')
    by (eexists; reflexivity).
  destruct Hrun as (w' & Hrun). exists w'. split; [exact Hrun |].
  exact (registries_stay_consistent _ Mini.world0 w' registry_ok_world0 pending_ok_world0 Hrun).
Defined.

Lemma new_connection_is_found_witness :
  exists p w',
    AddConnection "a" ConnectionType_CLIENT (fun _ => 97) Mini.world0 = Done p w' /\
    GetConnection (id (heap w' p)) w' = Some p /\
    GetConnection 7 w' = GetConnection 7 Mini.world0.
Proof.
  assert (Hadd : exists p w',
             AddConnection "a" ConnectionType_CLIENT (fun _ => 97) Mini.world0 = Done p w')
    by (eexists _, _; reflexivity).
  destruct Hadd as (p & w' & Hadd). exists p, w'. split; [exact Hadd |].
  destruct (new_connection_is_found_and_the_others_stay "a" ConnectionType_CLIENT
              (fun _ => 97) Mini.world0 w' p registry_ok_world0 Hadd)
    as (Hfound & Hnew & Hothers).
  split; [exact Hfound |]. apply Hothers.
  intros Hsame. rewrite <- Hsame in Hnew. discriminate.
Defined.

Lemma AddConnection_then_Close_witness :
  exists p w',
    AddConnection "a" ConnectionType_CLIENT (fun _ => 97) Mini.world0 = Done p w' /\
    allConnections (Close p w') = allConnections Mini.world0 /\
    unauthenticatedConnections (Close p w') = unauthenticatedConnections Mini.world0.
Proof.
  assert (Hadd : exists p w',
             AddConnection "a" ConnectionType_CLIENT (fun _ => 97) Mini.world0 = Done p w')
    by (eexists _, _; reflexivity).
  destruct Hadd as (p & w' & Hadd). exists p, w'. split; [exact Hadd |].
  destruct (AddConnection_then_Close_restores_the_registries "a" ConnectionType_CLIENT
              (fun _ => 97) Mini.world0 w' p pending_ok_world0 Hadd)
    as (Hall & Hun & _).
  split; [exact Hall | exact Hun].
Defined.

Lemma AddConnection_that_panics_witness :
  exists w',
    AddConnection "a" ConnectionType_CLIENT (fun _ => 97) Mini.world_without_fsm
      = Panicked w' /\
    allConnections w' = allConnections Mini.world_without_fsm /\
    heap_next w' = heap_next Mini.world_without_fsm.
Proof.
  assert (Hadd : exists w',
             AddConnection "a" ConnectionType_CLIENT (fun _ => 97) Mini.world_without_fsm
             = Panicked w')
    by (eexists; reflexivity).
  destruct Hadd as (w' & Hadd). exists w'. split; [exact Hadd |].
  destruct (AddConnection_that_panics_registers_nothing "a" ConnectionType_CLIENT
              (fun _ => 97) Mini.world_without_fsm w' Hadd) as (Hall & _ & _ & Hnext & _).
  split; [exact Hall | exact Hnext].
Defined.

Lemma every_id_is_taken_witness :
  exists w', AddConnection "a" ConnectionType_CLIENT (fun _ => 97) Mini.world_full
             = Panicked w'.
Proof.
  apply AddConnection_panics_when_every_id_is_taken.
  - simpl. lia.
  - intros k Hk. change (2 ^ MaxConnectionIdBits (GlobalSettings (globals Mini.world_full)) - 1)
      with 1 in Hk.
    assert (Hcases : k = 0 \/ k = 1) by lia.
    destruct Hcases as [-> | ->]; discriminate.
Defined.

Lemma development_ids_count_up_witness :
  exists p w',
    AddConnection "a" ConnectionType_CLIENT (fun _ => 97) Mini.world0 = Done p w' /\
    id (heap w' p) = 8 /\ nextConnectionId w' = 8.
Proof.
  assert (Hadd : exists p w',
             AddConnection "a" ConnectionType_CLIENT (fun _ => 97) Mini.world0 = Done p w')
    by (eexists _, _; reflexivity).
  destruct Hadd as (p & w' & Hadd). exists p, w'. split; [exact Hadd |].
  apply (development_ids_count_up "a" ConnectionType_CLIENT (fun _ => 97) Mini.world0 w' p).
  - simpl. lia.
  - reflexivity.
  - simpl. lia.
  - reflexivity.
  - exact Hadd.
Defined.

Lemma persisted_offsets_witness :
  exists c' evs packets,
    persistReplaySession Mini.recording_globals Mini.conn_recorded = Ok (c', evs) /\
    replaySession c' = Some packets /\
    elapsed 0 packets = [0; 500].
Proof.
  assert (Hrun : exists c' evs,
             persistReplaySession Mini.recording_globals Mini.conn_recorded = Ok (c', evs))
    by (eexists _, _; reflexivity).
  destruct Hrun as (c' & evs & Hrun).
  destruct (persisted_offsets_add_up_to_the_recorded_times Mini.recording_globals
              Mini.conn_recorded c' (ReplayPacket.mk 1000 (Packet.mk []))
              [ReplayPacket.mk 1500 (Packet.mk [])] evs eq_refl)
    as (packets & Hsession & Helapsed & _).
  - simpl. lia.
  - simpl. lia.
  - exact Hrun.
  - exists c', evs, packets. split; [exact Hrun |]. split; [exact Hsession | exact Helapsed].
Defined.
